(** * piker: execution management system, feed bus and Kraken reader

    A shallow embedding of the order-control plane of piker:
    - [piker/clearing/_ems.py]: [mk_check], [_DarkBook] and the three
      message loops [clear_dark_triggers],
      [translate_and_relay_brokerd_events], [process_client_order_cmds];
    - [piker/data/feed.py]: [attach_feed_bus] and
      [allocate_persistent_feed];
    - [piker/brokers/kraken.py]: the websocket reader [recv_msg].

    Every loop body is embedded as a function from the received message and
    the state before it to the state after it: one iteration of an
    [async for] is one step.  Python exceptions are results of the step.
    Prices are exact rationals extended with NaN; float rounding is not
    modelled. *)

From Stdlib Require Import QArith ZArith Ascii String List Bool Lia.
From stdpp Require Import base option list strings pretty gmap.

Local Open Scope string_scope.

(** ** Python values *)

Module Py.

(** A Python [float]: a rational, or NaN (on which every comparison is
    false, which is what makes the last branch of [mk_check] reachable). *)
Inductive pyfloat : Type :=
| Num (q : Q)
| NaN.

(** [a >= b] *)
Definition fge (a b : pyfloat) : bool :=
  match a, b with
  | Num x, Num y => Qle_bool y x
  | _, _ => false
  end.

(** [a <= b] *)
Definition fle (a b : pyfloat) : bool :=
  match a, b with
  | Num x, Num y => Qle_bool x y
  | _, _ => false
  end.

(** [a + b] *)
Definition fadd (a b : pyfloat) : pyfloat :=
  match a, b with
  | Num x, Num y => Num (x + y)
  | _, _ => NaN
  end.

(** [a * b] *)
Definition fmul (a b : pyfloat) : pyfloat :=
  match a, b with
  | Num x, Num y => Num (x * y)
  | _, _ => NaN
  end.

(** [-a] *)
Definition fneg (a : pyfloat) : pyfloat :=
  match a with
  | Num x => Num (- x)
  | NaN => NaN
  end.

(** truth value of a float: [0.0] is the only false one *)
Definition ftruthy (a : pyfloat) : bool :=
  match a with
  | Num x => negb (Qeq_bool x 0)
  | NaN => true
  end.

(** A broker request id, [Optional[Union[int, str]]]. *)
Inductive pyid : Type :=
| IdNone
| IdInt (z : Z)
| IdStr (s : string).

#[export] Instance pyid_eq_dec : EqDecision pyid.
Proof. solve_decision. Defined.

(** truth value of an id: [None], [0] and the empty string are false *)
Definition id_truthy (i : pyid) : bool :=
  match i with
  | IdNone => false
  | IdInt z => negb (z =? 0)%Z
  | IdStr s => negb (String.eqb s "")
  end.

(** [a or b] on ids *)
Definition id_or (a b : pyid) : pyid := if id_truthy a then a else b.

(** [x in t] for a tuple of strings *)
Definition str_in (x : string) (t : list string) : bool :=
  existsb (String.eqb x) t.

(** The exceptions the embedded code can raise. *)
Inductive pyexn : Type :=
| UnboundLocalError (name : string)
| KeyError (key : string)
| IndexError
| AttributeError (attr : string)
| AssertionError
| TypeError
| ValueError
| ValueDuplicationError
| ConnectionClosed (reason : string)
| BrokerError (err : string).

End Py.
Export Py.

(** ** [piker/clearing/_ems.py] *)

Module Ems.

(** The two closures [mk_check] can return, with the [trigger_price] each
    one captures. *)
Inductive check : Type :=
| check_gt (trigger_price : pyfloat)
| check_lt (trigger_price : pyfloat).

(** Calling the closure on a [price]. *)
Definition call_check (c : check) (price : pyfloat) : bool :=
  match c with
  | check_gt trigger_price => fge price trigger_price
  | check_lt trigger_price => fle price trigger_price
  end.

Definition mk_check (trigger_price known_last : pyfloat) (action : string)
  : option check :=
  if fge trigger_price known_last then Some (check_gt trigger_price)
  else if fle trigger_price known_last then Some (check_lt trigger_price)
  else None.

(** *** Messages

    [piker/clearing/_messages.py] is not part of the sources at hand; the
    message classes are records with the fields the spec's data model lists
    and the fields [_ems.py] reads and writes. *)

(** Modelled from the spec: [Order], the client intent, which is also the
    [cmd] dict a client sends (the [Order] object built from [cmd] keeps
    its fields). *)
Record Order : Type := mkOrder {
  o_oid : string;
  o_symbol : string;
  o_brokers : list string;
  o_action : string;
  o_price : pyfloat;
  o_size : pyfloat;
  o_exec_mode : string
}.

(** Modelled from the spec: [BrokerdOrder]. *)
Record BrokerdOrder : Type := mkBrokerdOrder {
  bo_action : string;
  bo_oid : string;
  bo_time_ns : Z;
  bo_reqid : pyid;
  bo_symbol : string;
  bo_price : pyfloat;
  bo_size : pyfloat
}.

(** Modelled from the spec: [BrokerdCancel]; its [action] is the constant
    ['cancel'] that the ack handler tests. *)
Record BrokerdCancel : Type := mkBrokerdCancel {
  bc_oid : string;
  bc_reqid : pyid;
  bc_time_ns : Z
}.

(** Modelled from the spec: [BrokerdOrderAck]. *)
Record BrokerdOrderAck : Type := mkBrokerdOrderAck {
  ba_reqid : pyid;
  ba_oid : string;
  ba_time_ns : Z
}.

(** Modelled from the spec: [BrokerdStatus]. *)
Record BrokerdStatus : Type := mkBrokerdStatus {
  bs_reqid : pyid;
  bs_time_ns : Z;
  bs_status : string;
  bs_filled : pyfloat;
  bs_reason : string;
  bs_remaining : pyfloat
}.

(** Modelled from the spec: [BrokerdFill]. *)
Record BrokerdFill : Type := mkBrokerdFill {
  bf_reqid : pyid;
  bf_time_ns : Z;
  bf_execid : string;
  bf_broker_time : pyfloat;
  bf_size : pyfloat;
  bf_price : pyfloat;
  bf_action : string
}.

(** Modelled from the spec: [BrokerdPosition]. *)
Record BrokerdPosition : Type := mkBrokerdPosition {
  bp_broker : string;
  bp_account : string;
  bp_symbol : string;
  bp_size : pyfloat;
  bp_avg_price : pyfloat;
  bp_currency : string
}.

(** What a [Status] relays in its [brokerd_msg] field: [{}], or the dict of
    a [BrokerdStatus] or of a [BrokerdFill]. *)
Inductive relayed : Type :=
| RelayNothing
| RelayStatus (m : BrokerdStatus)
| RelayFill (m : BrokerdFill).

(** Modelled from the spec: [Status].  [st_resp] is optional because the
    translator can pass [resp=None]; [st_broker_details] holds the broker
    name of [{'name': broker}]. *)
Record Status : Type := mkStatus {
  st_oid : string;
  st_resp : option string;
  st_time_ns : Z;
  st_symbol : option string;
  st_trigger_price : option pyfloat;
  st_broker_reqid : pyid;
  st_broker_details : option string;
  st_brokerd_msg : relayed;
  st_cmd : option Order
}.

(** A trade event as it arrives from [brokerd], a dict.  A key that may be
    missing is an [option]: [bm_oid = None] is a dict without ['oid'],
    [bm_oid = Some None] is ['oid': None]; [bm_broker_details] is the
    ['paper_info']['oid'] inside ['broker_details'], when each is there. *)
Record brokerd_msg : Type := mkBrokerdMsg {
  bm_name : string;
  bm_reqid : pyid;
  bm_oid : option (option string);
  bm_broker_details : option (option string);
  bm_external : bool;
  bm_time_ns : Z;
  bm_status : string;
  bm_filled : pyfloat;
  bm_remaining : pyfloat;
  bm_reason : string;
  bm_execid : string;
  bm_broker_time : pyfloat;
  bm_size : pyfloat;
  bm_price : pyfloat;
  bm_action : string;
  bm_position : BrokerdPosition
}.

(** The message objects that [_ems_entries] and the local [msg] of the
    command loop can hold. *)
Inductive flow_msg : Type :=
| FOrder (m : BrokerdOrder)
| FCancel (m : BrokerdCancel)
| FAck (m : BrokerdOrderAck)
| FClientOrder (m : Order).

(** What goes out on the client stream. *)
Inductive client_msg : Type :=
| CStatus (s : Status)
| CPosition (p : BrokerdPosition).

(** Attribute reads on a flow message; a class without the attribute
    raises. *)
Definition flow_oid (m : flow_msg) : string :=
  match m with
  | FOrder m => bo_oid m
  | FCancel m => bc_oid m
  | FAck m => ba_oid m
  | FClientOrder m => o_oid m
  end.

Definition flow_action (m : flow_msg) : pyexn + string :=
  match m with
  | FOrder m => inr (bo_action m)
  | FCancel _ => inr "cancel"
  | FAck _ => inl (AttributeError "action")
  | FClientOrder m => inr (o_action m)
  end.

Definition flow_reqid (m : flow_msg) : pyexn + pyid :=
  match m with
  | FOrder m => inr (bo_reqid m)
  | FCancel m => inr (bc_reqid m)
  | FAck m => inr (ba_reqid m)
  | FClientOrder _ => inl (AttributeError "reqid")
  end.

(** [entry.reqid = reqid] *)
Definition flow_set_reqid (m : flow_msg) (reqid : pyid) : pyexn + flow_msg :=
  match m with
  | FOrder m =>
      inr (FOrder (mkBrokerdOrder (bo_action m) (bo_oid m) (bo_time_ns m)
                     reqid (bo_symbol m) (bo_price m) (bo_size m)))
  | FCancel m => inr (FCancel (mkBrokerdCancel (bc_oid m) reqid (bc_time_ns m)))
  | FAck m => inr (FAck (mkBrokerdOrderAck reqid (ba_oid m) (ba_time_ns m)))
  | FClientOrder _ => inl ValueError
  end.

(** *** The dark book *)

(** One value of [orders[symbol]]: the tuple
    [(pred, tickfilter, cmd, percent_away, abs_diff_away)]. *)
Record entry : Type := mkEntry {
  e_pred : option check;
  e_tf : list string;
  e_cmd : Order;
  e_percent_away : pyfloat;
  e_abs_diff_away : pyfloat
}.

(** A Python dict keyed by oid, in insertion order. *)
Abbreviation execs := (list (string * entry)).

Definition dict_keys (d : execs) : list string := d.*1.

Fixpoint dict_get (d : execs) (k : string) : option entry :=
  match d with
  | [] => None
  | (k', v) :: d' => if String.eqb k' k then Some v else dict_get d' k
  end.

(** [d[k] = v]: a present key keeps its place, a new one goes last. *)
Fixpoint dict_set (d : execs) (k : string) (v : entry) : execs :=
  match d with
  | [] => [(k, v)]
  | (k', v') :: d' =>
      if String.eqb k' k then (k, v) :: d' else (k', v') :: dict_set d' k v
  end.

(** the dict without key [k] *)
Fixpoint dict_del (d : execs) (k : string) : execs :=
  match d with
  | [] => []
  | (k', v') :: d' =>
      if String.eqb k' k then d' else (k', v') :: dict_del d' k
  end.

(** The dict objects of [orders] live in a store, [orders] maps a symbol to
    the address of its dict: [clear_dark_triggers] works on the dict object
    it got from [book.orders.get(sym)] and can bind the same object to
    another symbol. *)
Abbreviation addr := nat.

(** [_ems2brokerd_ids], a [bidict] from oid to reqid, as the list of its
    items. *)
Definition bidict : Type := list (string * pyid).

Fixpoint bidict_get (b : bidict) (oid : string) : option pyid :=
  match b with
  | [] => None
  | (k, v) :: b' => if String.eqb k oid then Some v else bidict_get b' oid
  end.

(** [b.inverse.get(reqid)] *)
Fixpoint bidict_inverse_get (b : bidict) (reqid : pyid) : option string :=
  match b with
  | [] => None
  | (k, v) :: b' =>
      if decide (v = reqid) then Some k else bidict_inverse_get b' reqid
  end.

Fixpoint bidict_del (b : bidict) (oid : string) : bidict :=
  match b with
  | [] => []
  | (k, v) :: b' =>
      if String.eqb k oid then b' else (k, v) :: bidict_del b' oid
  end.

(** [b[oid] = reqid] under the default duplication policy of [bidict]: the
    same item again is a no-op, a value bound to another key raises, a key
    bound to another value is rebound. *)
Definition bidict_set (b : bidict) (oid : string) (reqid : pyid)
  : pyexn + bidict :=
  match bidict_inverse_get b reqid with
  | Some k =>
      if String.eqb k oid then inr b else inl ValueDuplicationError
  | None => inr (bidict_del b oid ++ [(oid, reqid)])%list
  end.

Record DarkBook : Type := mkDarkBook {
  broker : string;
  orders : gmap string addr;
  dicts : gmap addr execs;
  lasts : gmap (string * string) pyfloat;
  ems_entries : gmap string flow_msg;
  ems2brokerd_ids : bidict
}.

(** The state the three loops share: the book, what was sent so far on the
    stream to [brokerd] and on the stream to the client, and how many times
    the clock was read. *)
Record World : Type := mkWorld {
  book : DarkBook;
  to_brokerd : list flow_msg;
  to_client : list client_msg;
  clock_reads : nat
}.

(** *** The loops' monad: state and exceptions *)

Inductive outcome (A : Type) : Type :=
| Ret (a : A) (w : World)
| Raise (e : pyexn) (w : World).
Arguments Ret {A} a w.
Arguments Raise {A} e w.

Definition M (A : Type) : Type := World → outcome A.

#[export] Instance M_ret : MRet M := λ A a w, Ret a w.

#[export] Instance M_bind : MBind M := λ A B k m w,
  match m w with
  | Ret a w' => k a w'
  | Raise e w' => Raise e w'
  end.

Definition raise {A : Type} (e : pyexn) : M A := λ w, Raise e w.

(** a computation that can raise but touches no state *)
Definition lift {A : Type} (r : pyexn + A) : M A :=
  match r with
  | inl e => raise e
  | inr a => mret a
  end.

Definition get_book : M DarkBook := λ w, Ret (book w) w.

Definition modify_book (f : DarkBook → DarkBook) : M unit := λ w,
  Ret tt (mkWorld (f (book w)) (to_brokerd w) (to_client w) (clock_reads w)).

(** [await brokerd_orders_stream.send(msg.dict())] *)
Definition send_brokerd (m : flow_msg) : M unit := λ w,
  Ret tt (mkWorld (book w) (to_brokerd w ++ [m])%list (to_client w)
            (clock_reads w)).

(** [await ems_client_order_stream.send(msg)] *)
Definition send_client (m : client_msg) : M unit := λ w,
  Ret tt (mkWorld (book w) (to_brokerd w) (to_client w ++ [m])%list
            (clock_reads w)).

Definition set_orders (sym : string) (l : addr) (b : DarkBook) : DarkBook :=
  mkDarkBook (broker b) (<[sym := l]> (orders b)) (dicts b) (lasts b)
    (ems_entries b) (ems2brokerd_ids b).

Definition set_dict (l : addr) (d : execs) (b : DarkBook) : DarkBook :=
  mkDarkBook (broker b) (orders b) (<[l := d]> (dicts b)) (lasts b)
    (ems_entries b) (ems2brokerd_ids b).

Definition set_last (k : string * string) (p : pyfloat) (b : DarkBook)
  : DarkBook :=
  mkDarkBook (broker b) (orders b) (dicts b) (<[k := p]> (lasts b))
    (ems_entries b) (ems2brokerd_ids b).

Definition set_ems_entry (oid : string) (m : flow_msg) (b : DarkBook)
  : DarkBook :=
  mkDarkBook (broker b) (orders b) (dicts b) (lasts b)
    (<[oid := m]> (ems_entries b)) (ems2brokerd_ids b).

Definition set_ems2brokerd_ids (ids : bidict) (b : DarkBook) : DarkBook :=
  mkDarkBook (broker b) (orders b) (dicts b) (lasts b) (ems_entries b) ids.

(** the dict object at an address *)
Definition dict_at (b : DarkBook) (l : addr) : execs :=
  default [] (dicts b !! l).

(** [execs.pop(oid)] on the dict object at [l] *)
Definition execs_pop (l : addr) (oid : string) : M unit :=
  b ← get_book;
  match dict_get (dict_at b l) oid with
  | None => raise (KeyError oid)
  | Some _ => modify_book (set_dict l (dict_del (dict_at b l) oid))
  end.

Section Clock.

(** [time.time_ns()]: the n-th read of the clock returns [clock n]. *)
Variable clock : nat → Z.

Definition time_ns : M Z := λ w,
  Ret (clock (clock_reads w))
    (mkWorld (book w) (to_brokerd w) (to_client w) (S (clock_reads w))).

(** *** [clear_dark_triggers] *)

(** One element of [quote['ticks']]. *)
Record tick : Type := mkTick {
  tk_type : string;
  tk_price : pyfloat
}.

(** A quote, as far as the trigger loop reads it: its ['ticks']. *)
Definition quote : Type := list tick.

(** Modelled from the spec: [iterticks] of [piker/data/_normalize.py], which
    is not part of the sources at hand: the ticks of the quote whose type
    is one of [types], in their order. *)
Definition iterticks (q : quote) (types : list string) : list tick :=
  List.filter (λ t, str_in (tk_type t) types) q.

(** The body of the condition scan loop for one item [(oid, entry)] of the
    snapshot [tuple(execs.items())].  [symbol] is the local variable of that
    name, which a triggered entry rebinds to [cmd['symbol']]; the result is
    its value after the body. *)
Definition trigger_entry (broker sym : string) (l : addr) (t : tick)
    (oid : string) (e : entry) (symbol : string) : M string :=
  let price := tk_price t in
  let ttype := tk_type t in
  match e_pred e with
  | None => mret symbol
  | Some pred =>
      if negb (str_in ttype (e_tf e)) || negb (call_check pred price)
      then mret symbol
      else
        let cmd := e_cmd e in
        let action := o_action cmd in
        let symbol := o_symbol cmd in
        resp ← (if String.eqb action "alert" then mret "alert_triggered"
                else
                  let submit_price := fadd price (e_abs_diff_away e) in
                  now ← time_ns;
                  let msg :=
                    FOrder (mkBrokerdOrder (o_action cmd) oid now IdNone sym
                              submit_price (o_size cmd)) in
                  send_brokerd msg;;
                  modify_book (set_ems_entry oid msg);;
                  mret "dark_triggered");
        now ← time_ns;
        let msg :=
          mkStatus oid (Some resp) now (Some symbol) (Some price) IdNone
            (Some broker) RelayNothing (Some cmd) in
        execs_pop l oid;;
        send_client (CStatus msg);;
        mret symbol
  end.

(** The condition scan loop over the snapshot. *)
Fixpoint scan_execs (broker sym : string) (l : addr) (t : tick)
    (items : execs) (symbol : string) : M string :=
  match items with
  | [] => mret symbol
  | (oid, e) :: rest =>
      symbol' ← trigger_entry broker sym l t oid e symbol;
      scan_execs broker sym l t rest symbol'
  end.

(** The body of the tick loop: the update of [lasts], the scan, and the
    [else] of the scan loop, which runs after every scan (the scan has no
    [break]). *)
Definition scan_tick (broker sym : string) (l : addr) (t : tick)
    (symbol : string) : M string :=
  modify_book (set_last (broker, symbol) (tk_price t));;
  b ← get_book;
  symbol' ← scan_execs broker sym l t (dict_at b l) symbol;
  b' ← get_book;
  match dict_at b' l with
  | [] => mret symbol'
  | _ :: _ => modify_book (set_orders symbol' l);; mret symbol'
  end.

Fixpoint scan_ticks (broker sym : string) (l : addr) (ts : list tick)
    (symbol : string) : M string :=
  match ts with
  | [] => mret symbol
  | t :: ts' =>
      symbol' ← scan_tick broker sym l t symbol;
      scan_ticks broker sym l ts' symbol'
  end.

(** The body of [for sym, quote in quotes.items()]. *)
Definition scan_quote (broker sym : string) (q : quote) (symbol : string)
  : M string :=
  b ← get_book;
  match orders b !! sym with
  | None => mret symbol
  | Some l =>
      scan_ticks broker sym l (iterticks q ["ask"; "bid"; "trade"; "last"])
        symbol
  end.

(** One message of the quote stream: a dict from symbol to quote. *)
Fixpoint scan_quotes (broker : string) (quotes : list (string * quote))
    (symbol : string) : M string :=
  match quotes with
  | [] => mret symbol
  | (sym, q) :: rest =>
      symbol' ← scan_quote broker sym q symbol;
      scan_quotes broker rest symbol'
  end.

(** The loop over the quote stream, on the messages it delivers. *)
Fixpoint clear_dark_triggers (broker symbol : string)
    (stream : list (list (string * quote))) : M string :=
  match stream with
  | [] => mret symbol
  | quotes :: stream' =>
      symbol' ← scan_quotes broker quotes symbol;
      clear_dark_triggers broker symbol' stream'
  end.

(** *** [translate_and_relay_brokerd_events] *)

Definition BrokerdStatus_of (m : brokerd_msg) : BrokerdStatus :=
  mkBrokerdStatus (bm_reqid m) (bm_time_ns m) (bm_status m) (bm_filled m)
    (bm_reason m) (bm_remaining m).

Definition BrokerdFill_of (m : brokerd_msg) : BrokerdFill :=
  mkBrokerdFill (bm_reqid m) (bm_time_ns m) (bm_execid m) (bm_broker_time m)
    (bm_size m) (bm_price m) (bm_action m).

(** [BrokerdOrderAck] built from the event: the class requires an [oid]. *)
Definition BrokerdOrderAck_of (m : brokerd_msg) : pyexn + BrokerdOrderAck :=
  match bm_oid m with
  | Some (Some oid) => inr (mkBrokerdOrderAck (bm_reqid m) oid (bm_time_ns m))
  | _ => inl ValueError
  end.

(** The [resp] the translator computes for a ['status'] event. *)
Definition status_resp (m : BrokerdStatus) : option string :=
  if String.eqb (bs_status m) "filled" then
    if negb (ftruthy (bs_remaining m)) then Some "broker_executed" else None
  else Some ("broker_" ++ bs_status m).

(** The tail of the loop body, from [resp = None] on, for an event that
    was resolved to [oid]. *)
Definition relay_event (name : string) (reqid : pyid) (oid : string)
    (m : brokerd_msg) : M unit :=
  if String.eqb name "error" then mret tt
  else
    rd ← (if String.eqb name "status" then
            let msg := BrokerdStatus_of m in
            mret (status_resp msg, RelayStatus msg)
          else if String.eqb name "fill" then
            mret (Some "broker_filled", RelayFill (BrokerdFill_of m))
          else raise ValueError);
    now ← time_ns;
    send_client
      (CStatus (mkStatus oid rd.1 now None None reqid None rd.2 None)).

(** The loop body for one event of the trades stream.  [entry.reqid =
    reqid] updates the object held in [_ems_entries[oid]]; it is stored
    back under [oid]. *)
Definition translate_and_relay_brokerd_event (m : brokerd_msg) : M unit :=
  let name := bm_name m in
  if String.eqb name "position" then send_client (CPosition (bm_position m))
  else
    let reqid := bm_reqid m in
    b ← get_book;
    let oid :=
      match bm_oid m with
      | Some v => v
      | None => bidict_inverse_get (ems2brokerd_ids b) reqid
      end in
    match oid with
    | None =>
        match bm_broker_details m with
        | None => raise (KeyError "broker_details")
        | Some (Some paper_oid) => relay_event name reqid paper_oid m
        | Some None => mret tt
        end
    | Some oid =>
        let entry := ems_entries b !! oid in
        if String.eqb name "ack" then
          ids ← lift (bidict_set (ems2brokerd_ids b) oid reqid);
          modify_book (set_ems2brokerd_ids ids);;
          match entry with
          | None => raise (AttributeError "action")
          | Some entry =>
              action ← lift (flow_action entry);
              if String.eqb action "cancel" then
                entry' ← lift (flow_set_reqid entry reqid);
                modify_book (set_ems_entry oid entry');;
                send_brokerd entry'
              else
                ack ← lift (BrokerdOrderAck_of m);
                modify_book (set_ems_entry oid (FAck ack))
          end
        else
          match entry with
          | None => raise (AttributeError "oid")
          | Some entry => relay_event name reqid (flow_oid entry) m
          end
    end.

Fixpoint translate_and_relay_brokerd_events (stream : list brokerd_msg)
  : M unit :=
  match stream with
  | [] => mret tt
  | m :: stream' =>
      translate_and_relay_brokerd_event m;;
      translate_and_relay_brokerd_events stream'
  end.

(** *** [process_client_order_cmds] *)

(** [dark_book.orders.setdefault(sym, {})]: the address of the dict of
    [sym], a new empty dict being bound to [sym] when it has none. *)
Definition orders_setdefault (sym : string) : M addr :=
  b ← get_book;
  match orders b !! sym with
  | Some l => mret l
  | None =>
      let l := fresh (dom (dicts b)) in
      modify_book (set_dict l []);;
      modify_book (set_orders sym l);;
      mret l
  end.

(** The tuple a dark or alert submission registers, from the command, the
    predicate and [min_tick]. *)
Definition dark_entry (cmd : Order) (pred : option check)
    (min_tick : pyfloat) : entry :=
  let spread_slap := Num 5 in
  let action := o_action cmd in
  if String.eqb action "buy" then
    mkEntry pred ["ask"; "last"; "trade"] cmd (Num (5 # 1000))
      (fmul spread_slap min_tick)
  else if String.eqb action "sell" then
    mkEntry pred ["bid"; "last"; "trade"] cmd (Num (- (5 # 1000)))
      (fmul (fneg spread_slap) min_tick)
  else
    mkEntry pred ["trade"; "utrade"; "last"] cmd (Num 0) (Num 0).

(** The loop body for one command.  [symbol] is the symbol of the session,
    [feed] maps a symbol to the [tick_size] of [feed.symbols], [msg] is the
    local variable of that name as the previous iterations left it ([None]:
    not bound yet); the result is [msg] after the body. *)
Definition process_client_order_cmd (symbol : string)
    (feed : gmap string pyfloat) (cmd : Order) (msg : option flow_msg)
  : M (option flow_msg) :=
  let action := o_action cmd in
  let oid := o_oid cmd in
  b ← get_book;
  let reqid :=
    match bidict_inverse_get (ems2brokerd_ids b) (IdStr oid) with
    | Some r => IdStr r
    | None => IdNone
    end in
  let live_entry := ems_entries b !! oid in
  if String.eqb action "cancel" then
    match live_entry with
    | Some live_entry =>
        r ← (if id_truthy reqid then mret reqid
             else lift (flow_reqid live_entry));
        now ← time_ns;
        let msg := FCancel (mkBrokerdCancel oid r now) in
        send_brokerd msg;;
        mret (Some msg)
    | None =>
        match msg with
        | None => raise (UnboundLocalError "msg")
        | Some m =>
            modify_book (set_ems_entry oid m);;
            match orders b !! symbol with
            | None => mret msg
            | Some l =>
                modify_book (set_dict l (dict_del (dict_at b l) oid));;
                now ← time_ns;
                send_client
                  (CStatus (mkStatus oid (Some "dark_cancelled") now None
                              None IdNone None RelayNothing None));;
                mret msg
            end
        end
    end
  else if str_in action ["alert"; "buy"; "sell"] then
    let msg := FClientOrder cmd in
    let sym := o_symbol cmd in
    let trigger_price := o_price cmd in
    let size := o_size cmd in
    let exec_mode := o_exec_mode cmd in
    match o_brokers cmd with
    | [] => raise IndexError
    | broker :: _ =>
        if String.eqb exec_mode "live" && str_in action ["buy"; "sell"] then
          match live_entry with
          | Some live_entry =>
              (if String.eqb (flow_oid live_entry) oid then mret tt
               else raise AssertionError);;
              lift (flow_reqid live_entry);;
              mret tt
          | None => mret tt
          end;;
          now ← time_ns;
          let msg :=
            FOrder (mkBrokerdOrder action oid now reqid sym trigger_price
                      size) in
          send_brokerd msg;;
          modify_book (set_ems_entry oid msg);;
          mret (Some msg)
        else if str_in exec_mode ["dark"; "paper"]
                || String.eqb action "alert" then
          match lasts b !! (broker, sym) with
          | None => raise (KeyError sym)
          | Some last =>
              let pred := mk_check trigger_price last action in
              match feed !! sym with
              | None => raise (KeyError sym)
              | Some min_tick =>
                  l ← orders_setdefault sym;
                  b' ← get_book;
                  modify_book
                    (set_dict l
                       (dict_set (dict_at b' l) oid
                          (dark_entry cmd pred min_tick)));;
                  let resp :=
                    if String.eqb action "alert" then "alert_submitted"
                    else "dark_submitted" in
                  now ← time_ns;
                  send_client
                    (CStatus (mkStatus oid (Some resp) now None None IdNone
                                None RelayNothing None));;
                  mret (Some msg)
              end
          end
        else mret (Some msg)
    end
  else mret msg.

Fixpoint process_client_order_cmds (symbol : string)
    (feed : gmap string pyfloat) (stream : list Order)
    (msg : option flow_msg) : M (option flow_msg) :=
  match stream with
  | [] => mret msg
  | cmd :: stream' =>
      msg' ← process_client_order_cmd symbol feed cmd msg;
      process_client_order_cmds symbol feed stream' msg'
  end.

End Clock.

(** The book [_Router.get_dark_book] creates for a broker, and the world
    of a session before its first message. *)
Definition empty_book (brokername : string) : DarkBook :=
  mkDarkBook brokername ∅ ∅ ∅ ∅ [].

Definition initial_world (b : DarkBook) : World := mkWorld b [] [] 0.

End Ems.

(** ** [piker/data/feed.py] *)

Module Feed.

(** [init_msg[symbol]]: what the backend's [stream_quotes] delivered, the
    token of the shm array and the sample rate. *)
Record init_msg : Type := mkInitMsg {
  symbol_info : nat;
  shm_token : string;
  sample_rate : Z
}.

(** An entry of [bus.feeds]: [(cs, init_msg, first_quote)]; the cancel
    scope is the one of the bus nursery for every entry. *)
Record feed_entry : Type := mkFeedEntry {
  fe_init_msg : init_msg;
  fe_first_quote : nat
}.

(** [_FeedsBus], with [task_lock] as its holder and its queue of waiting
    tasks, and the log of the runs of [allocate_persistent_feed]. *)
Record FeedsBus : Type := mkFeedsBus {
  brokername : string;
  feeds : gmap string feed_entry;
  subscribers : gmap string (list (nat * option Q));
  lock_holder : option nat;
  lock_waiters : list nat;
  allocations : list string
}.

(** Where a task running [attach_feed_bus] stands.  Control can pass to
    another task only at an [await]; each constructor is the state of the
    task at such a point, with the value of its local [entry]. *)
Inductive task : Type :=
| Called                               (* not started yet *)
| Waiting (entry : option feed_entry)  (* queued on [bus.task_lock] *)
| Locked (entry : option feed_entry)   (* holds the lock, inside the block *)
| Allocating                           (* awaiting [bus.nursery.start] *)
| Started (init : init_msg) (first_quote : nat)  (* after [ctx.started] *)
| Streaming (init : init_msg) (first_quote : nat)
| Failed (e : pyexn).

(** [str.lower] on ASCII letters. *)
Definition lower_ascii (c : Ascii.ascii) : Ascii.ascii :=
  let n := Ascii.nat_of_ascii c in
  if (65 <=? n)%nat && (n <=? 90)%nat then Ascii.ascii_of_nat (n + 32) else c.

Fixpoint lower (s : string) : string :=
  match s with
  | EmptyString => EmptyString
  | String c s' => String (lower_ascii c) (lower s')
  end.

Definition sym_to_shm_key (broker symbol : string) : string :=
  broker ++ "." ++ symbol.

Section Backend.

(** The backend's [stream_quotes]: the symbol info and the first quote it
    delivers for a symbol when it is started for the n-th time. *)
Variable stream_quotes : string → nat → nat * nat.

(** The sample period found in the shm array of a symbol. *)
Variable delay_s : string → Z.

(** [allocate_persistent_feed], up to [task_status.started]: the run is
    logged, the entry is stored under the lower-case symbol. *)
Definition allocate_persistent_feed (symbol : string) (bus : FeedsBus)
  : FeedsBus * (init_msg * nat) :=
  let started := stream_quotes symbol (length (allocations bus)) in
  let init :=
    mkInitMsg started.1 (sym_to_shm_key (brokername bus) symbol)
      (delay_s symbol) in
  (mkFeedsBus (brokername bus)
     (<[lower symbol := mkFeedEntry init started.2]> (feeds bus))
     (subscribers bus) (lock_holder bus) (lock_waiters bus)
     (allocations bus ++ [symbol])%list,
   (init, started.2)).

(** Leaving [async with bus.task_lock]: the lock goes to the task that
    waited longest. *)
Definition release (bus : FeedsBus) (tasks : list task)
  : FeedsBus * list task :=
  match lock_waiters bus with
  | [] =>
      (mkFeedsBus (brokername bus) (feeds bus) (subscribers bus) None []
         (allocations bus), tasks)
  | t :: ws =>
      (mkFeedsBus (brokername bus) (feeds bus) (subscribers bus) (Some t) ws
         (allocations bus),
       match tasks !! t with
       | Some (Waiting entry) => <[t := Locked entry]> tasks
       | _ => tasks
       end)
  end.

(** After the lock block: [cs, init_msg, first_quote = bus.feeds[symbol]]
    and [ctx.started]. *)
Definition deliver (symbol : string) (bus : FeedsBus) : task :=
  match feeds bus !! symbol with
  | None => Failed (KeyError symbol)
  | Some e => Started (fe_init_msg e) (fe_first_quote e)
  end.

(** Task [i] of the tasks attaching to [symbol] runs from the [await] it
    stands at to its next one. *)
Definition attach_feed_bus_step (symbol : string) (tick_throttle : option Q)
    (i : nat) (st : FeedsBus * list task) : FeedsBus * list task :=
  let bus := st.1 in
  let tasks := st.2 in
  match tasks !! i with
  | Some Called =>
      let entry := feeds bus !! symbol in
      let subs :=
        match subscribers bus !! symbol with
        | Some _ => subscribers bus
        | None => <[symbol := []]> (subscribers bus)
        end in
      match lock_holder bus with
      | None =>
          (mkFeedsBus (brokername bus) (feeds bus) subs (Some i)
             (lock_waiters bus) (allocations bus),
           <[i := Locked entry]> tasks)
      | Some _ =>
          (mkFeedsBus (brokername bus) (feeds bus) subs (lock_holder bus)
             (lock_waiters bus ++ [i])%list (allocations bus),
           <[i := Waiting entry]> tasks)
      end
  | Some (Locked None) => (bus, <[i := Allocating]> tasks)
  | Some (Locked (Some _)) =>
      let st' := release bus tasks in
      (st'.1, <[i := deliver symbol st'.1]> st'.2)
  | Some Allocating =>
      let bus' := (allocate_persistent_feed symbol bus).1 in
      match feeds bus' !! symbol with
      | None =>
          let st' := release bus' tasks in
          (st'.1, <[i := Failed (KeyError symbol)]> st'.2)
      | Some _ =>
          let st' := release bus' tasks in
          (st'.1, <[i := deliver symbol st'.1]> st'.2)
      end
  | Some (Started init first_quote) =>
      (mkFeedsBus (brokername bus) (feeds bus)
         (<[symbol :=
              (default [] (subscribers bus !! symbol)
                 ++ [(i, tick_throttle)])%list]> (subscribers bus))
         (lock_holder bus) (lock_waiters bus) (allocations bus),
       <[i := Streaming init first_quote]> tasks)
  | _ => st
  end.

(** The tasks run in the order of a schedule. *)
Fixpoint run (symbol : string) (schedule : list nat)
    (st : FeedsBus * list task) : FeedsBus * list task :=
  match schedule with
  | [] => st
  | i :: schedule' =>
      run symbol schedule' (attach_feed_bus_step symbol None i st)
  end.

End Backend.

(** The bus [get_feed_bus] sets up. *)
Definition new_bus (brokername : string) : FeedsBus :=
  mkFeedsBus brokername ∅ ∅ None [] [].

(** [get_feed_bus] on the module global [_bus]: the call with a nursery
    is the setup by the parent actor, and asserts that there is no bus
    yet; every call asserts the broker name of the bus. *)
Definition get_feed_bus (brokername_ : string) (nursery : bool)
    (_bus : option FeedsBus) : (pyexn + FeedsBus) * option FeedsBus :=
  let setup :=
    if nursery then
      match _bus with
      | Some _ => inl AssertionError
      | None => inr (Some (new_bus brokername_))
      end
    else inr _bus in
  match setup with
  | inl e => (inl e, _bus)
  | inr None => (inl (AttributeError "brokername"), None)
  | inr (Some bus) =>
      if String.eqb (brokername bus) brokername_ then (inr bus, Some bus)
      else (inl AssertionError, Some bus)
  end.

End Feed.

(** ** [piker/brokers/kraken.py] *)

Module Kraken.

(** An element of a list message: a number, a string or an array of
    numbers. *)
Inductive ws_item : Type :=
| INum (q : Q)
| IStr (s : string)
| IArr (fields : list Q).

(** A message of the websocket: a dict, of which the reader looks at
    ['event'] and ['errorMessage'], or a list. *)
Inductive ws_msg : Type :=
| WsDict (event : option string) (errorMessage : option string)
| WsList (items : list ws_item).

(** What a call of [recv()] under [trio.move_on_after(1.5)] ends in: a
    message, or the cancellation of the call when the time is over. *)
Inductive recv_result : Type :=
| Received (m : ws_msg)
| TimedOut.

(** The seconds [move_on_after] allows one call of [recv()]. *)
Definition recv_deadline : Q := 15 # 10.

(** What the generator yields: [('ohlc', OHLC(...))] or [('l1', quote)]. *)
Inductive yielded : Type :=
| YOhlc (chan_id : ws_item) (chan_name : string) (pair_ : ws_item)
    (fields : list Q)
| YL1 (symbol : string) (bid bsize ask asize : Q).

(** The locals of [recv_msg] the loop carries from one iteration to the
    next; [last_hb] only feeds the log and is left out. *)
Record reader : Type := mkReader {
  too_slow_count : nat;
  msg : option ws_msg
}.

Inductive step_result : Type :=
| Continue (st : reader) (out : list yielded)
| Raised (e : pyexn).

(** [s in t] on strings *)
Definition contains (s t : string) : bool :=
  match String.index 0 s t with
  | Some _ => true
  | None => false
  end.

(** [pair.replace('/', '')] *)
Fixpoint strip_slash (s : string) : string :=
  match s with
  | EmptyString => EmptyString
  | String c s' =>
      if Ascii.eqb c "/"%char then strip_slash s'
      else String c (strip_slash s')
  end.

(** [chan_id, *payload_array, chan_name, pair = msg] *)
Definition unpack (items : list ws_item)
  : option (ws_item * list ws_item * ws_item * ws_item) :=
  match items with
  | chan_id :: rest =>
      match rev rest with
      | pair_ :: chan_name :: payload_rev =>
          Some (chan_id, rev payload_rev, chan_name, pair_)
      | _ => None
      end
  | [] => None
  end.

(** The branches on a list message whose [chan_name] is a string. *)
Definition handle_channel (st : reader) (chan_id : ws_item)
    (payload_array : list ws_item) (chan_name : string) (pair_ : ws_item)
  : step_result :=
  if contains "ohlc" chan_name then
    match payload_array with
    | IArr fields :: _ =>
        if (length fields =? 9)%nat
        then Continue st [YOhlc chan_id chan_name pair_ fields]
        else Raised TypeError
    | _ :: _ => Raised TypeError
    | [] => Raised IndexError
    end
  else if contains "spread" chan_name then
    match payload_array with
    | IArr [bid; ask; ts; bsize; asize] :: _ =>
        match pair_ with
        | IStr p => Continue st [YL1 (strip_slash p) bid bsize ask asize]
        | _ => Raised (AttributeError "replace")
        end
    | IArr _ :: _ => Raised ValueError
    | _ :: _ => Raised TypeError
    | [] => Raised IndexError
    end
  else Continue st [].

(** The part of the loop body after the watchdog, on the value of [msg]. *)
Definition handle_msg (st : reader) (m : ws_msg) : step_result :=
  match m with
  | WsDict event err =>
      if decide (event = Some "heartbeat") then Continue st []
      else
        match err with
        | Some e =>
            if String.eqb e "" then Continue st [] else Raised (BrokerError e)
        | None => Continue st []
        end
  | WsList items =>
      match unpack items with
      | None => Raised ValueError
      | Some (chan_id, payload_array, IStr chan_name, pair_) =>
          handle_channel st chan_id payload_array chan_name pair_
      | Some (_, _, INum _, _) => Raised TypeError
      | Some (_, _, IArr _, _) => Continue st []
      end
  end.

(** One iteration of [while True]. *)
Definition recv_msg_step (st : reader) (r : recv_result) : step_result :=
  let watched :=
    match r with
    | Received m => inr (mkReader (too_slow_count st) (Some m))
    | TimedOut =>
        let n := S (too_slow_count st) in
        if (2 <? n)%nat then inl (ConnectionClosed "Reset Connection")
        else inr (mkReader n (msg st))
    end in
  match watched with
  | inl e => Raised e
  | inr st' =>
      match msg st' with
      | None => Raised (UnboundLocalError "msg")
      | Some m => handle_msg st' m
      end
  end.

(** The reader on the results of its successive calls of [recv()]: what it
    yielded, and the state it is in or the exception that ended it. *)
Fixpoint recv_msg_from (st : reader) (rs : list recv_result)
  : list yielded * (pyexn + reader) :=
  match rs with
  | [] => ([], inr st)
  | r :: rs' =>
      match recv_msg_step st r with
      | Raised e => ([], inl e)
      | Continue st' out =>
          let rest := recv_msg_from st' rs' in
          ((out ++ rest.1)%list, rest.2)
      end
  end.

(** [too_slow_count = last_hb = 0], [msg] not bound yet. *)
Definition recv_msg (rs : list recv_result) : list yielded * (pyexn + reader) :=
  recv_msg_from (mkReader 0 None) rs.

(** [activate_writer] on the module global [_local_buffer_writers]:
    entering the context yields [writer_already_exists], and marks the key
    when it was not marked; leaving it, in whatever way, runs the
    [finally] clause, which pops the key. *)
Definition activate_writer_enter (key : string) (writers : gmap string bool)
  : bool * gmap string bool :=
  let writer_already_exists := default false (writers !! key) in
  (writer_already_exists,
   if negb writer_already_exists then <[key := true]> writers else writers).

Definition activate_writer_exit (key : string) (writers : gmap string bool)
  : gmap string bool :=
  delete key writers.

End Kraken.

(** ** [piker/brokers/ib.py] *)

Module Ib.

(** What the adapter raises: the exceptions of [Py], and two more. *)
Inductive raised : Type :=
| PyExn (e : pyexn)
| RuntimeError (message : string)
| ZeroDivisionError.

(** *** [activate_writer] *)

(** Entering the context: the assertion fails when the key is marked, and
    the [finally] clause pops the key on the way out; otherwise the key is
    marked and the body runs. *)
Definition activate_writer_enter (key : string) (writers : gmap string bool)
  : option pyexn * gmap string bool :=
  if default false (writers !! key)
  then (Some AssertionError, delete key writers)
  else (None, <[key := true]> writers).

(** Leaving the body, in whatever way: the [finally] clause. *)
Definition activate_writer_exit (key : string) (writers : gmap string bool)
  : gmap string bool :=
  delete key writers.

(** *** [Client.find_contract] and [Client.submit_limit] *)

(** [str.upper] on ASCII letters. *)
Definition upper_ascii (c : Ascii.ascii) : Ascii.ascii :=
  let n := Ascii.nat_of_ascii c in
  if (97 <=? n)%nat && (n <=? 122)%nat then Ascii.ascii_of_nat (n - 32) else c.

Fixpoint upper (s : string) : string :=
  match s with
  | EmptyString => EmptyString
  | String c s' => String (upper_ascii c) (upper s')
  end.

(** [s.rsplit('.', maxsplit=1)] when it has two parts; [None] when [s]
    has no dot and the list has one element. *)
Fixpoint rsplit_dot (s : string) : option (string * string) :=
  match s with
  | EmptyString => None
  | String c s' =>
      match rsplit_dot s' with
      | Some (sym, exch) => Some (String c sym, exch)
      | None => if Ascii.eqb c "."%char then Some (EmptyString, s') else None
      end
  end.

(** [s.split('/')] *)
Fixpoint split_slash (s : string) : list string :=
  match s with
  | EmptyString => [EmptyString]
  | String c s' =>
      if Ascii.eqb c "/"%char then EmptyString :: split_slash s'
      else
        match split_slash s' with
        | part :: parts => String c part :: parts
        | [] => [String c EmptyString]
        end
  end.

(** [_adhoc_cmdty_data_map], the [conId] of each symbol. *)
Definition _adhoc_cmdty_data_map : list (string * Z) :=
  [("XAUUSD", 69067924%Z)].

Fixpoint assoc (k : string) (l : list (string * Z)) : option Z :=
  match l with
  | [] => None
  | (k', v) :: l' => if String.eqb k' k then Some v else assoc k l'
  end.

(** The [Order] that [submit_limit] hands to [placeOrder]; the fields that
    are the same for every order are left out. *)
Record ib_order : Type := mkIbOrder {
  orderId : Z;
  io_action : string;
  lmtPrice : pyfloat;
  totalQuantity : Z
}.

(** The contracts of [ib_insync] and what the adapter uses of them: the
    constructors, the [conId] attribute, [qualifyContractsAsync] on one
    contract and the order id of the trade that [placeOrder] returns. *)
Class IbInsync : Type := {
  Contract : Type;
  ContFuture : string → string → Contract;
  Future : Z → Contract;
  Forex : string → string → Contract;
  Commodity : Z → Contract;
  Stock : string → string → string → string → Contract;
  conId : Contract → Z;
  qualifyContractsAsync : Contract → list Contract;
  placeOrder : Contract → ib_order → Z
}.

Section Client.

Context `{IbInsync}.

(** [get_cont_fute]: the front contract of a continuous future. *)
Definition get_cont_fute (symbol exchange : string) : raised + Contract :=
  match qualifyContractsAsync (ContFuture symbol exchange) with
  | frontcon :: _ => inr (Future (conId frontcon))
  | [] => inl (PyExn IndexError)
  end.

(** [x in ('GLOBEX', 'NYMEX', 'CME', 'CMECRYPTO')] and the like. *)
Definition in_tuple (x : string) (t : list string) : bool :=
  existsb (String.eqb x) t.

(** [find_contract], with the default [currency='USD'], on the cache
    [self._contracts].  The contract to qualify and the key of the cache:
    the forex branch assigns to [symbol]. *)
Definition unqualified (symbol : string)
  : raised + (Contract * string) :=
  match rsplit_dot (upper symbol) with
  | None => inl (PyExn (UnboundLocalError "exch"))
  | Some (sym, exch) =>
      if in_tuple exch ["GLOBEX"; "NYMEX"; "CME"; "CMECRYPTO"] then
        match get_cont_fute sym exch with
        | inl e => inl e
        | inr con => inr (con, symbol)
        end
      else if Kraken.contains exch "FOREX" then
        match split_slash sym with
        | [symbol'; currency] => inr (Forex symbol' currency, symbol')
        | _ => inl (PyExn ValueError)
        end
      else if String.eqb exch "CMDTY" then
        match assoc sym _adhoc_cmdty_data_map with
        | Some id => inr (Commodity id, symbol)
        | None => inl (PyExn (KeyError sym))
        end
      else
        if in_tuple exch ["PURE"; "TSE"]
        then inr (Stock sym "SMART" exch "CAD", symbol)
        else inr (Stock sym exch "" "USD", symbol)
  end.

Definition find_contract (symbol : string) (_contracts : gmap string Contract)
  : (raised + Contract) * gmap string Contract :=
  match unqualified symbol with
  | inl e => (inl e, _contracts)
  | inr (con, key) =>
      match qualifyContractsAsync con with
      | contract :: _ => (inr contract, <[key := contract]> _contracts)
      | [] => (inl (PyExn ValueError), _contracts)
      end
  end.

(** [submit_limit]: the order id of the trade, or the error for a symbol
    that no feed request has cached.  The message of the error is no
    f-string. *)
Definition submit_limit (symbol : string) (price : pyfloat)
    (action : string) (size : Z) (brid : option Z)
    (_contracts : gmap string Contract) : raised + Z :=
  match _contracts !! symbol with
  | None => inl (RuntimeError "Can not order {symbol}, no live feed?")
  | Some contract =>
      inr (placeOrder contract
             (mkIbOrder (default 0%Z brid) (upper action) price size))
  end.

End Client.

(** *** [stream_trades] *)

(** A position of the account.  [con_multiplier] is [None] for a value
    that is false in [con.multiplier or 1.0], and the number [float]
    makes of it otherwise. *)
Record Position : Type := mkPosition {
  pos_account : string;
  con_symbol : string;
  con_currency : string;
  pos_position : Q;
  avgCost : Q;
  con_multiplier : option Q
}.

Definition pack_position (pos : Position) : raised + Ems.BrokerdPosition :=
  let multiplier := default 1%Q (con_multiplier pos) in
  if Qeq_bool multiplier 0 then inl ZeroDivisionError
  else
    inr (Ems.mkBrokerdPosition "ib" (pos_account pos) (con_symbol pos)
           (Num (pos_position pos)) (Num (avgCost pos / multiplier))
           (con_currency pos)).

(** The items [recv_trade_updates] and [inline_errors] send: the name of
    each is the one of its constructor. *)
Inductive event : Type :=
| EvStatus (orderId_ : Z) (status : string) (filled : Q) (whyHeld : string)
    (remaining : Q)
| EvFill (orderId_ : Z) (execId : string) (exec_time fill_time : Q)
    (side : string) (shares price : Q)
| EvError (reqId : Z) (errorString : string)
| EvPosition (pos : Position).

Definition event_name (ev : event) : string :=
  match ev with
  | EvStatus _ _ _ _ _ => "status"
  | EvFill _ _ _ _ _ _ _ => "fill"
  | EvError _ _ => "error"
  | EvPosition _ => "position"
  end.

(** The dicts the generator yields; [external] is whether the dict has the
    key, which is [True] then. *)
Inductive trade_msg : Type :=
| MsgStatus (reqid : pyid) (status : string) (filled : Q) (reason : string)
    (remaining : Q) (external : bool)
| MsgFill (reqid : pyid) (execid : string) (broker_time time : Q)
    (time_ns : Z) (action : string) (size price : Q) (external : bool)
| MsgPosition (p : Ems.BrokerdPosition).

Definition msg_keys (m : trade_msg) : list string :=
  match m with
  | MsgStatus _ _ _ _ _ external =>
      (["reqid"; "status"; "filled"; "reason"; "remaining"]
         ++ if external then ["external"] else [])%list
  | MsgFill _ _ _ _ _ _ _ _ external =>
      (["reqid"; "execid"; "broker_time"; "time"; "time_ns"; "action";
        "size"; "price"] ++ if external then ["external"] else [])%list
  | MsgPosition _ =>
      ["broker"; "account"; "symbol"; "currency"; "size"; "avg_price"]
  end.

(** [msg.get('reqid', 0)]; the dicts built from an event have an integer
    there. *)
Definition msg_reqid (m : trade_msg) : pyid :=
  match m with
  | MsgStatus reqid _ _ _ _ _ => reqid
  | MsgFill reqid _ _ _ _ _ _ _ _ => reqid
  | MsgPosition _ => IdInt 0
  end.

(** [action_map[execu.side]] *)
Definition action_map (side : string) : raised + string :=
  if String.eqb side "BOT" then inr "buy"
  else if String.eqb side "SLD" then inr "sell"
  else inl (PyExn (KeyError side)).

(** The dict of an event that is forwarded. *)
Definition event_msg (now_ns : Z) (ev : event) : raised + option trade_msg :=
  match ev with
  | EvStatus orderId_ status filled whyHeld remaining =>
      inr (Some (MsgStatus (IdInt orderId_) status filled whyHeld remaining
                   false))
  | EvFill orderId_ execId exec_time fill_time side shares price =>
      match action_map side with
      | inl e => inl e
      | inr action =>
          inr (Some (MsgFill (IdInt orderId_) execId exec_time fill_time
                       now_ns action shares price false))
      end
  | EvError _ _ => inr None
  | EvPosition pos =>
      match pack_position pos with
      | inl e => inl e
      | inr p => inr (Some (MsgPosition p))
      end
  end.

(** [msg['reqid'] = 'tws-' + str(-1 * msg['reqid'])] and
    [msg['external'] = True] *)
Definition mark_external (m : trade_msg) (reqid : Z) : trade_msg :=
  let label := IdStr ("tws-" ++ pretty (-1 * reqid)%Z) in
  match m with
  | MsgStatus _ status filled reason remaining _ =>
      MsgStatus label status filled reason remaining true
  | MsgFill _ execid broker_time time time_ns action size price _ =>
      MsgFill label execid broker_time time time_ns action size price true
  | MsgPosition p => MsgPosition p
  end.

Record yielded : Type := mkYielded {
  topic : string;
  name : string;
  payload : trade_msg
}.

(** What one pass of the loop over the stream yields. *)
Definition on_event (now_ns : Z) (ev : event) : raised + list yielded :=
  match event_msg now_ns ev with
  | inl e => inl e
  | inr None => inr []
  | inr (Some m) =>
      match msg_reqid m with
      | IdInt reqid =>
          if (reqid <? -1)%Z
          then inr [mkYielded "remote_trades" (event_name ev)
                      (mark_external m reqid)]
          else inr [mkYielded "local_trades" (event_name ev) m]
      | _ => inl (PyExn TypeError)
      end
  end.

(** The loop over the stream; the clock is read once for each fill. *)
Fixpoint on_events (clock : nat → Z) (reads : nat) (events : list event)
  : list yielded * option raised :=
  match events with
  | [] => ([], None)
  | ev :: events' =>
      match on_event (clock reads) ev with
      | inl e => ([], Some e)
      | inr out =>
          let reads' :=
            match ev with
            | EvFill _ _ _ _ _ _ _ => S reads
            | _ => reads
            end in
          let rest := on_events clock reads' events' in
          ((out ++ rest.1)%list, rest.2)
      end
  end.

(** The positions, delivered before anything else. *)
Fixpoint deliver_positions (positions : list Position)
  : list yielded * option raised :=
  match positions with
  | [] => ([], None)
  | pos :: positions' =>
      match pack_position pos with
      | inl e => ([], Some e)
      | inr p =>
          let rest := deliver_positions positions' in
          (mkYielded "local_trades" "position" (MsgPosition p) :: rest.1,
           rest.2)
      end
  end.

Definition stream_trades (clock : nat → Z) (positions : list Position)
    (events : list event) : list yielded * option raised :=
  match deliver_positions positions with
  | (out, Some e) => (out, Some e)
  | (out, None) =>
      let rest := on_events clock 0 events in
      ((out ++ rest.1)%list, rest.2)
  end.

End Ib.

(** * Vocabulary of the properties *)

Import Ems.

(** The world an outcome ends in, returned or raised. *)
Definition outcome_world {A : Type} (o : outcome A) : World :=
  match o with
  | Ret _ w => w
  | Raise _ w => w
  end.

(** When a submission takes the dark path of the command loop. *)
Definition takes_dark_path (cmd : Order) : Prop :=
  str_in (o_action cmd) ["alert"; "buy"; "sell"] = true ∧
  (String.eqb (o_exec_mode cmd) "live"
   && str_in (o_action cmd) ["buy"; "sell"]) = false ∧
  (str_in (o_exec_mode cmd) ["dark"; "paper"]
   || String.eqb (o_action cmd) "alert") = true.

(** The condition under which the scan loop does not skip an entry on a
    tick. *)
Definition fires (e : entry) (t : tick) : bool :=
  match e_pred e with
  | None => false
  | Some pred =>
      str_in (tk_type t) (e_tf e) && call_check pred (tk_price t)
  end.

(** The oid a message to the client or to the broker is about. *)
Definition client_oid (m : client_msg) : option string :=
  match m with
  | CStatus s => Some (st_oid s)
  | CPosition _ => None
  end.

(** The [Status] the scan loop sends for a fired entry, read at clock
    value [now]. *)
Definition trigger_status (broker : string) (t : tick) (oid : string)
    (e : entry) (now : Z) : client_msg :=
  CStatus
    (mkStatus oid
       (Some (if String.eqb (o_action (e_cmd e)) "alert"
              then "alert_triggered" else "dark_triggered"))
       now (Some (o_symbol (e_cmd e))) (Some (tk_price t)) IdNone
       (Some broker) RelayNothing (Some (e_cmd e))).

(** The [BrokerdOrder] the scan loop sends for a fired buy or sell entry. *)
Definition trigger_order (sym : string) (t : tick) (oid : string)
    (e : entry) (now : Z) : flow_msg :=
  FOrder
    (mkBrokerdOrder (o_action (e_cmd e)) oid now IdNone sym
       (fadd (tk_price t) (e_abs_diff_away e)) (o_size (e_cmd e))).

(** What the body of the scan loop does to the world when the entry
    [(oid, e)] fires on tick [t]. *)
Definition fired_step (broker sym : string) (l : addr) (t : tick)
    (oid : string) (e : entry) (w w' : World) : Prop :=
  orders (book w') = orders (book w) ∧
  lasts (book w') = lasts (book w) ∧
  ems2brokerd_ids (book w') = ems2brokerd_ids (book w) ∧
  dicts (book w')
    = <[l := dict_del (dict_at (book w) l) oid]> (dicts (book w)) ∧
  (∃ now : Z,
     to_client w' = (to_client w ++ [trigger_status broker t oid e now])%list) ∧
  if String.eqb (o_action (e_cmd e)) "alert" then
    to_brokerd w' = to_brokerd w ∧
    ems_entries (book w') = ems_entries (book w)
  else
    ∃ now : Z,
      to_brokerd w' = (to_brokerd w ++ [trigger_order sym t oid e now])%list ∧
      ems_entries (book w')
        = <[oid := trigger_order sym t oid e now]> (ems_entries (book w)).

(** The scan of a snapshot as a chain of steps: from the local [symbol]
    and the world before the scan to those after it. *)
Inductive scanned (broker sym : string) (l : addr) (t : tick)
  : execs → string → World → string → World → Prop :=
| scanned_nil (s : string) (w : World) :
    scanned broker sym l t [] s w s w
| scanned_skip (oid : string) (e : entry) (items : execs) (s : string)
    (w : World) (s' : string) (w' : World) :
    fires e t = false →
    scanned broker sym l t items s w s' w' →
    scanned broker sym l t ((oid, e) :: items) s w s' w'
| scanned_fire (oid : string) (e : entry) (items : execs) (s : string)
    (w w1 : World) (s' : string) (w' : World) :
    fires e t = true →
    fired_step broker sym l t oid e w w1 →
    scanned broker sym l t items (o_symbol (e_cmd e)) w1 s' w' →
    scanned broker sym l t ((oid, e) :: items) s w s' w'.

(** The items of a snapshot that fire on a tick, and those of them that
    are orders to submit. *)
Definition fired_items (t : tick) (items : execs) : execs :=
  List.filter (λ kv, fires kv.2 t) items.

Definition is_alert (e : entry) : bool :=
  String.eqb (o_action (e_cmd e)) "alert".

Definition submitted_items (t : tick) (items : execs) : execs :=
  List.filter (λ kv, fires kv.2 t && negb (is_alert kv.2)) items.

(** The world after the tick loop has put the price of a tick into
    [lasts]. *)
Definition tick_seen (broker symbol : string) (t : tick) (w : World) : World :=
  mkWorld (set_last (broker, symbol) (tk_price t) (book w)) (to_brokerd w)
    (to_client w) (clock_reads w).


(** An oid is registered when some dict object of the book has it. *)
Definition registered (b : DarkBook) (oid : string) : Prop :=
  ∃ (l : addr) (d : execs), dicts b !! l = Some d ∧ oid ∈ dict_keys d.

(** From [w] to [w'] nothing was sent about [oid], and [oid] is not
    registered in [w']. *)
Definition quiet (oid : string) (w w' : World) : Prop :=
  ¬ registered (book w') oid ∧
  ∃ (nb : list flow_msg) (nc : list client_msg),
    to_brokerd w' = (to_brokerd w ++ nb)%list ∧
    to_client w' = (to_client w ++ nc)%list ∧
    Forall (λ m, flow_oid m ≠ oid) nb ∧
    Forall (λ m, client_oid m ≠ Some oid) nc.

(** The oid an event of the trades stream is resolved to, with the entry
    of the live flow when the oid came with the event or from the id map. *)
Definition event_oid (b : DarkBook) (m : brokerd_msg) : option string :=
  match bm_oid m with
  | Some v => v
  | None => bidict_inverse_get (ems2brokerd_ids b) (bm_reqid m)
  end.

(** The oid the translator puts into the [Status] of an event that is
    not an ack: the [oid] of the live flow entry of the event's oid, or the
    oid of the paper engine when the event's oid is unknown. *)
Definition resolved_oid (b : DarkBook) (m : brokerd_msg) : option string :=
  match event_oid b m with
  | Some o => flow_oid <$> ems_entries b !! o
  | None =>
      match bm_broker_details m with
      | Some (Some paper_oid) => Some paper_oid
      | _ => None
      end
  end.


(** How many calls of [recv()] ended in a timeout. *)
Definition timed_out (r : Kraken.recv_result) : bool :=
  match r with
  | Kraken.TimedOut => true
  | Kraken.Received _ => false
  end.

Definition timeouts (rs : list Kraken.recv_result) : nat :=
  length (List.filter timed_out rs).

(** Whether three calls of [recv()] in a row ended in a timeout. *)
Fixpoint three_timeouts_in_a_row (rs : list Kraken.recv_result) : bool :=
  match rs with
  | [] => false
  | r :: rs' =>
      match r, rs' with
      | Kraken.TimedOut, Kraken.TimedOut :: Kraken.TimedOut :: _ => true
      | _, _ => three_timeouts_in_a_row rs'
      end
  end.

(** ** Scenarios *)

Module Scenario.

Definition clk (n : nat) : Z := Z.of_nat n.

Definition feed_aapl : gmap string pyfloat := {[ "aapl" := Num (1 # 100) ]}.

(** The book of broker [ib] with [lasts[('ib', 'aapl')]] seeded. *)
Definition book_last (last : pyfloat) : DarkBook :=
  mkDarkBook "ib" ∅ ∅ {[ ("ib", "aapl") := last ]} ∅ [].

Definition dark_buy_100 : Order :=
  mkOrder "o4" "aapl" ["ib"] "buy" (Num 100) (Num 10) "dark".

Definition dark_buy_nan : Order :=
  mkOrder "o5" "aapl" ["ib"] "buy" NaN (Num 10) "dark".

Definition live_sell : Order :=
  mkOrder "o2" "aapl" ["ib"] "sell" (Num 101) (Num 10) "live".

Definition cancel_o2 : Order :=
  mkOrder "o2" "aapl" ["ib"] "cancel" (Num 0) (Num 0) "live".

Definition no_position : BrokerdPosition :=
  mkBrokerdPosition "ib" "" "" (Num 0) (Num 0) "".

(** an event of the trades stream about order [o2] and request 7 *)
Definition event_o2 (name status : string) (remaining : pyfloat)
  : brokerd_msg :=
  mkBrokerdMsg name (IdInt 7) (Some (Some "o2")) (Some None) false 0
    status (Num 10) remaining "" "" (Num 0) (Num 10) (Num 101) "sell"
    no_position.

(** The book after order [o2] went live and was acked with request 7. *)
Definition acked_book : DarkBook :=
  mkDarkBook "ib" ∅ ∅ {[ ("ib", "aapl") := Num 100 ]}
    {[ "o2" := FAck (mkBrokerdOrderAck (IdInt 7) "o2" 0) ]}
    [("o2", IdInt 7)].

(** Scenario of a cancel round trip: [o2] goes live, is acked, is
    cancelled by the client, and the broker reports ['cancelled']. *)
Definition cancel_round_trip : M unit :=
  msg ← process_client_order_cmd clk "aapl" feed_aapl live_sell None;
  translate_and_relay_brokerd_event clk (event_o2 "ack" "" (Num 0));;
  process_client_order_cmd clk "aapl" feed_aapl cancel_o2 msg;;
  translate_and_relay_brokerd_event clk
    (event_o2 "status" "cancelled" (Num 10)).

(** Scenario of an execution: [o2] goes live, is acked, and the broker
    reports ['filled'] with nothing remaining. *)
Definition execution : M unit :=
  process_client_order_cmd clk "aapl" feed_aapl live_sell None;;
  translate_and_relay_brokerd_event clk (event_o2 "ack" "" (Num 0));;
  translate_and_relay_brokerd_event clk (event_o2 "status" "filled" (Num 0)).

(** Scenario of a cancel before the ack: [o2] goes live and the client
    cancels it; only then the ack arrives. *)
Definition live_then_cancel : M (option flow_msg) :=
  msg ← process_client_order_cmd clk "aapl" feed_aapl live_sell None;
  process_client_order_cmd clk "aapl" feed_aapl cancel_o2 msg.

Definition late_ack : M unit :=
  translate_and_relay_brokerd_event clk (event_o2 "ack" "" (Num 0)).

(** A backend whose n-th start of [stream_quotes] delivers symbol info
    [n] and first quote [n], and bars of 60 seconds. *)
Definition stream_quotes (symbol : string) (n : nat) : nat * nat := (n, n).

Definition delay_s (symbol : string) : Z := 60.

(** Two tasks attach to ['aapl'] on a new bus of [ib], in the order of a
    schedule. *)
Definition two_attach (schedule : list nat) : Feed.FeedsBus * list Feed.task :=
  Feed.run stream_quotes delay_s "aapl" schedule
    (Feed.new_bus "ib", [Feed.Called; Feed.Called]).

Definition dark_buy_145 : Order :=
  mkOrder "o1" "aapl" ["ib"] "buy" (Num 145) (Num 10) "dark".

(** The book with [lasts] at 150 and the dark buy at 145 registered. *)
Definition dark_book : DarkBook :=
  mkDarkBook "ib" {[ "aapl" := 0%nat ]}
    {[ 0%nat := [("o1", dark_entry dark_buy_145 (Some (check_lt (Num 145)))
                          (Num (1 # 100)))] ]}
    {[ ("ib", "aapl") := Num 150 ]} ∅ [].

Definition ask_144_9 : tick := mkTick "ask" (Num (1449 # 10)).

Definition ask_144_8 : tick := mkTick "ask" (Num (1448 # 10)).


Definition heartbeat : Kraken.ws_msg := Kraken.WsDict (Some "heartbeat") None.

Definition sell_140 : Order :=
  mkOrder "s1" "aapl" ["ib"] "sell" (Num 140) (Num 5) "dark".

Definition alert_145 : Order :=
  mkOrder "a1" "aapl" ["ib"] "alert" (Num 145) (Num 0) "dark".

(** The book with a dark buy at 145, a dark sell at 140 and an alert at
    145 registered in that order, [lasts] at 150. *)
Definition busy_book : DarkBook :=
  mkDarkBook "ib" {[ "aapl" := 0%nat ]}
    {[ 0%nat :=
         [("o1", dark_entry dark_buy_145 (Some (check_lt (Num 145)))
                   (Num (1 # 100)));
          ("s1", dark_entry sell_140 (Some (check_lt (Num 140)))
                   (Num (1 # 100)));
          ("a1", dark_entry alert_145 (Some (check_lt (Num 145)))
                   (Num (1 # 100)))] ]}
    {[ ("ib", "aapl") := Num 150 ]} ∅ [].

Definition last_144_9 : tick := mkTick "last" (Num (1449 # 10)).

(** The book after order [o2] went live and the client's cancel was
    buffered in its place, no ack yet. *)
Definition buffered_cancel_book : DarkBook :=
  mkDarkBook "ib" ∅ ∅ {[ ("ib", "aapl") := Num 100 ]}
    {[ "o2" := FCancel (mkBrokerdCancel "o2" IdNone 5) ]} [].

(** The book after order [o2] went live, no ack yet. *)
Definition live_book : DarkBook :=
  mkDarkBook "ib" ∅ ∅ {[ ("ib", "aapl") := Num 100 ]}
    {[ "o2" := FOrder (mkBrokerdOrder "sell" "o2" 0 IdNone "aapl" (Num 101)
                         (Num 10)) ]} [].

(** an event of the trades stream that carries request 7 and no oid *)
Definition event_reqid_7 (name status : string) (details : option (option string))
  : brokerd_msg :=
  mkBrokerdMsg name (IdInt 7) None details false 0
    status (Num 10) (Num 0) "" "x1" (Num 0) (Num 10) (Num 101) "sell"
    no_position.

Definition cancel_o1 : Order :=
  mkOrder "o1" "aapl" ["ib"] "cancel" (Num 0) (Num 0) "dark".

Definition no_broker_buy : Order :=
  mkOrder "o6" "aapl" [] "buy" (Num 100) (Num 10) "dark".

Definition dark_buy_msft : Order :=
  mkOrder "o7" "msft" ["ib"] "buy" (Num 100) (Num 10) "dark".

Definition hold_o8 : Order :=
  mkOrder "o8" "aapl" ["ib"] "hold" (Num 100) (Num 10) "dark".

(** The dark sell at 140 submitted again, now at 141. *)
Definition sell_141 : Order :=
  mkOrder "s1" "aapl" ["ib"] "sell" (Num 141) (Num 5) "dark".

Definition spread_msg : Kraken.ws_msg :=
  Kraken.WsList
    [Kraken.INum 341; Kraken.IArr [101; 102; 1600000000; 1; 2]%Q;
     Kraken.IStr "spread"; Kraken.IStr "XBT/USD"].

(** Contracts as far as the adapter looks at them, each one qualified as
    it is, and orders that get the id asked for, or 1. *)
Inductive contract : Type :=
| ContFuture (symbol exchange : string)
| Future (conId : Z)
| Forex (symbol currency : string)
| Commodity (conId : Z)
| Stock (symbol exchange primaryExchange currency : string).

Definition conId (c : contract) : Z :=
  match c with
  | Future id | Commodity id => id
  | _ => 0
  end.

Definition qualifyContractsAsync (c : contract) : list contract := [c].

Definition placeOrder (c : contract) (o : Ib.ib_order) : Z :=
  if (Ib.orderId o =? 0)%Z then 1 else Ib.orderId o.

Definition ib_insync : Ib.IbInsync :=
  Ib.Build_IbInsync contract ContFuture Future Forex Commodity Stock conId
    qualifyContractsAsync placeOrder.

Definition tws_fill : Ib.event :=
  Ib.EvFill (-7) "e1" 1600000000 1600000001 "BOT" 10 145.

End Scenario.

(** The items of a snapshot that do not fire on a tick. *)
Definition survivors (t : tick) (items : execs) : execs :=
  List.filter (λ kv, negb (fires kv.2 t)) items.

(** The keys of every dict object of the book are distinct. *)
Definition keys_distinct (b : DarkBook) : Prop :=
  ∀ (l : addr) (d : execs), dicts b !! l = Some d → NoDup (dict_keys d).

(** A reqid that [_ems2brokerd_ids] can bind to [oid]: it is not bound, or
    bound to [oid] already. *)
Definition reqid_free (b : bidict) (oid : string) (reqid : pyid) : Prop :=
  bidict_inverse_get b reqid = None ∨ bidict_inverse_get b reqid = Some oid.

(** The [reqid] the command loop computes for a command:
    [_ems2brokerd_ids.inverse.get(oid)], the oid bound to a reqid that is
    the string [oid], or [None]. *)
Definition cmd_reqid (b : DarkBook) (oid : string) : pyid :=
  match bidict_inverse_get (ems2brokerd_ids b) (IdStr oid) with
  | Some r => IdStr r
  | None => IdNone
  end.

(** The dict of a symbol, empty when [orders] has none for it. *)
Definition dict_of (b : DarkBook) (sym : string) : execs :=
  match orders b !! sym with
  | Some l => dict_at b l
  | None => []
  end.

(** Every dict object of [b'] is what is left of the dict object of [b]
    at the same address after taking items out. *)
Definition dicts_shrink (b b' : DarkBook) : Prop :=
  ∀ (l : addr) (d' : execs),
    dicts b' !! l = Some d' → ∃ d : execs, dicts b !! l = Some d ∧ sublist d' d.

(** Whether a task is inside the [async with bus.task_lock] block. *)
Definition in_lock_block (t : Feed.task) : bool :=
  match t with
  | Feed.Locked _ | Feed.Allocating => true
  | _ => false
  end.

Definition is_waiting (t : Feed.task) : bool :=
  match t with
  | Feed.Waiting _ => true
  | _ => false
  end.

(** The lock and the tasks agree: the holder is the one task inside the
    block, the queue holds the waiting tasks, each once, and is empty
    while the lock is free. *)
Definition lock_inv (st : Feed.FeedsBus * list Feed.task) : Prop :=
  (∀ i t, st.2 !! i = Some t → in_lock_block t = true →
     Feed.lock_holder st.1 = Some i) ∧
  (∀ i, Feed.lock_holder st.1 = Some i →
     ∃ t, st.2 !! i = Some t ∧ in_lock_block t = true) ∧
  (∀ i, i ∈ Feed.lock_waiters st.1 ↔
     ∃ t, st.2 !! i = Some t ∧ is_waiting t = true) ∧
  NoDup (Feed.lock_waiters st.1) ∧
  (Feed.lock_holder st.1 = None → Feed.lock_waiters st.1 = []).

(** The schedule on which task [0] runs to the end of [attach_feed_bus],
    then task [1], and so on up to task [n - 1]. *)
Definition one_after_the_other (n : nat) : list nat :=
  flat_map (λ i, [i; i; i; i]) (seq 0 n).

(** A string without a dot. *)
Fixpoint no_dot (s : string) : bool :=
  match s with
  | EmptyString => true
  | String c s' => negb (Ascii.eqb c "."%char) && no_dot s'
  end.

(** What holds of every dict [stream_trades] yields. *)
Definition well_labelled (y : Ib.yielded) : Prop :=
  (Ib.name y ≠ "error") ∧
  ("oid" ∉ Ib.msg_keys (Ib.payload y)) ∧
  ("broker_details" ∉ Ib.msg_keys (Ib.payload y)) ∧
  ((Ib.topic y = "local_trades" ∧
    ("external" ∉ Ib.msg_keys (Ib.payload y)) ∧
    ∃ z, Ib.msg_reqid (Ib.payload y) = IdInt z ∧ (-1 ≤ z)%Z) ∨
   (Ib.topic y = "remote_trades" ∧
    "external" ∈ Ib.msg_keys (Ib.payload y) ∧
    (Ib.name y ≠ "position") ∧
    ∃ z, (z < -1)%Z ∧
      Ib.msg_reqid (Ib.payload y) = IdStr ("tws-" ++ pretty (-1 * z)%Z))).

(** Whether an event of the stream is an error event. *)
Definition is_error (ev : Ib.event) : bool :=
  match ev with
  | Ib.EvError _ _ => true
  | _ => false
  end.

(** Unfolds the operations of the monad down to the worlds. *)
Ltac run_monad :=
  repeat (progress (unfold mbind, M_bind, mret, M_ret, raise, time_ns,
                      execs_pop, get_book, modify_book, send_client,
                      send_brokerd; simpl)).

(** Refutes that a string is among the keys of a dict that is given by
    its keys. *)
Ltac not_a_key :=
  let H := fresh in
  intros H; repeat (apply elem_of_cons in H as [H|H]; [discriminate H|]);
  by apply elem_of_nil in H.

(** * Properties *)

(** ** Comparisons and dicts *)




Lemma dict_get_set_eq (d : execs) (k : string) (v : entry) :
  dict_get (dict_set d k v) k = Some v.
Proof.
  induction d as [|[k' v'] d IH]; simpl.
  - by rewrite String.eqb_refl.
  - destruct (String.eqb k' k) eqn:E; simpl.
    + by rewrite String.eqb_refl.
    + by rewrite E.
Qed.

Lemma dict_get_set_ne (d : execs) (k k' : string) (v : entry) :
  k ≠ k' → dict_get (dict_set d k v) k' = dict_get d k'.
Proof.
  intros Hne. induction d as [|[k0 v0] d IH]; simpl.
  - destruct (String.eqb_spec k k'); [done|done].
  - destruct (String.eqb_spec k0 k) as [->|Hk]; simpl.
    + destruct (String.eqb_spec k k'); [done|done].
    + by rewrite IH.
Qed.

Lemma dict_get_Some_elem (d : execs) (k : string) (v : entry) :
  dict_get d k = Some v → (k, v) ∈ d.
Proof.
  induction d as [|[k' v'] d IH]; simpl; [done|].
  destruct (String.eqb_spec k' k) as [->|Hk].
  - intros [= ->]. left.
  - intros H. right. by apply IH.
Qed.

Lemma dict_get_None (d : execs) (k : string) :
  dict_get d k = None ↔ k ∉ dict_keys d.
Proof.
  unfold dict_keys. induction d as [|[k' v'] d IH]; simpl.
  - split; [intros _; apply not_elem_of_nil|done].
  - rewrite not_elem_of_cons. destruct (String.eqb_spec k' k) as [->|Hk].
    + split; [done|]. intros [? _]. done.
    + rewrite IH. split; [intros ?; split; [congruence|done]|by intros [_ ?]].
Qed.

Lemma dict_get_NoDup (d : execs) (k : string) (v : entry) :
  NoDup (dict_keys d) → (k, v) ∈ d → dict_get d k = Some v.
Proof.
  unfold dict_keys. induction d as [|[k' v'] d IH]; simpl.
  - intros _ H. by apply elem_of_nil in H.
  - rewrite NoDup_cons. intros [Hk' Hd] H.
    apply elem_of_cons in H as [[= -> ->]|H].
    + by rewrite String.eqb_refl.
    + destruct (String.eqb_spec k' k) as [->|Hk]; [|by apply IH].
      exfalso. apply Hk'. apply list_elem_of_fmap. by exists (k, v).
Qed.

Lemma dict_del_keys (d : execs) (k k' : string) :
  k' ∈ dict_keys (dict_del d k) → k' ∈ dict_keys d.
Proof.
  unfold dict_keys. induction d as [|[k0 v0] d IH]; simpl; [done|].
  destruct (String.eqb_spec k0 k) as [->|Hk]; simpl.
  - intros H. by right.
  - rewrite !elem_of_cons. intros [->|H]; [by left|right; by apply IH].
Qed.

Lemma dict_del_NoDup (d : execs) (k : string) :
  NoDup (dict_keys d) → NoDup (dict_keys (dict_del d k)).
Proof.
  unfold dict_keys. induction d as [|[k0 v0] d IH]; simpl; [done|].
  rewrite NoDup_cons. intros [Hk0 Hd].
  destruct (String.eqb_spec k0 k) as [->|Hk]; simpl; [done|].
  apply NoDup_cons. split; [|by apply IH].
  intros H. apply Hk0. by apply (dict_del_keys d k).
Qed.

Lemma dict_del_not_in (d : execs) (k : string) :
  NoDup (dict_keys d) → k ∉ dict_keys (dict_del d k).
Proof.
  unfold dict_keys. induction d as [|[k0 v0] d IH]; simpl.
  - intros _. apply not_elem_of_nil.
  - rewrite NoDup_cons. intros [Hk0 Hd].
    destruct (String.eqb_spec k0 k) as [->|Hk]; simpl; [done|].
    rewrite not_elem_of_cons. split; [congruence|by apply IH].
Qed.

Lemma dict_del_other (d : execs) (k k' : string) (v : entry) :
  k ≠ k' → (k', v) ∈ d → (k', v) ∈ dict_del d k.
Proof.
  intros Hne. induction d as [|[k0 v0] d IH]; simpl; [done|].
  rewrite elem_of_cons. intros [[= <- <-]|H].
  - destruct (String.eqb_spec k' k) as [->|Hk]; [done|left].
  - destruct (String.eqb_spec k0 k) as [->|Hk]; [done|right; by apply IH].
Qed.

(** ** The command loop *)

(** The three actions of a submission are not ['cancel']. *)
Lemma submit_not_cancel (action : string) :
  str_in action ["alert"; "buy"; "sell"] = true →
  String.eqb action "cancel" = false.
Proof.
  unfold str_in. simpl. rewrite !orb_true_iff.
  intros [H|[H|[H|H]]]; try done;
    apply String.eqb_eq in H; by subst.
Qed.

(** What a submission on the dark path does: whatever the predicate, the
    tuple is stored under the oid in the dict of the symbol and the client
    is told [alert_submitted] or [dark_submitted]; nothing goes to the
    broker. *)
Lemma dark_submit_registers (clock : nat → Z) (symbol : string)
    (feed : gmap string pyfloat) (cmd : Order) (msg : option flow_msg)
    (w : World) (broker : string) (rest : list string)
    (last min_tick : pyfloat) :
  takes_dark_path cmd →
  o_brokers cmd = broker :: rest →
  lasts (book w) !! (broker, o_symbol cmd) = Some last →
  feed !! o_symbol cmd = Some min_tick →
  ∃ (w' : World) (l : addr),
    process_client_order_cmd clock symbol feed cmd msg w
      = Ret (Some (FClientOrder cmd)) w' ∧
    orders (book w') !! o_symbol cmd = Some l ∧
    dict_get (dict_at (book w') l) (o_oid cmd)
      = Some (dark_entry cmd (mk_check (o_price cmd) last (o_action cmd))
                min_tick) ∧
    to_brokerd w' = to_brokerd w ∧
    to_client w'
      = (to_client w ++
         [CStatus (mkStatus (o_oid cmd)
                     (Some (if String.eqb (o_action cmd) "alert"
                            then "alert_submitted" else "dark_submitted"))
                     (clock (clock_reads w)) None None IdNone None
                     RelayNothing None)])%list.
Proof.
  intros (Hact & Hlive & Hdark) Hbrokers Hlast Htick.
  unfold process_client_order_cmd.
  rewrite (submit_not_cancel _ Hact), Hact, Hbrokers, Hlive, Hdark.
  unfold mbind, M_bind, get_book at 1. simpl.
  rewrite Hlast, Htick.
  unfold orders_setdefault, mbind, M_bind, get_book, modify_book, time_ns,
    send_client, mret, M_ret; simpl.
  destruct (orders (book w) !! o_symbol cmd) as [l|] eqn:Hl; simpl.
  - eexists _, l. split; [reflexivity|]. simpl.
    split; [done|]. split; [|done].
    unfold dict_at; simpl. rewrite lookup_insert_eq. simpl.
    apply dict_get_set_eq.
  - eexists _, _. split; [reflexivity|]. simpl.
    rewrite lookup_insert_eq.
    split; [done|]. split; [|done].
    unfold dict_at; simpl. rewrite !lookup_insert_eq. simpl.
    by rewrite String.eqb_refl.
Qed.



(** The scan loop skips an entry whose predicate is [None]: nothing is
    sent and the book stays as it is. *)
Lemma trigger_entry_null_pred (clock : nat → Z) (broker sym : string)
    (l : addr) (t : tick) (oid : string) (e : entry) (symbol : string)
    (w : World) :
  e_pred e = None →
  trigger_entry clock broker sym l t oid e symbol w = Ret symbol w.
Proof. intros H. unfold trigger_entry. by rewrite H. Qed.

(** C5, as the code has it: a submission on the dark path is never
    rejected.  Whatever predicate [mk_check] returns for the trigger price
    and the known last price, [None] included, the tuple with that predicate
    is stored under the oid in [orders[symbol]], the client is sent
    [alert_submitted] or [dark_submitted] and no [error], and nothing goes
    to the broker; an entry stored with the predicate [None] is skipped by
    the scan loop. *)
Theorem dark_submission_never_rejected (clock : nat → Z) (symbol : string)
    (feed : gmap string pyfloat) (cmd : Order) (msg : option flow_msg)
    (w : World) (broker : string) (rest : list string)
    (last min_tick : pyfloat) :
  takes_dark_path cmd →
  o_brokers cmd = broker :: rest →
  lasts (book w) !! (broker, o_symbol cmd) = Some last →
  feed !! o_symbol cmd = Some min_tick →
  ∃ (w' : World) (l : addr) (st : Status),
    process_client_order_cmd clock symbol feed cmd msg w
      = Ret (Some (FClientOrder cmd)) w' ∧
    orders (book w') !! o_symbol cmd = Some l ∧
    dict_get (dict_at (book w') l) (o_oid cmd)
      = Some (dark_entry cmd (mk_check (o_price cmd) last (o_action cmd))
                min_tick) ∧
    to_brokerd w' = to_brokerd w ∧
    to_client w' = (to_client w ++ [CStatus st])%list ∧
    st_oid st = o_oid cmd ∧
    st_resp st = Some (if String.eqb (o_action cmd) "alert"
                       then "alert_submitted" else "dark_submitted") ∧
    st_resp st ≠ Some "error" ∧
    (mk_check (o_price cmd) last (o_action cmd) = None →
     ∀ (broker' sym : string) (l' : addr) (t : tick) (symbol' : string)
       (w'' : World),
       trigger_entry clock broker' sym l' t (o_oid cmd)
         (dark_entry cmd (mk_check (o_price cmd) last (o_action cmd))
            min_tick) symbol' w'' = Ret symbol' w'').
Proof.
  intros Hpath Hbrokers Hlast Htick.
  destruct (dark_submit_registers clock symbol feed cmd msg w broker rest
              last min_tick Hpath Hbrokers Hlast Htick)
    as (w' & l & Hrun & Horders & Hget & Hb & Hc).
  eexists w', l, _. split; [exact Hrun|]. split; [exact Horders|].
  split; [exact Hget|]. split; [exact Hb|]. split; [exact Hc|]. simpl.
  split; [done|]. split; [done|]. split.
  - by destruct (String.eqb (o_action cmd) "alert").
  - intros Hnull broker' sym l' t symbol' w''.
    apply trigger_entry_null_pred. rewrite Hnull. unfold dark_entry.
    by repeat case_match.
Qed.

Lemma dark_submission_never_rejected_witness :
  mk_check NaN (Num 100) "buy" = None ∧
  ∃ (w' : World) (l : addr) (st : Status),
    process_client_order_cmd Scenario.clk "aapl" Scenario.feed_aapl
      Scenario.dark_buy_nan None
      (initial_world (Scenario.book_last (Num 100)))
      = Ret (Some (FClientOrder Scenario.dark_buy_nan)) w' ∧
    orders (book w') !! "aapl" = Some l ∧
    dict_get (dict_at (book w') l) "o5"
      = Some (dark_entry Scenario.dark_buy_nan None (Num (1 # 100))) ∧
    to_client w' = [CStatus st] ∧
    st_resp st = Some "dark_submitted".
Proof.
  split; [reflexivity|].
  destruct (dark_submission_never_rejected Scenario.clk "aapl"
              Scenario.feed_aapl Scenario.dark_buy_nan None
              (initial_world (Scenario.book_last (Num 100))) "ib" []
              (Num 100) (Num (1 # 100)))
    as (w' & l & st & Hrun & Horders & Hget & _ & Hc & _ & Hresp & _).
  - by vm_compute.
  - reflexivity.
  - by vm_compute.
  - by vm_compute.
  - exists w', l, st. repeat split; assumption.
Defined.

(** C5, as the spec states it, fails: with [lasts] seeded at 100, a dark
    buy at 100 gets a predicate that holds at 100, and still the client is
    sent [dark_submitted] instead of [error] and the order is entered in the
    book. *)
Lemma immediate_fire_is_registered :
  let w := initial_world (Scenario.book_last (Num 100)) in
  let r := process_client_order_cmd Scenario.clk "aapl" Scenario.feed_aapl
             Scenario.dark_buy_100 None w in
  (∃ c : check, mk_check (Num 100) (Num 100) "buy" = Some c ∧
                call_check c (Num 100) = true) ∧
  orders (book w) !! "aapl" = None ∧
  orders (book (outcome_world r)) !! "aapl" = Some 0%nat ∧
  ¬ (∃ st : Status,
       to_client (outcome_world r) = [CStatus st] ∧
       st_resp st = Some "error" ∧
       book (outcome_world r) = book w).
Proof.
  split; [|split; [|split]].
  - exists (check_gt (Num 100)). split; reflexivity.
  - by vm_compute.
  - by vm_compute.
  - intros (st & Hc & Hresp & _).
    vm_compute in Hc. injection Hc as <-. discriminate Hresp.
Qed.

(** ** The translator *)






(** The tail of the translator's loop body leaves the book alone. *)
Lemma relay_event_book (clock : nat → Z) (name : string) (reqid : pyid)
    (oid : string) (m : brokerd_msg) (w : World) :
  book (outcome_world (relay_event clock name reqid oid m w)) = book w.
Proof.
  unfold relay_event.
  destruct (String.eqb name "error"); [done|].
  destruct (String.eqb name "status"); [done|].
  destruct (String.eqb name "fill"); done.
Qed.

(** So does the whole body on an event that is not an ack. *)
Lemma non_ack_event_book (clock : nat → Z) (m : brokerd_msg) (w : World) :
  bm_name m ≠ "ack" →
  book (outcome_world (translate_and_relay_brokerd_event clock m w)) = book w.
Proof.
  intros Hname. unfold translate_and_relay_brokerd_event.
  destruct (String.eqb (bm_name m) "position"); [done|].
  unfold mbind, M_bind, get_book.
  destruct (match bm_oid m with
            | Some v => v
            | None => bidict_inverse_get (ems2brokerd_ids (book w)) (bm_reqid m)
            end) as [o|].
  - destruct (String.eqb_spec (bm_name m) "ack") as [|_]; [done|].
    destruct (ems_entries (book w) !! o); [apply relay_event_book|done].
  - destruct (bm_broker_details m) as [[paper_oid|]|]; try done.
    apply relay_event_book.
Qed.

Lemma non_ack_events_book (clock : nat → Z) (events : list brokerd_msg)
    (w : World) :
  Forall (λ m, bm_name m ≠ "ack") events →
  book (outcome_world (translate_and_relay_brokerd_events clock events w))
    = book w.
Proof.
  intros Hall. revert w. induction Hall as [|m events Hm _ IH]; intros w.
  - done.
  - simpl. unfold mbind, M_bind.
    pose proof (non_ack_event_book clock m w Hm) as Hstep.
    destruct (translate_and_relay_brokerd_event clock m w) as [[] w'|e w'].
    + simpl in Hstep. by rewrite IH.
    + done.
Qed.

(** The cancel of an order with a live flow entry leaves the book alone. *)
Lemma live_cancel_book (clock : nat → Z) (symbol : string)
    (feed : gmap string pyfloat) (cmd : Order) (msg : option flow_msg)
    (w : World) (live_entry : flow_msg) :
  o_action cmd = "cancel" →
  ems_entries (book w) !! o_oid cmd = Some live_entry →
  book (outcome_world (process_client_order_cmd clock symbol feed cmd msg w))
    = book w.
Proof.
  intros Hact Hlive. unfold process_client_order_cmd.
  rewrite Hact. simpl. unfold mbind, M_bind, get_book at 1. simpl.
  rewrite Hlive.
  destruct (id_truthy _); [done|].
  unfold mbind, M_bind. by destruct (flow_reqid live_entry).
Qed.

(** C6, as the code has it: a terminal state removes nothing from the
    book.  The cancel of an order with a live flow entry and every event of
    the trades stream that is not an ack (so every status, ['cancelled']
    and ['filled'] with nothing remaining included) leave [orders],
    [_ems_entries] and [_ems2brokerd_ids] as they were: the oid of a live
    order stays in [_ems_entries], and the [_ems2brokerd_ids] entry made on
    the ack stays after the terminal status. *)
Theorem terminal_status_removes_nothing (clock : nat → Z) (symbol : string)
    (feed : gmap string pyfloat) (cmd : Order) (msg : option flow_msg)
    (w : World) (live_entry : flow_msg) (events : list brokerd_msg) :
  o_action cmd = "cancel" →
  ems_entries (book w) !! o_oid cmd = Some live_entry →
  Forall (λ m, bm_name m ≠ "ack") events →
  let w1 :=
    outcome_world (process_client_order_cmd clock symbol feed cmd msg w) in
  let w2 :=
    outcome_world (translate_and_relay_brokerd_events clock events w1) in
  book w1 = book w ∧
  book w2 = book w ∧
  ems_entries (book w2) !! o_oid cmd = Some live_entry ∧
  bidict_get (ems2brokerd_ids (book w2)) (o_oid cmd)
    = bidict_get (ems2brokerd_ids (book w)) (o_oid cmd) ∧
  book (outcome_world (translate_and_relay_brokerd_events clock events w))
    = book w.
Proof.
  intros Hact Hlive Hevents w1 w2.
  assert (H1 : book w1 = book w) by by eapply live_cancel_book.
  assert (H2 : book w2 = book w).
  { unfold w2. by rewrite non_ack_events_book. }
  split; [done|]. split; [done|]. rewrite H2.
  split; [done|]. split; [done|]. by apply non_ack_events_book.
Qed.

Lemma terminal_status_removes_nothing_witness :
  let w := initial_world Scenario.acked_book in
  let w1 :=
    outcome_world (process_client_order_cmd Scenario.clk "aapl"
                     Scenario.feed_aapl Scenario.cancel_o2 None w) in
  let w2 :=
    outcome_world (translate_and_relay_brokerd_events Scenario.clk
                     [Scenario.event_o2 "status" "cancelled" (Num 10)] w1) in
  ems_entries (book w2) !! "o2"
    = Some (FAck (mkBrokerdOrderAck (IdInt 7) "o2" 0)) ∧
  bidict_get (ems2brokerd_ids (book w2)) "o2" = Some (IdInt 7).
Proof.
  intros w w1 w2.
  destruct (terminal_status_removes_nothing Scenario.clk "aapl"
              Scenario.feed_aapl Scenario.cancel_o2 None w
              (FAck (mkBrokerdOrderAck (IdInt 7) "o2" 0))
              [Scenario.event_o2 "status" "cancelled" (Num 10)])
    as (_ & _ & Hentry & Hids & _).
  - reflexivity.
  - by vm_compute.
  - repeat constructor. discriminate.
  - split; [exact Hentry|]. etrans; [exact Hids|]. reflexivity.
Defined.

(** C6, as the spec states it, fails: after the cancel round trip of [o2]
    (submitted live, acked with request 7, cancelled, reported
    ['cancelled'] by the broker) and after its execution (reported
    ['filled'] with nothing remaining), [o2] is still in [_ems_entries] and
    in [_ems2brokerd_ids]. *)
Lemma terminal_oid_stays_in_book :
  let w0 := initial_world (Scenario.book_last (Num 100)) in
  (∃ (w : World) (st : Status),
     Scenario.cancel_round_trip w0 = Ret tt w ∧
     to_client w = [CStatus st] ∧
     st_resp st = Some "broker_cancelled" ∧
     ¬ (ems_entries (book w) !! "o2" = None ∧
        bidict_get (ems2brokerd_ids (book w)) "o2" = None)) ∧
  (∃ (w : World) (st : Status),
     Scenario.execution w0 = Ret tt w ∧
     to_client w = [CStatus st] ∧
     st_resp st = Some "broker_executed" ∧
     ¬ (ems_entries (book w) !! "o2" = None ∧
        bidict_get (ems2brokerd_ids (book w)) "o2" = None)).
Proof.
  split.
  - eexists _, _. split; [by vm_compute|]. split; [by vm_compute|].
    split; [by vm_compute|]. intros [_ H]. by vm_compute in H.
  - eexists _, _. split; [by vm_compute|]. split; [by vm_compute|].
    split; [by vm_compute|]. intros [_ H]. by vm_compute in H.
Qed.

(** C3: at the cancel of a live order that is not acked yet the code does
    not buffer anything.  The live submission has put its [BrokerdOrder]
    into [_ems_entries], so the cancel takes the branch of a live entry: a
    [BrokerdCancel] with [reqid=None] goes to the broker at once and
    [_ems_entries] keeps the order; the ack that comes later sends nothing
    and replaces the entry.  A cancel for an oid without entry, as the
    first command of a session, reads the unbound local [msg]. *)
Theorem cancel_before_ack_not_buffered :
  let w0 := initial_world (Scenario.book_last (Num 100)) in
  (∃ (w1 w2 : World) (msg : option flow_msg) (order : BrokerdOrder),
     Scenario.live_then_cancel w0 = Ret msg w1 ∧
     to_brokerd w1 = [FOrder order; FCancel (mkBrokerdCancel "o2" IdNone 1)] ∧
     ems_entries (book w1) !! "o2" = Some (FOrder order) ∧
     Scenario.late_ack w1 = Ret tt w2 ∧
     to_brokerd w2 = to_brokerd w1 ∧
     ems_entries (book w2) !! "o2"
       = Some (FAck (mkBrokerdOrderAck (IdInt 7) "o2" 0))) ∧
  process_client_order_cmd Scenario.clk "aapl" Scenario.feed_aapl
    Scenario.cancel_o2 None w0
    = Raise (UnboundLocalError "msg") w0.
Proof.
  split; [|by vm_compute].
  eexists _, _, _, _. split; [by vm_compute|].
  split; [by vm_compute|]. split; [by vm_compute|].
  split; [by vm_compute|]. split; by vm_compute.
Qed.

(** ** The feed bus *)

(** C8: [attach_feed_bus] reads [bus.feeds.get(symbol)] before it takes
    [bus.task_lock].  When the second task attaches while the first one is
    still allocating, its [entry] is [None] too, and once it gets the lock
    it runs [allocate_persistent_feed] again: two runs are logged and the
    two tasks are handed different init messages and first quotes.  When
    the second task attaches after the first one is done, there is one run
    and both get the same cached entry. *)
Theorem attach_during_allocation_allocates_twice :
  (∃ (bus : Feed.FeedsBus) (init0 init1 : Feed.init_msg),
     Scenario.two_attach [0; 1; 0; 0; 1; 1]
       = (bus, [Feed.Started init0 0; Feed.Started init1 1]) ∧
     Feed.allocations bus = ["aapl"; "aapl"] ∧
     init0 ≠ init1 ∧
     Feed.shm_token init0 = Feed.shm_token init1) ∧
  (∃ (bus : Feed.FeedsBus) (init : Feed.init_msg),
     Scenario.two_attach [0; 0; 0; 1; 1]
       = (bus, [Feed.Started init 0; Feed.Started init 0]) ∧
     Feed.allocations bus = ["aapl"]).
Proof.
  split.
  - eexists _, _, _. split; [by vm_compute|].
    split; [by vm_compute|]. split; [|by vm_compute].
    intros H. by vm_compute in H.
  - eexists _, _. split; by vm_compute.
Qed.

(** ** The Kraken reader *)

Import Kraken.

(** Handling a message does not touch the locals of the watchdog. *)
Lemma handle_msg_Continue (st st' : reader) (m : ws_msg) (out : list yielded) :
  handle_msg st m = Continue st' out → st' = st.
Proof.
  unfold handle_msg, handle_channel.
  repeat case_match; simplify_eq; congruence.
Qed.

Lemma handle_msg_not_closed (st : reader) (m : ws_msg) (reason : string) :
  handle_msg st m ≠ Raised (ConnectionClosed reason).
Proof.
  unfold handle_msg, handle_channel.
  repeat case_match; simplify_eq; congruence.
Qed.

(** One iteration counts its timeout and nothing else. *)
Lemma recv_msg_step_count (st st' : reader) (r : recv_result)
    (out : list yielded) :
  recv_msg_step st r = Continue st' out →
  too_slow_count st'
    = (too_slow_count st + (if timed_out r then 1 else 0))%nat ∧
  ((too_slow_count st ≤ 2)%nat → (too_slow_count st' ≤ 2)%nat).
Proof.
  unfold recv_msg_step. destruct r as [m|]; simpl.
  - intros H. apply handle_msg_Continue in H. subst. simpl. lia.
  - destruct (too_slow_count st) as [|[|n]] eqn:E; simpl; [| |done].
    + destruct (msg st) as [m|]; [|done].
      intros H. apply handle_msg_Continue in H. subst. simpl. lia.
    + destruct (msg st) as [m|]; [|done].
      intros H. apply handle_msg_Continue in H. subst. simpl. lia.
Qed.

(** When an iteration ends the reader with the connection reset. *)
Lemma recv_msg_step_closed (st : reader) (r : recv_result) :
  recv_msg_step st r = Raised (ConnectionClosed "Reset Connection") ↔
  r = TimedOut ∧ (2 ≤ too_slow_count st)%nat.
Proof.
  unfold recv_msg_step. destruct r as [m|]; simpl.
  - split; [|by intros [? _]].
    intros H. by apply handle_msg_not_closed in H.
  - destruct (too_slow_count st) as [|[|n]] eqn:E; simpl.
    + split; [|intros [_ ?]; lia].
      destruct (msg st) as [m|]; [|done].
      intros H. by apply handle_msg_not_closed in H.
    + split; [|intros [_ ?]; lia].
      destruct (msg st) as [m|]; [|done].
      intros H. by apply handle_msg_not_closed in H.
    + split; [intros _; split; [done|lia]|done].
Qed.

(** The count of a reader that is still running is the number of timeouts
    it met. *)
Lemma recv_msg_from_count (rs : list recv_result) (st st' : reader)
    (out : list yielded) :
  recv_msg_from st rs = (out, inr st') →
  too_slow_count st' = (too_slow_count st + timeouts rs)%nat ∧
  ((too_slow_count st ≤ 2)%nat → (too_slow_count st' ≤ 2)%nat).
Proof.
  revert st out. induction rs as [|r rs IH]; intros st out; simpl.
  - intros [= <- <-]. unfold timeouts. simpl. lia.
  - destruct (recv_msg_step st r) as [st1 out1|e] eqn:Hstep; [|done].
    destruct (recv_msg_from st1 rs) as [out2 res] eqn:Hrest. simpl.
    intros [= <- ->].
    apply recv_msg_step_count in Hstep as [Hc1 Hb1].
    apply IH in Hrest as [Hc2 Hb2].
    unfold timeouts in *. simpl. destruct (timed_out r); simpl in *; lia.
Qed.

(** The run on one more result of [recv()]. *)
Lemma recv_msg_from_snoc (rs : list recv_result) (r : recv_result)
    (st st' : reader) (out : list yielded) :
  recv_msg_from st rs = (out, inr st') →
  (recv_msg_from st (rs ++ [r])).2
    = match recv_msg_step st' r with
      | Raised e => inl e
      | Continue st'' _ => inr st''
      end.
Proof.
  revert st out. induction rs as [|r0 rs IH]; intros st out; simpl.
  - intros [= <- <-]. by destruct (recv_msg_step st r).
  - destruct (recv_msg_step st r0) as [st1 out1|e] eqn:Hstep; [|done].
    destruct (recv_msg_from st1 rs) as [out2 res] eqn:Hrest. simpl.
    intros [= <- ->]. simpl. by eapply IH.
Qed.

(** C9, as the code has it: a call of [recv()] gets 1.5 seconds, and
    [too_slow_count] counts the timeouts of the whole run, a received
    message does not reset it.  A reader that is still running after the
    calls [rs] has met at most two timeouts, and the next call ends it with
    the connection reset exactly when that call times out and two earlier
    calls did, in a row or not. *)
Theorem reconnect_on_third_timeout (rs : list recv_result) (r : recv_result)
    (st : reader) (out : list yielded) :
  recv_msg rs = (out, inr st) →
  (recv_deadline == 3 # 2)%Q ∧
  too_slow_count st = timeouts rs ∧
  (timeouts rs ≤ 2)%nat ∧
  ((recv_msg (rs ++ [r])).2 = inl (ConnectionClosed "Reset Connection") ↔
   r = TimedOut ∧ timeouts rs = 2%nat).
Proof.
  unfold recv_msg. intros Hrun. split; [reflexivity|].
  pose proof (recv_msg_from_count _ _ _ _ Hrun) as [Hc Hb]. simpl in *.
  split; [done|]. split; [lia|].
  rewrite (recv_msg_from_snoc _ r _ _ _ Hrun).
  pose proof (recv_msg_step_closed st r) as Hclosed.
  destruct (recv_msg_step st r) as [st'' out''|e] eqn:Hstep.
  - split; [done|]. intros [Hr H2].
    destruct Hclosed as [_ Hcl]. discriminate Hcl. split; [done|lia].
  - split.
    + intros [= ->]. destruct Hclosed as [Hcl _].
      destruct (Hcl eq_refl) as [-> ?]. split; [done|lia].
    + intros [Hr H2]. destruct Hclosed as [_ Hcl].
      assert (Hraised : Raised e = Raised (ConnectionClosed "Reset Connection"))
        by (apply Hcl; split; [done|lia]).
      by injection Hraised as ->.
Qed.

Lemma reconnect_on_third_timeout_witness :
  timeouts [Received Scenario.heartbeat; TimedOut;
            Received Scenario.heartbeat; TimedOut] = 2%nat ∧
  (recv_msg ([Received Scenario.heartbeat; TimedOut;
              Received Scenario.heartbeat; TimedOut] ++ [TimedOut])).2
    = inl (ConnectionClosed "Reset Connection").
Proof.
  split; [reflexivity|].
  apply (reconnect_on_third_timeout
           [Received Scenario.heartbeat; TimedOut;
            Received Scenario.heartbeat; TimedOut] TimedOut
           (mkReader 2 (Some Scenario.heartbeat)) []).
  - reflexivity.
  - split; reflexivity.
Defined.

(** C9, as the spec states it, fails in both directions: with a message
    received before each timeout the third timeout still resets the
    connection, though no three timeouts are in a row; and three timeouts
    in a row at the start of the reader do not reset the connection, the
    first of them ends the reader on its unbound local [msg]. *)
Lemma reconnect_without_consecutive_timeouts :
  let rs := [Received Scenario.heartbeat; TimedOut;
             Received Scenario.heartbeat; TimedOut;
             Received Scenario.heartbeat; TimedOut] in
  (three_timeouts_in_a_row rs = false ∧
   (recv_msg rs).2 = inl (ConnectionClosed "Reset Connection")) ∧
  (three_timeouts_in_a_row [TimedOut; TimedOut; TimedOut] = true ∧
   (recv_msg [TimedOut; TimedOut; TimedOut]).2
     = inl (UnboundLocalError "msg")).
Proof. repeat split. Qed.

(** ** The trigger loop *)

Lemma dict_get_del_ne (d : execs) (k k' : string) :
  k ≠ k' → dict_get (dict_del d k) k' = dict_get d k'.
Proof.
  intros Hne. induction d as [|[k0 v0] d IH]; simpl; [done|].
  destruct (String.eqb_spec k0 k) as [->|Hk]; simpl.
  - by destruct (String.eqb_spec k k').
  - by rewrite IH.
Qed.

Lemma dict_del_subset (d : execs) (k k' : string) (v : entry) :
  (k', v) ∈ dict_del d k → (k', v) ∈ d.
Proof.
  induction d as [|[k0 v0] d IH]; simpl; [done|].
  destruct (String.eqb_spec k0 k) as [->|Hk].
  - intros H. by right.
  - rewrite !elem_of_cons. intros [H|H]; [by left|right; by apply IH].
Qed.

Lemma dict_get_is_Some (d : execs) (k : string) :
  is_Some (dict_get d k) ↔ k ∈ dict_keys d.
Proof.
  rewrite <- not_eq_None_Some, dict_get_None.
  destruct (decide (k ∈ dict_keys d)); naive_solver.
Qed.

Lemma fires_true (e : entry) (t : tick) :
  fires e t = true ↔
  ∃ pred : check, e_pred e = Some pred ∧
    str_in (tk_type t) (e_tf e) = true ∧ call_check pred (tk_price t) = true.
Proof.
  unfold fires. destruct (e_pred e) as [pred|].
  - rewrite andb_true_iff. split.
    + intros [? ?]. by exists pred.
    + by intros (? & [= <-] & ? & ?).
  - split; [done|]. by intros (? & ? & _).
Qed.

(** The body of the scan loop on an entry that does not fire. *)
Lemma trigger_entry_skip (clock : nat → Z) (broker sym : string) (l : addr)
    (t : tick) (oid : string) (e : entry) (symbol : string) (w : World) :
  fires e t = false →
  trigger_entry clock broker sym l t oid e symbol w = Ret symbol w.
Proof.
  unfold fires, trigger_entry. destruct (e_pred e) as [pred|]; [|done].
  intros H. apply andb_false_iff in H.
  destruct (str_in (tk_type t) (e_tf e)); simpl; [|done].
  destruct H as [H|H]; [done|]. by rewrite H.
Qed.

(** The body of the scan loop on an entry that fires and is still in the
    dict. *)
Lemma trigger_entry_fire (clock : nat → Z) (broker sym : string) (l : addr)
    (t : tick) (oid : string) (e : entry) (symbol : string) (w : World) :
  fires e t = true →
  is_Some (dict_get (dict_at (book w) l) oid) →
  ∃ w' : World,
    trigger_entry clock broker sym l t oid e symbol w
      = Ret (o_symbol (e_cmd e)) w' ∧
    fired_step broker sym l t oid e w w'.
Proof.
  intros Hf [v Hv]. apply fires_true in Hf as (pred & Hp & Htf & Hc).
  unfold trigger_entry, fired_step, trigger_status, trigger_order.
  rewrite Hp, Htf, Hc. simpl.
  destruct (String.eqb (o_action (e_cmd e)) "alert") eqn:Halert.
  - run_monad. unfold dict_at in *. rewrite Hv. run_monad.
    eexists. split; [reflexivity|]. simpl.
    repeat split; eauto.
  - run_monad. unfold dict_at in *. simpl. rewrite Hv. run_monad.
    eexists. split; [reflexivity|]. simpl.
    repeat split; eauto.
Qed.

(** Under the condition of the scan loop, that the keys of the snapshot
    are distinct and in the dict, the scan returns and is a chain of
    steps. *)
Lemma scan_execs_scanned (clock : nat → Z) (broker sym : string) (l : addr)
    (t : tick) (items : execs) (symbol : string) (w : World) :
  NoDup (dict_keys items) →
  (∀ k, k ∈ dict_keys items → k ∈ dict_keys (dict_at (book w) l)) →
  ∃ (symbol' : string) (w' : World),
    scan_execs clock broker sym l t items symbol w = Ret symbol' w' ∧
    scanned broker sym l t items symbol w symbol' w'.
Proof.
  revert symbol w. induction items as [|[oid e] items IH]; intros symbol w.
  - intros _ _. exists symbol, w. split; [done|constructor].
  - unfold dict_keys. simpl. rewrite NoDup_cons. intros [Hoid Hnd] Hin.
    simpl. unfold mbind, M_bind.
    destruct (fires e t) eqn:Hf.
    + destruct (trigger_entry_fire clock broker sym l t oid e symbol w Hf)
        as (w1 & Hrun & Hstep).
      { apply dict_get_is_Some, Hin. left. }
      rewrite Hrun.
      destruct (IH (o_symbol (e_cmd e)) w1 Hnd) as (s' & w' & Hrest & Hsc).
      { intros k Hk. destruct Hstep as (_ & _ & _ & Hd & _).
        unfold dict_at at 1. rewrite Hd, lookup_insert_eq. simpl.
        apply dict_get_is_Some. rewrite dict_get_del_ne.
        - apply dict_get_is_Some, Hin. by right.
        - intros ->. done. }
      exists s', w'. split; [done|]. by eapply scanned_fire.
    + rewrite (trigger_entry_skip _ _ _ _ _ _ _ _ _ Hf).
      destruct (IH symbol w Hnd) as (s' & w' & Hrest & Hsc).
      { intros k Hk. apply Hin. by right. }
      exists s', w'. split; [done|]. by eapply scanned_skip.
Qed.

(** The dict at [l] after a step. *)
Lemma fired_step_dict (broker sym : string) (l : addr) (t : tick)
    (oid : string) (e : entry) (w w' : World) :
  fired_step broker sym l t oid e w w' →
  dict_at (book w') l = dict_del (dict_at (book w) l) oid.
Proof.
  intros (_ & _ & _ & Hd & _). unfold dict_at at 1.
  by rewrite Hd, lookup_insert_eq.
Qed.

(** A scan changes neither [orders] nor [lasts] nor the id map, nor a dict
    object other than the one it scans. *)
Lemma scanned_frame (broker sym : string) (l : addr) (t : tick)
    (items : execs) (s s' : string) (w w' : World) :
  scanned broker sym l t items s w s' w' →
  orders (book w') = orders (book w) ∧
  lasts (book w') = lasts (book w) ∧
  ems2brokerd_ids (book w') = ems2brokerd_ids (book w) ∧
  ∀ l', l' ≠ l → dicts (book w') !! l' = dicts (book w) !! l'.
Proof.
  induction 1 as [s w|oid e items s w s' w' Hf Hsc IH
                  |oid e items s w w1 s' w' Hf Hstep Hsc IH].
  - done.
  - done.
  - destruct IH as (Ho & Hl & Hi & Hd).
    destruct Hstep as (Ho1 & Hl1 & Hi1 & Hd1 & _).
    rewrite Ho, Hl, Hi. repeat split; try done.
    intros l' Hl'. rewrite (Hd l' Hl'), Hd1. by rewrite lookup_insert_ne.
Qed.

(** The dict it scans only loses items, and it loses the items that
    fire. *)
Lemma scanned_dict (broker sym : string) (l : addr) (t : tick)
    (items : execs) (s s' : string) (w w' : World) :
  scanned broker sym l t items s w s' w' →
  (∀ k v, (k, v) ∈ dict_at (book w') l → (k, v) ∈ dict_at (book w) l) ∧
  (∀ k, k ∈ dict_keys (dict_at (book w') l) →
        k ∈ dict_keys (dict_at (book w) l)) ∧
  (NoDup (dict_keys (dict_at (book w) l)) →
   NoDup (dict_keys (dict_at (book w') l)) ∧
   ∀ k e, (k, e) ∈ items → fires e t = true →
          k ∉ dict_keys (dict_at (book w') l)).
Proof.
  induction 1 as [s w|oid e items s w s' w' Hf Hsc IH
                  |oid e items s w w1 s' w' Hf Hstep Hsc IH].
  - split; [done|]. split; [done|]. intros Hnd0. split; [done|].
    intros k e H. by apply elem_of_nil in H.
  - destruct IH as (Hsub & Hkeys & Hnd).
    split; [done|]. split; [done|]. intros Hnd0.
    destruct (Hnd Hnd0) as [Hnd' Hgone]. split; [done|].
    intros k e' Hin Hf'. apply elem_of_cons in Hin as [[= -> ->]|Hin].
    + congruence.
    + by eapply Hgone.
  - destruct IH as (Hsub & Hkeys & Hnd).
    pose proof (fired_step_dict _ _ _ _ _ _ _ _ Hstep) as Hd.
    rewrite Hd in *. split; [|split].
    + intros k v Hkv. eapply dict_del_subset. by apply Hsub.
    + intros k Hk. eapply dict_del_keys. by apply Hkeys.
    + intros Hnd0.
      destruct (Hnd (dict_del_NoDup _ oid Hnd0)) as [Hnd' Hgone].
      split; [done|].
      intros k e' Hin Hf'. apply elem_of_cons in Hin as [[= -> ->]|Hin].
      * intros Hk. apply Hkeys in Hk. by apply dict_del_not_in in Hk.
      * by eapply Hgone.
Qed.


(** What a scan sends: one [Status] for each item that fires and one
    [BrokerdOrder] for each of them that is not an alert, in the order of
    the snapshot; the order sent for an oid is its entry in [_ems_entries]
    after the scan. *)
Lemma scanned_sent (broker sym : string) (l : addr) (t : tick)
    (items : execs) (s s' : string) (w w' : World) :
  scanned broker sym l t items s w s' w' →
  ∃ (nb : list flow_msg) (nc : list client_msg),
    to_brokerd w' = (to_brokerd w ++ nb)%list ∧
    to_client w' = (to_client w ++ nc)%list ∧
    flow_oid <$> nb = dict_keys (submitted_items t items) ∧
    client_oid <$> nc = Some <$> dict_keys (fired_items t items) ∧
    (∀ k e, (k, e) ∈ items → fires e t = true →
            ∃ now : Z, trigger_status broker t k e now ∈ nc) ∧
    (∀ k e, (k, e) ∈ items → fires e t = true → is_alert e = false →
            NoDup (dict_keys items) →
            ∃ now : Z,
              trigger_order sym t k e now ∈ nb ∧
              ems_entries (book w') !! k
                = Some (trigger_order sym t k e now)) ∧
    (∀ k, k ∉ dict_keys items →
          ems_entries (book w') !! k = ems_entries (book w) !! k).
Proof.
  induction 1 as [s w|oid e items s w s' w' Hf Hsc IH
                  |oid e items s w w1 s' w' Hf Hstep Hsc IH].
  - exists [], []. rewrite !app_nil_r.
    do 4 (split; [done|]). split; [|split; [|done]].
    + intros k e H. by apply elem_of_nil in H.
    + intros k e H. by apply elem_of_nil in H.
  - destruct IH as (nb & nc & Hb & Hc & Hbo & Hco & Hst & Hord & Hems).
    exists nb, nc. unfold submitted_items, fired_items in *. simpl.
    rewrite Hf. simpl.
    do 4 (split; [done|]). split; [|split].
    + intros k e' Hin Hf'. apply elem_of_cons in Hin as [[= -> ->]|Hin];
        [congruence|by eapply Hst].
    + intros k e' Hin Hf' Hal Hnd.
      apply elem_of_cons in Hin as [[= -> ->]|Hin]; [congruence|].
      eapply Hord; eauto. unfold dict_keys in *. simpl in Hnd.
      by apply NoDup_cons in Hnd as [_ ?].
    + intros k Hk. apply Hems. unfold dict_keys in *. simpl in Hk.
      by apply not_elem_of_cons in Hk as [_ ?].
  - destruct IH as (nb & nc & Hb & Hc & Hbo & Hco & Hst & Hord & Hems).
    destruct Hstep as (_ & _ & _ & _ & [now Hc1] & Hbr).
    unfold submitted_items, fired_items, is_alert in *. simpl.
    rewrite Hf. simpl.
    destruct (String.eqb (o_action (e_cmd e)) "alert") eqn:Hal; simpl.
    + destruct Hbr as [Hb1 He1].
      exists nb, (trigger_status broker t oid e now :: nc).
      split; [by rewrite Hb, Hb1|].
      split; [by rewrite Hc, Hc1, <- app_assoc|].
      split; [done|].
      split; [unfold dict_keys in *; by rewrite !fmap_cons, Hco|].
      split; [|split].
      * intros k e' Hin Hf'. apply elem_of_cons in Hin as [[= -> ->]|Hin].
        -- exists now. left.
        -- destruct (Hst k e' Hin Hf') as [now' ?]. exists now'. by right.
      * intros k e' Hin Hf' Hal' Hnd.
        apply elem_of_cons in Hin as [[= -> ->]|Hin]; [congruence|].
        eapply Hord; eauto. unfold dict_keys in *. simpl in Hnd.
        by apply NoDup_cons in Hnd as [_ ?].
      * intros k Hk. rewrite <- He1. apply Hems.
        unfold dict_keys in *. simpl in Hk.
        by apply not_elem_of_cons in Hk as [_ ?].
    + destruct Hbr as (now' & Hb1 & He1).
      exists (trigger_order sym t oid e now' :: nb),
        (trigger_status broker t oid e now :: nc).
      split; [by rewrite Hb, Hb1, <- app_assoc|].
      split; [by rewrite Hc, Hc1, <- app_assoc|].
      split; [unfold dict_keys in *; by rewrite !fmap_cons, Hbo|].
      split; [unfold dict_keys in *; by rewrite !fmap_cons, Hco|].
      split; [|split].
      * intros k e' Hin Hf'. apply elem_of_cons in Hin as [[= -> ->]|Hin].
        -- exists now. left.
        -- destruct (Hst k e' Hin Hf') as [now'' ?]. exists now''. by right.
      * intros k e' Hin Hf' Hal' Hnd. unfold dict_keys in Hnd. simpl in Hnd.
        apply NoDup_cons in Hnd as [Hoid Hnd].
        apply elem_of_cons in Hin as [[= -> ->]|Hin].
        -- exists now'. split; [left|].
           rewrite (Hems oid Hoid), He1. apply lookup_insert_eq.
        -- destruct (Hord k e' Hin Hf' Hal' Hnd) as (now'' & ? & ?).
           exists now''. split; [by right|done].
      * intros k Hk. unfold dict_keys in Hk. simpl in Hk.
        apply not_elem_of_cons in Hk as [Hne Hk].
        rewrite (Hems k Hk), He1. by apply lookup_insert_ne.
Qed.

(** The body of the tick loop, when the keys of the dict are distinct: the
    price goes into [lasts], the dict is scanned, and the dict is bound to
    the local [symbol] in [orders] when it is not empty. *)
Lemma scan_tick_scanned (clock : nat → Z) (broker sym : string) (l : addr)
    (t : tick) (symbol : string) (w : World) :
  NoDup (dict_keys (dict_at (book w) l)) →
  ∃ (symbol' : string) (w1 w' : World),
    scan_tick clock broker sym l t symbol w = Ret symbol' w' ∧
    scanned broker sym l t (dict_at (book w) l) symbol
      (tick_seen broker symbol t w) symbol' w1 ∧
    dicts (book w') = dicts (book w1) ∧
    lasts (book w') = lasts (book w1) ∧
    ems_entries (book w') = ems_entries (book w1) ∧
    ems2brokerd_ids (book w') = ems2brokerd_ids (book w1) ∧
    to_brokerd w' = to_brokerd w1 ∧
    to_client w' = to_client w1 ∧
    (orders (book w') = orders (book w1) ∨
     orders (book w') = <[symbol' := l]> (orders (book w1))).
Proof.
  intros Hnd.
  destruct (scan_execs_scanned clock broker sym l t (dict_at (book w) l)
              symbol (tick_seen broker symbol t w))
    as (symbol' & w1 & Hrun & Hsc); [done|done|].
  unfold scan_tick, mbind, M_bind, modify_book, get_book.
  fold (tick_seen broker symbol t w).
  change (dict_at (book (tick_seen broker symbol t w)) l)
    with (dict_at (book w) l).
  rewrite Hrun. exists symbol', w1.
  destruct (dict_at (book w1) l) eqn:Hd.
  - exists w1. repeat split; try done. by left.
  - eexists. split; [reflexivity|]. simpl. repeat split; try done. by right.
Qed.


(** A quote message with one quote of one tick that the loop iterates
    over is one run of the body of the tick loop. *)
Lemma scan_quotes_single (clock : nat → Z) (broker sym : string) (l : addr)
    (t : tick) (symbol : string) (w : World) :
  orders (book w) !! sym = Some l →
  str_in (tk_type t) ["ask"; "bid"; "trade"; "last"] = true →
  scan_quotes clock broker [(sym, [t])] symbol w
    = scan_tick clock broker sym l t symbol w.
Proof.
  intros Hl Ht. unfold scan_quotes, scan_quote, iterticks, List.filter.
  rewrite Ht. unfold scan_ticks, mbind, M_bind, get_book, mret, M_ret.
  rewrite Hl.
  by destruct (scan_tick clock broker sym l t symbol w).
Qed.









(** ** An oid that is not registered stays silent *)

Lemma quiet_refl (oid : string) (w : World) :
  ¬ registered (book w) oid → quiet oid w w.
Proof.
  intros H. split; [done|]. exists [], []. by rewrite !app_nil_r.
Qed.

Lemma quiet_trans (oid : string) (w w1 w2 : World) :
  quiet oid w w1 → quiet oid w1 w2 → quiet oid w w2.
Proof.
  intros (_ & nb1 & nc1 & Hb1 & Hc1 & Hfb1 & Hfc1)
         (Hr & nb2 & nc2 & Hb2 & Hc2 & Hfb2 & Hfc2).
  split; [done|]. exists (nb1 ++ nb2)%list, (nc1 ++ nc2)%list.
  rewrite Hb2, Hb1, Hc2, Hc1, !app_assoc.
  repeat split; try done; by apply Forall_app.
Qed.

Lemma quiet_bind {A B : Type} (m : M A) (k : A → M B) (oid : string)
    (w : World) :
  quiet oid w (outcome_world (m w)) →
  (∀ a w1, m w = Ret a w1 → quiet oid w1 (outcome_world (k a w1))) →
  quiet oid w (outcome_world ((m ≫= k) w)).
Proof.
  unfold mbind, M_bind. destruct (m w) as [a w1|e w1]; simpl.
  - intros H1 H2. eapply quiet_trans; [exact H1|by apply H2].
  - done.
Qed.

(** A world that differs from [w] in fields a quiet step does not look
    at. *)
Lemma quiet_same (oid : string) (w w' : World) :
  ¬ registered (book w) oid →
  dicts (book w') = dicts (book w) →
  to_brokerd w' = to_brokerd w →
  to_client w' = to_client w →
  quiet oid w w'.
Proof.
  intros Hr Hd Hb Hc. split.
  - unfold registered in *. by rewrite Hd.
  - exists [], []. by rewrite !app_nil_r.
Qed.

Lemma not_registered_del (b b' : DarkBook) (oid k : string) (l : addr) :
  ¬ registered b oid →
  dicts b' = <[l := dict_del (dict_at b l) k]> (dicts b) →
  ¬ registered b' oid.
Proof.
  intros Hr Hd (l' & d & Hl' & Hin). apply Hr. rewrite Hd in Hl'.
  destruct (decide (l = l')) as [<-|Hne].
  - rewrite lookup_insert_eq in Hl'. injection Hl' as <-.
    apply dict_del_keys in Hin. unfold dict_at in Hin.
    destruct (dicts b !! l) as [d|] eqn:E; simpl in Hin.
    + by exists l, d.
    + by apply elem_of_nil in Hin.
  - rewrite lookup_insert_ne in Hl' by done. by exists l', d.
Qed.

(** The body of the scan loop on another oid. *)
Lemma trigger_entry_quiet (clock : nat → Z) (broker sym : string) (l : addr)
    (t : tick) (k : string) (e : entry) (symbol : string) (w : World)
    (oid : string) :
  k ≠ oid →
  ¬ registered (book w) oid →
  quiet oid w
    (outcome_world (trigger_entry clock broker sym l t k e symbol w)).
Proof.
  intros Hk Hr. destruct (fires e t) eqn:Hf.
  - destruct (dict_get (dict_at (book w) l) k) as [v|] eqn:Hv.
    + destruct (trigger_entry_fire clock broker sym l t k e symbol w Hf)
        as (w' & -> & Hstep); [by eexists|]. simpl.
      destruct Hstep as (_ & _ & _ & Hd & [now Hc] & Hb). split.
      * by eapply not_registered_del.
      * destruct (String.eqb (o_action (e_cmd e)) "alert").
        -- destruct Hb as [Hb _]. exists [], [trigger_status broker t k e now].
           rewrite app_nil_r. repeat split; try done.
           apply Forall_singleton. simpl. congruence.
        -- destruct Hb as (now' & Hb & _).
           exists [trigger_order sym t k e now'],
             [trigger_status broker t k e now].
           repeat split; try done; apply Forall_singleton; simpl; congruence.
    + apply fires_true in Hf as (pred & Hp & Htf & Hc).
      unfold trigger_entry. rewrite Hp, Htf, Hc. simpl.
      destruct (String.eqb (o_action (e_cmd e)) "alert");
        run_monad; unfold dict_at in *; simpl; rewrite Hv; run_monad.
      * by apply quiet_same.
      * split; [done|]. simpl.
        eexists [_], []. rewrite app_nil_r.
        repeat split; try done. by apply Forall_singleton.
  - rewrite trigger_entry_skip by done. by apply quiet_refl.
Qed.

Lemma scan_execs_quiet (clock : nat → Z) (broker sym : string) (l : addr)
    (t : tick) (items : execs) (symbol : string) (w : World) (oid : string) :
  oid ∉ dict_keys items →
  ¬ registered (book w) oid →
  quiet oid w
    (outcome_world (scan_execs clock broker sym l t items symbol w)).
Proof.
  revert symbol w. induction items as [|[k e] items IH]; intros symbol w.
  - intros _ Hr. by apply quiet_refl.
  - unfold dict_keys. simpl. rewrite not_elem_of_cons. intros [Hk Hitems] Hr.
    apply quiet_bind.
    + apply trigger_entry_quiet; [congruence|done].
    + intros symbol' w1 Hrun. apply IH; [done|].
      pose proof (trigger_entry_quiet clock broker sym l t k e symbol w oid)
        as Hq.
      rewrite Hrun in Hq. apply Hq; [congruence|done].
Qed.

Lemma not_registered_dict_at (b : DarkBook) (oid : string) (l : addr) :
  ¬ registered b oid → oid ∉ dict_keys (dict_at b l).
Proof.
  intros Hr Hin. unfold dict_at in Hin.
  destruct (dicts b !! l) as [d|] eqn:E; simpl in Hin.
  - apply Hr. by exists l, d.
  - by apply elem_of_nil in Hin.
Qed.

Lemma scan_tick_quiet (clock : nat → Z) (broker sym : string) (l : addr)
    (t : tick) (symbol : string) (w : World) (oid : string) :
  ¬ registered (book w) oid →
  quiet oid w (outcome_world (scan_tick clock broker sym l t symbol w)).
Proof.
  intros Hr. unfold scan_tick.
  apply quiet_bind; [by apply quiet_same|]. intros [] w1 [= <-].
  apply quiet_bind; [by apply quiet_refl|]. intros b w2 [= <- <-].
  apply quiet_bind.
  { apply scan_execs_quiet; [|done]. by apply not_registered_dict_at. }
  intros symbol' w3 Hrun.
  assert (Hr3 : ¬ registered (book w3) oid).
  { pose proof (scan_execs_quiet clock broker sym l t
                  (dict_at (set_last (broker, symbol) (tk_price t) (book w)) l)
                  symbol
                  (mkWorld (set_last (broker, symbol) (tk_price t) (book w))
                     (to_brokerd w) (to_client w) (clock_reads w)) oid) as Hq.
    rewrite Hrun in Hq. apply Hq; [|done].
    change (dict_at (set_last (broker, symbol) (tk_price t) (book w)) l)
      with (dict_at (book w) l). by apply not_registered_dict_at. }
  apply quiet_bind; [by apply quiet_refl|]. intros b' w4 [= <- <-].
  destruct (dict_at (book w3) l).
  - by apply quiet_refl.
  - apply quiet_bind; [by apply quiet_same|]. intros [] w5 [= <-].
    by apply quiet_same.
Qed.

Lemma scan_ticks_quiet (clock : nat → Z) (broker sym : string) (l : addr)
    (ts : list tick) (symbol : string) (w : World) (oid : string) :
  ¬ registered (book w) oid →
  quiet oid w (outcome_world (scan_ticks clock broker sym l ts symbol w)).
Proof.
  revert symbol w. induction ts as [|t ts IH]; intros symbol w Hr.
  - by apply quiet_refl.
  - simpl. apply quiet_bind; [by apply scan_tick_quiet|].
    intros symbol' w1 Hrun. apply IH.
    pose proof (scan_tick_quiet clock broker sym l t symbol w oid Hr) as Hq.
    rewrite Hrun in Hq. apply Hq.
Qed.

Lemma scan_quote_quiet (clock : nat → Z) (broker sym : string) (q : quote)
    (symbol : string) (w : World) (oid : string) :
  ¬ registered (book w) oid →
  quiet oid w (outcome_world (scan_quote clock broker sym q symbol w)).
Proof.
  intros Hr. unfold scan_quote.
  apply quiet_bind; [by apply quiet_refl|]. intros b w1 [= <- <-].
  destruct (orders (book w) !! sym) as [l|].
  - by apply scan_ticks_quiet.
  - by apply quiet_refl.
Qed.

Lemma scan_quotes_quiet (clock : nat → Z) (broker : string)
    (quotes : list (string * quote)) (symbol : string) (w : World)
    (oid : string) :
  ¬ registered (book w) oid →
  quiet oid w (outcome_world (scan_quotes clock broker quotes symbol w)).
Proof.
  revert symbol w. induction quotes as [|[sym q] quotes IH]; intros symbol w Hr.
  - by apply quiet_refl.
  - simpl. apply quiet_bind; [by apply scan_quote_quiet|].
    intros symbol' w1 Hrun. apply IH.
    pose proof (scan_quote_quiet clock broker sym q symbol w oid Hr) as Hq.
    rewrite Hrun in Hq. apply Hq.
Qed.

(** The trigger loop sends nothing about an oid that no dict has, on any
    stream of quotes, and does not register it. *)
Lemma clear_dark_triggers_quiet (clock : nat → Z) (broker symbol : string)
    (stream : list (list (string * quote))) (w : World) (oid : string) :
  ¬ registered (book w) oid →
  quiet oid w (outcome_world (clear_dark_triggers clock broker symbol stream w)).
Proof.
  revert symbol w. induction stream as [|quotes stream IH]; intros symbol w Hr.
  - by apply quiet_refl.
  - simpl. apply quiet_bind; [by apply scan_quotes_quiet|].
    intros symbol' w1 Hrun. apply IH.
    pose proof (scan_quotes_quiet clock broker quotes symbol w oid Hr) as Hq.
    rewrite Hrun in Hq. apply Hq.
Qed.

Lemma dict_at_lookup (b : DarkBook) (l : addr) (d : execs) :
  dicts b !! l = Some d → dict_at b l = d.
Proof. unfold dict_at. by intros ->. Qed.

Lemma NoDup_keys_filter (f : string * entry → bool) (items : execs) :
  NoDup (dict_keys items) → NoDup (dict_keys (List.filter f items)).
Proof.
  unfold dict_keys. induction items as [|[k e] items IH]; simpl; [done|].
  rewrite NoDup_cons. intros [Hk Hnd]. destruct (f (k, e)); simpl.
  - apply NoDup_cons. split; [|by apply IH].
    intros Hin. apply Hk. apply list_elem_of_fmap in Hin as ([k' e'] & -> & Hin).
    apply list_elem_of_In, filter_In in Hin as [Hin _].
    apply list_elem_of_fmap. exists (k', e'). split; [done|].
    by apply list_elem_of_In.
  - by apply IH.
Qed.

(** C2: an entry of the dict of a symbol whose oid no other dict has, the
    keys of the dict being distinct, that fires on a tick of a quote of the
    symbol: the scan of that tick sends one [Status] (alert_triggered or
    dark_triggered) for the oid, no two messages for one oid, and takes the
    oid out of the dict; from then on the oid is in no dict, and on every
    later stream of quotes the trigger loop sends no [BrokerdOrder] and no
    [Status] for that oid. *)
Theorem entry_fires_at_most_once (clock : nat → Z) (broker symbol : string)
    (w : World) (sym : string) (l : addr) (t : tick) (oid : string)
    (e : entry) :
  orders (book w) !! sym = Some l →
  NoDup (dict_keys (dict_at (book w) l)) →
  (oid, e) ∈ dict_at (book w) l →
  (∀ l', l' ≠ l → oid ∉ dict_keys (dict_at (book w) l')) →
  str_in (tk_type t) ["ask"; "bid"; "trade"; "last"] = true →
  fires e t = true →
  ∃ (symbol' : string) (w' : World) (nb : list flow_msg)
    (nc : list client_msg) (now : Z),
    scan_quotes clock broker [(sym, [t])] symbol w = Ret symbol' w' ∧
    to_brokerd w' = (to_brokerd w ++ nb)%list ∧
    to_client w' = (to_client w ++ nc)%list ∧
    trigger_status broker t oid e now ∈ nc ∧
    NoDup (client_oid <$> nc) ∧
    NoDup (flow_oid <$> nb) ∧
    (oid ∉ dict_keys (dict_at (book w') l)) ∧
    ¬ registered (book w') oid ∧
    ∀ (stream : list (list (string * quote))) (symbol'' : string),
      quiet oid w'
        (outcome_world (clear_dark_triggers clock broker symbol'' stream w')).
Proof.
  intros Hl Hnd Hin Hother Ht Hf.
  destruct (scan_tick_scanned clock broker sym l t symbol w Hnd)
    as (symbol' & w1 & w' & Hrun & Hsc & Hd & _ & _ & _ & Hb & Hc & _).
  destruct (scanned_sent _ _ _ _ _ _ _ _ _ Hsc)
    as (nb & nc & Hnb & Hnc & Hbo & Hco & Hst & _ & _).
  destruct (Hst oid e Hin Hf) as [now Hstatus].
  pose proof (scanned_frame _ _ _ _ _ _ _ _ _ Hsc) as (_ & _ & _ & Hd1).
  pose proof (scanned_dict _ _ _ _ _ _ _ _ _ Hsc) as (_ & _ & Hgone).
  assert (Hgone' : oid ∉ dict_keys (dict_at (book w') l)).
  { unfold dict_at. rewrite Hd. by eapply (proj2 (Hgone Hnd)). }
  assert (Hr : ¬ registered (book w') oid).
  { intros (l' & d & Hl' & Hd'). destruct (decide (l' = l)) as [->|Hne].
    - apply Hgone'. by rewrite (dict_at_lookup _ _ _ Hl').
    - apply (Hother l' Hne). rewrite Hd, (Hd1 l' Hne) in Hl'. simpl in Hl'.
      by rewrite (dict_at_lookup _ _ _ Hl'). }
  exists symbol', w', nb, nc, now.
  split; [by rewrite (scan_quotes_single _ _ _ l)|].
  split; [by rewrite Hb, Hnb|]. split; [by rewrite Hc, Hnc|].
  split; [done|]. split.
  { rewrite Hco. apply (NoDup_fmap_2 _). by apply NoDup_keys_filter. }
  split; [rewrite Hbo; by apply NoDup_keys_filter|].
  split; [done|]. split; [done|].
  intros stream symbol''. by apply clear_dark_triggers_quiet.
Qed.

Lemma entry_fires_at_most_once_witness :
  ∃ (w' : World) (now : Z),
    scan_quotes Scenario.clk "ib" [("aapl", [Scenario.ask_144_9])] "aapl"
      (initial_world Scenario.dark_book) = Ret "aapl" w' ∧
    to_client w'
      = [trigger_status "ib" Scenario.ask_144_9 "o1"
           (dark_entry Scenario.dark_buy_145 (Some (check_lt (Num 145)))
              (Num (1 # 100))) now] ∧
    quiet "o1" w'
      (outcome_world
         (clear_dark_triggers Scenario.clk "ib" "aapl"
            [[("aapl", [Scenario.ask_144_8])]] w')).
Proof.
  destruct (entry_fires_at_most_once Scenario.clk "ib" "aapl"
              (initial_world Scenario.dark_book) "aapl" 0%nat
              Scenario.ask_144_9 "o1"
              (dark_entry Scenario.dark_buy_145 (Some (check_lt (Num 145)))
                 (Num (1 # 100))))
    as (symbol' & w' & nb & nc & now & Hrun & _ & Hc & Hst & _ & _ & _ & _
        & Hquiet).
  - by vm_compute.
  - vm_compute. apply NoDup_singleton.
  - vm_compute. left.
  - intros l' Hne. unfold dict_at. simpl.
    rewrite lookup_singleton_ne by done. apply not_elem_of_nil.
  - reflexivity.
  - reflexivity.
  - assert (H : scan_quotes Scenario.clk "ib" [("aapl", [Scenario.ask_144_9])]
                  "aapl" (initial_world Scenario.dark_book)
                = Ret symbol' w') by exact Hrun.
    vm_compute in H. injection H as <- <-.
    eexists _, _. split; [by vm_compute|]. split; [by vm_compute|].
    apply Hquiet.
Defined.

(** * Further properties of the code *)

(** ** The scan of one tick, in full *)

Lemma dict_del_app_here (done items : execs) (k : string) (v : entry) :
  k ∉ dict_keys done →
  dict_del (done ++ (k, v) :: items)%list k = (done ++ items)%list.
Proof.
  unfold dict_keys. induction done as [|[k0 v0] done IH]; simpl.
  - intros _. by rewrite String.eqb_refl.
  - rewrite not_elem_of_cons. intros [Hne Hk].
    destruct (String.eqb_spec k0 k) as [->|_]; [done|]. by rewrite IH.
Qed.

(** After a scan the dict holds the items that did not fire, in their
    order. *)
Lemma scanned_survivors (broker sym : string) (l : addr) (t : tick)
    (items : execs) (s s' : string) (w w' : World) :
  scanned broker sym l t items s w s' w' →
  ∀ done : execs,
    dict_at (book w) l = (done ++ items)%list →
    NoDup (dict_keys (done ++ items)%list) →
    dict_at (book w') l = (done ++ survivors t items)%list.
Proof.
  induction 1 as [s w|oid e items s w s' w' Hf Hsc IH
                  |oid e items s w w1 s' w' Hf Hstep Hsc IH];
    intros done Hd Hnd.
  - done.
  - unfold survivors. simpl. rewrite Hf. simpl.
    rewrite (IH (done ++ [(oid, e)])%list).
    + by rewrite <- app_assoc.
    + by rewrite <- app_assoc.
    + by rewrite <- app_assoc.
  - unfold survivors. simpl. rewrite Hf. simpl.
    assert (Hoid : oid ∉ dict_keys done).
    { unfold dict_keys in *. rewrite fmap_app in Hnd.
      apply NoDup_app in Hnd as (_ & Hdis & _). intros Hin.
      apply (Hdis oid Hin). simpl. left. }
    apply IH.
    + rewrite (fired_step_dict _ _ _ _ _ _ _ _ Hstep), Hd.
      by apply dict_del_app_here.
    + unfold dict_keys in *. rewrite fmap_app in *. simpl in Hnd.
      apply NoDup_app in Hnd as (Hnd1 & Hdis & Hnd2).
      apply NoDup_cons in Hnd2 as [_ Hnd2].
      apply NoDup_app. split; [done|]. split; [|done].
      intros k Hk Hk'. apply (Hdis k Hk). by right.
Qed.

(** The body of the tick loop on a dict with distinct keys, with all it
    does to the world. *)
Lemma scan_tick_full (clock : nat → Z) (broker sym : string) (l : addr)
    (t : tick) (symbol : string) (w : World) :
  NoDup (dict_keys (dict_at (book w) l)) →
  ∃ (symbol' : string) (w' : World) (nb : list flow_msg)
    (nc : list client_msg),
    scan_tick clock broker sym l t symbol w = Ret symbol' w' ∧
    to_brokerd w' = (to_brokerd w ++ nb)%list ∧
    to_client w' = (to_client w ++ nc)%list ∧
    flow_oid <$> nb = dict_keys (submitted_items t (dict_at (book w) l)) ∧
    client_oid <$> nc
      = Some <$> dict_keys (fired_items t (dict_at (book w) l)) ∧
    dict_at (book w') l = survivors t (dict_at (book w) l) ∧
    (∀ l', l' ≠ l → dicts (book w') !! l' = dicts (book w) !! l') ∧
    orders (book w')
      = match survivors t (dict_at (book w) l) with
        | [] => orders (book w)
        | _ :: _ => <[symbol' := l]> (orders (book w))
        end ∧
    lasts (book w') = <[(broker, symbol) := tk_price t]> (lasts (book w)) ∧
    ems2brokerd_ids (book w') = ems2brokerd_ids (book w).
Proof.
  intros Hnd.
  destruct (scan_execs_scanned clock broker sym l t (dict_at (book w) l)
              symbol (tick_seen broker symbol t w))
    as (symbol' & w1 & Hrun & Hsc); [done|done|].
  destruct (scanned_sent _ _ _ _ _ _ _ _ _ Hsc)
    as (nb & nc & Hnb & Hnc & Hbo & Hco & _).
  pose proof (scanned_frame _ _ _ _ _ _ _ _ _ Hsc) as (Ho & Hl & Hi & Hd).
  pose proof (scanned_survivors _ _ _ _ _ _ _ _ _ Hsc [] eq_refl Hnd) as Hsv.
  simpl in Hsv.
  unfold scan_tick, mbind, M_bind, modify_book, get_book.
  fold (tick_seen broker symbol t w).
  change (dict_at (book (tick_seen broker symbol t w)) l)
    with (dict_at (book w) l).
  rewrite Hrun. cbv beta iota. exists symbol'. rewrite <- Hsv.
  destruct (dict_at (book w1) l) eqn:Hs.
  - exists w1, nb, nc. split; [done|]. by repeat split.
  - eexists _, nb, nc. split; [reflexivity|]. simpl. rewrite Ho.
    by repeat split.
Qed.

(** X1: on a tick the loop iterates over, the entries of the symbol's dict
    that fire are served in the insertion order of the dict: the oids of
    the [Status] messages sent to the client are the keys of the firing
    entries in dict order, and the oids of the [BrokerdOrder] messages sent
    to the broker are those of the firing entries that are not alerts, in
    the same order. *)
Theorem triggers_fire_in_insertion_order (clock : nat → Z)
    (broker symbol sym : string) (l : addr) (t : tick) (w : World) :
  orders (book w) !! sym = Some l →
  NoDup (dict_keys (dict_at (book w) l)) →
  str_in (tk_type t) ["ask"; "bid"; "trade"; "last"] = true →
  ∃ (symbol' : string) (w' : World) (nb : list flow_msg)
    (nc : list client_msg),
    scan_quotes clock broker [(sym, [t])] symbol w = Ret symbol' w' ∧
    to_brokerd w' = (to_brokerd w ++ nb)%list ∧
    to_client w' = (to_client w ++ nc)%list ∧
    flow_oid <$> nb = dict_keys (submitted_items t (dict_at (book w) l)) ∧
    client_oid <$> nc
      = Some <$> dict_keys (fired_items t (dict_at (book w) l)).
Proof.
  intros Hl Hnd Ht.
  destruct (scan_tick_full clock broker sym l t symbol w Hnd)
    as (symbol' & w' & nb & nc & Hrun & Hb & Hc & Hbo & Hco & _).
  exists symbol', w', nb, nc.
  split; [by rewrite (scan_quotes_single _ _ _ l)|]. by repeat split.
Qed.

Lemma triggers_fire_in_insertion_order_witness :
  ∃ (w' : World) (nb : list flow_msg) (nc : list client_msg),
    scan_quotes Scenario.clk "ib" [("aapl", [Scenario.last_144_9])] "aapl"
      (initial_world Scenario.busy_book) = Ret "aapl" w' ∧
    to_brokerd w' = nb ∧
    to_client w' = nc ∧
    flow_oid <$> nb = ["o1"] ∧
    client_oid <$> nc = [Some "o1"; Some "a1"].
Proof.
  destruct (triggers_fire_in_insertion_order Scenario.clk "ib" "aapl" "aapl"
              0%nat Scenario.last_144_9 (initial_world Scenario.busy_book))
    as (symbol' & w' & nb & nc & Hrun & Hb & Hc & Hbo & Hco).
  - by vm_compute.
  - apply (bool_decide_unpack _). by vm_compute.
  - reflexivity.
  - exists w', nb, nc.
    assert (H : scan_quotes Scenario.clk "ib"
                  [("aapl", [Scenario.last_144_9])] "aapl"
                  (initial_world Scenario.busy_book) = Ret symbol' w')
      by exact Hrun.
    vm_compute in H. injection H as <- _.
    split; [exact Hrun|]. split; [exact Hb|]. split; [exact Hc|].
    split; [rewrite Hbo; by vm_compute|rewrite Hco; by vm_compute].
Defined.

(** X2: after such a tick the dict of the symbol holds the entries that
    did not fire, in their order, and it is still the dict of the symbol in
    [orders], also when it is empty; no other dict object is touched. *)
Theorem tick_leaves_the_entries_that_did_not_fire (clock : nat → Z)
    (broker symbol sym : string) (l : addr) (t : tick) (w : World) :
  orders (book w) !! sym = Some l →
  NoDup (dict_keys (dict_at (book w) l)) →
  str_in (tk_type t) ["ask"; "bid"; "trade"; "last"] = true →
  ∃ (symbol' : string) (w' : World),
    scan_quotes clock broker [(sym, [t])] symbol w = Ret symbol' w' ∧
    dict_at (book w') l = survivors t (dict_at (book w) l) ∧
    orders (book w') !! sym = Some l ∧
    (survivors t (dict_at (book w) l) = [] →
     orders (book w') = orders (book w)) ∧
    ∀ l', l' ≠ l → dicts (book w') !! l' = dicts (book w) !! l'.
Proof.
  intros Hl Hnd Ht.
  destruct (scan_tick_full clock broker sym l t symbol w Hnd)
    as (symbol' & w' & nb & nc & Hrun & _ & _ & _ & _ & Hsv & Hd & Ho & _).
  exists symbol', w'.
  split; [by rewrite (scan_quotes_single _ _ _ l)|].
  split; [done|]. rewrite Ho. split; [|split; [|done]].
  - destruct (survivors t (dict_at (book w) l)); [done|].
    destruct (decide (symbol' = sym)) as [->|Hne].
    + apply lookup_insert_eq.
    + by rewrite lookup_insert_ne.
  - by intros ->.
Qed.

Lemma tick_leaves_the_entries_that_did_not_fire_witness :
  ∃ w' : World,
    scan_quotes Scenario.clk "ib" [("aapl", [Scenario.last_144_9])] "aapl"
      (initial_world Scenario.busy_book) = Ret "aapl" w' ∧
    dict_keys (dict_at (book w') 0%nat) = ["s1"] ∧
    orders (book w') !! "aapl" = Some 0%nat.
Proof.
  destruct (tick_leaves_the_entries_that_did_not_fire Scenario.clk "ib"
              "aapl" "aapl" 0%nat Scenario.last_144_9
              (initial_world Scenario.busy_book))
    as (symbol' & w' & Hrun & Hsv & Ho & _).
  - by vm_compute.
  - apply (bool_decide_unpack _). by vm_compute.
  - reflexivity.
  - exists w'.
    assert (H : scan_quotes Scenario.clk "ib"
                  [("aapl", [Scenario.last_144_9])] "aapl"
                  (initial_world Scenario.busy_book) = Ret symbol' w')
      by exact Hrun.
    vm_compute in H. injection H as <- _.
    split; [exact Hrun|]. split; [rewrite Hsv; by vm_compute|exact Ho].
Defined.

(** ** Alerts, and ticks the loop does not look at *)

Lemma dict_value_unique (d : execs) (k : string) (v v' : entry) :
  NoDup (dict_keys d) → (k, v) ∈ d → (k, v') ∈ d → v = v'.
Proof.
  intros Hnd H1 H2.
  apply (dict_get_NoDup _ _ _ Hnd) in H1.
  apply (dict_get_NoDup _ _ _ Hnd) in H2. congruence.
Qed.

Lemma alert_not_submitted (t : tick) (items : execs) (oid : string)
    (e : entry) :
  NoDup (dict_keys items) → (oid, e) ∈ items → is_alert e = true →
  oid ∉ dict_keys (submitted_items t items).
Proof.
  intros Hnd Hin Hal Hk. unfold dict_keys, submitted_items in Hk.
  apply list_elem_of_fmap in Hk as ([k e'] & -> & Hk).
  apply list_elem_of_In, filter_In in Hk as [Hk Hf]. simpl in *.
  apply list_elem_of_In in Hk.
  rewrite (dict_value_unique _ _ _ _ Hnd Hk Hin) in Hf.
  rewrite Hal in Hf. by rewrite andb_false_r in Hf.
Qed.

(** A scan writes [_ems_entries] only under the oids it submits. *)
Lemma scanned_ems_other (broker sym : string) (l : addr) (t : tick)
    (items : execs) (s s' : string) (w w' : World) :
  scanned broker sym l t items s w s' w' →
  ∀ k, k ∉ dict_keys (submitted_items t items) →
       ems_entries (book w') !! k = ems_entries (book w) !! k.
Proof.
  induction 1 as [s w|oid e items s w s' w' Hf Hsc IH
                  |oid e items s w w1 s' w' Hf Hstep Hsc IH]; intros k Hk.
  - done.
  - apply IH. unfold submitted_items in *. simpl in Hk. by rewrite Hf in Hk.
  - destruct Hstep as (_ & _ & _ & _ & _ & Hbr).
    unfold submitted_items, is_alert, dict_keys in *. simpl in Hk.
    rewrite Hf in Hk. simpl in Hk.
    destruct (String.eqb (o_action (e_cmd e)) "alert"); simpl in Hk.
    + destruct Hbr as [_ He]. rewrite <- He. by apply IH.
    + destruct Hbr as (now & _ & He).
      apply not_elem_of_cons in Hk as [Hne Hk].
      rewrite (IH k Hk), He. by apply lookup_insert_ne.
Qed.

(** X3: an alert entry that fires on a tick only notifies: the client is
    sent [Status(resp='alert_triggered')] with the tick price as trigger
    price, no [BrokerdOrder] for its oid goes to the broker,
    [_ems_entries[oid]] is what it was, and the oid leaves the dict. *)
Theorem alert_trigger_only_notifies (clock : nat → Z)
    (broker symbol sym : string) (l : addr) (t : tick) (w : World)
    (oid : string) (e : entry) :
  orders (book w) !! sym = Some l →
  NoDup (dict_keys (dict_at (book w) l)) →
  (oid, e) ∈ dict_at (book w) l →
  is_alert e = true →
  str_in (tk_type t) ["ask"; "bid"; "trade"; "last"] = true →
  fires e t = true →
  ∃ (symbol' : string) (w' : World) (nb : list flow_msg)
    (nc : list client_msg) (now : Z),
    scan_quotes clock broker [(sym, [t])] symbol w = Ret symbol' w' ∧
    to_brokerd w' = (to_brokerd w ++ nb)%list ∧
    (oid ∉ flow_oid <$> nb) ∧
    to_client w' = (to_client w ++ nc)%list ∧
    CStatus (mkStatus oid (Some "alert_triggered") now
               (Some (o_symbol (e_cmd e))) (Some (tk_price t)) IdNone
               (Some broker) RelayNothing (Some (e_cmd e))) ∈ nc ∧
    ems_entries (book w') !! oid = ems_entries (book w) !! oid ∧
    oid ∉ dict_keys (dict_at (book w') l).
Proof.
  intros Hl Hnd Hin Hal Ht Hf.
  destruct (scan_tick_scanned clock broker sym l t symbol w Hnd)
    as (symbol' & w1 & w' & Hrun & Hsc & Hd & _ & Hems & _ & Hb & Hc & _).
  destruct (scanned_sent _ _ _ _ _ _ _ _ _ Hsc)
    as (nb & nc & Hnb & Hnc & Hbo & _ & Hst & _ & _).
  destruct (Hst oid e Hin Hf) as [now Hstatus].
  pose proof (alert_not_submitted t _ _ _ Hnd Hin Hal) as Hns.
  pose proof (scanned_ems_other _ _ _ _ _ _ _ _ _ Hsc oid Hns) as Hsame.
  pose proof (scanned_dict _ _ _ _ _ _ _ _ _ Hsc) as (_ & _ & Hgone).
  exists symbol', w', nb, nc, now.
  split; [by rewrite (scan_quotes_single _ _ _ l)|].
  split; [by rewrite Hb, Hnb|]. split; [by rewrite Hbo|].
  split; [by rewrite Hc, Hnc|]. split.
  { unfold trigger_status in Hstatus. unfold is_alert in Hal.
    by rewrite Hal in Hstatus. }
  split; [by rewrite Hems, Hsame|].
  unfold dict_at. rewrite Hd. by eapply (proj2 (Hgone Hnd)).
Qed.

Lemma alert_trigger_only_notifies_witness :
  ∃ (w' : World) (nb : list flow_msg) (nc : list client_msg) (now : Z),
    scan_quotes Scenario.clk "ib" [("aapl", [Scenario.last_144_9])] "aapl"
      (initial_world Scenario.busy_book) = Ret "aapl" w' ∧
    to_brokerd w' = nb ∧
    ("a1" ∉ flow_oid <$> nb) ∧
    CStatus (mkStatus "a1" (Some "alert_triggered") now (Some "aapl")
               (Some (Num (1449 # 10))) IdNone (Some "ib") RelayNothing
               (Some Scenario.alert_145)) ∈ to_client w' ∧
    ems_entries (book w') !! "a1" = None.
Proof.
  destruct (alert_trigger_only_notifies Scenario.clk "ib" "aapl" "aapl"
              0%nat Scenario.last_144_9 (initial_world Scenario.busy_book)
              "a1"
              (dark_entry Scenario.alert_145 (Some (check_lt (Num 145)))
                 (Num (1 # 100))))
    as (symbol' & w' & nb & nc & now & Hrun & Hb & Hnb & Hc & Hst & Hems & _).
  - by vm_compute.
  - apply (bool_decide_unpack _). by vm_compute.
  - vm_compute. right. right. left.
  - reflexivity.
  - reflexivity.
  - reflexivity.
  - exists w', nb, nc, now.
    assert (H : scan_quotes Scenario.clk "ib"
                  [("aapl", [Scenario.last_144_9])] "aapl"
                  (initial_world Scenario.busy_book) = Ret symbol' w')
      by exact Hrun.
    vm_compute in H. injection H as <- _.
    split; [exact Hrun|]. split; [exact Hb|]. split; [exact Hnb|].
    split; [rewrite Hc; apply elem_of_app; right; exact Hst|].
    rewrite Hems. reflexivity.
Defined.

Lemma iterticks_none (q : quote) (types : list string) :
  Forall (λ t, str_in (tk_type t) types = false) q → iterticks q types = [].
Proof.
  unfold iterticks. induction 1 as [|t q Ht _ IH]; simpl; [done|].
  by rewrite Ht.
Qed.

(** X4: a quote that carries no tick of type ask, bid, trade or last does
    nothing at all, whatever the book holds: no entry fires, nothing is
    sent and [lasts] is not written.  A ['utrade'] tick is such a tick, so
    it never triggers an alert although the tick filter of an alert lists
    ['utrade']. *)
Theorem other_tick_types_are_ignored (clock : nat → Z)
    (broker symbol sym : string) (q : quote) (w : World) :
  Forall (λ t, str_in (tk_type t) ["ask"; "bid"; "trade"; "last"] = false)
    q →
  scan_quotes clock broker [(sym, q)] symbol w = Ret symbol w.
Proof.
  intros Hq. simpl. unfold scan_quote, mbind, M_bind, get_book.
  rewrite (iterticks_none _ _ Hq).
  by destruct (orders (book w) !! sym).
Qed.

Lemma other_tick_types_are_ignored_witness :
  fires (dark_entry Scenario.alert_145 (Some (check_lt (Num 145)))
           (Num (1 # 100))) (mkTick "utrade" (Num 144)) = true ∧
  scan_quotes Scenario.clk "ib"
    [("aapl", [mkTick "utrade" (Num 144); mkTick "bsize" (Num 144)])]
    "aapl" (initial_world Scenario.busy_book)
    = Ret "aapl" (initial_world Scenario.busy_book).
Proof.
  split; [reflexivity|].
  apply other_tick_types_are_ignored.
  repeat constructor.
Defined.

(** X5: for two numbers that differ, [mk_check] returns a predicate that
    does not hold at the known last price and holds at the trigger price,
    so the entry it is registered with cannot fire on a tick at the known
    last price; when the trigger price or the known last price is NaN it
    returns [None]. *)
Theorem mk_check_false_at_known_last :
  (∀ (t k : Q) (action : string),
     ¬ (t == k)%Q →
     ∃ c : check,
       mk_check (Num t) (Num k) action = Some c ∧
       call_check c (Num k) = false ∧
       call_check c (Num t) = true) ∧
  (∀ (x : pyfloat) (action : string),
     mk_check NaN x action = None ∧ mk_check x NaN action = None).
Proof.
  split.
  - intros t k action Hne. unfold mk_check.
    destruct (fge (Num t) (Num k)) eqn:Hge.
    + exists (check_gt (Num t)). split; [done|]. simpl. split.
      * apply not_true_is_false. intros Hkt.
        apply Qle_bool_iff in Hge, Hkt. apply Hne. by apply Qle_antisym.
      * apply Qle_bool_iff, Qle_refl.
    + assert (Hlt : (t < k)%Q).
      { apply Qnot_le_lt. intros H. apply Qle_bool_iff in H.
        simpl in Hge. congruence. }
      assert (Hle : fle (Num t) (Num k) = true)
        by by apply Qle_bool_iff, Qlt_le_weak.
      rewrite Hle. exists (check_lt (Num t)). split; [done|]. simpl. split.
      * apply not_true_is_false. intros Hkt. apply Qle_bool_iff in Hkt.
        by apply Qle_not_lt in Hkt.
      * apply Qle_bool_iff, Qle_refl.
  - intros x action. split; [done|]. by destruct x.
Qed.

Lemma mk_check_false_at_known_last_witness :
  ∃ c : check,
    mk_check (Num 145) (Num 150) "buy" = Some c ∧
    call_check c (Num 150) = false ∧
    call_check c (Num 145) = true.
Proof.
  apply (proj1 mk_check_false_at_known_last 145%Q 150%Q "buy").
  by vm_compute.
Defined.

(** ** More of the translator *)

(** An event that is neither a position nor an ack and resolves to an oid
    goes to the tail of the loop body with that oid. *)
Lemma resolved_event_relayed (clock : nat → Z) (m : brokerd_msg) (w : World)
    (oid : string) :
  bm_name m ≠ "position" →
  bm_name m ≠ "ack" →
  resolved_oid (book w) m = Some oid →
  translate_and_relay_brokerd_event clock m w
    = relay_event clock (bm_name m) (bm_reqid m) oid m w.
Proof.
  intros Hpos Hack Hres.
  unfold translate_and_relay_brokerd_event, resolved_oid, event_oid in *.
  destruct (String.eqb_spec (bm_name m) "position") as [|_]; [done|].
  unfold mbind, M_bind, get_book.
  destruct (match bm_oid m with
            | Some v => v
            | None => bidict_inverse_get (ems2brokerd_ids (book w)) (bm_reqid m)
            end) as [o|].
  - destruct (String.eqb_spec (bm_name m) "ack") as [|_]; [done|].
    destruct (ems_entries (book w) !! o) as [entry|]; [|done].
    simpl in Hres. by injection Hres as <-.
  - destruct (bm_broker_details m) as [[paper_oid|]|]; try done.
    by injection Hres as <-.
Qed.

(** X6: an ['error'] event of the broker is never relayed: whatever it
    carries and however its oid resolves, nothing is sent to the client or
    to the broker and the book is not changed; when it resolves to an oid
    the loop just goes on. *)
Theorem error_events_are_not_relayed (clock : nat → Z) (m : brokerd_msg)
    (w : World) :
  bm_name m = "error" →
  outcome_world (translate_and_relay_brokerd_event clock m w) = w ∧
  (is_Some (resolved_oid (book w) m) →
   translate_and_relay_brokerd_event clock m w = Ret tt w).
Proof.
  intros Hname. split.
  - unfold translate_and_relay_brokerd_event. rewrite Hname. simpl.
    unfold mbind, M_bind, get_book.
    destruct (match bm_oid m with
              | Some v => v
              | None =>
                  bidict_inverse_get (ems2brokerd_ids (book w)) (bm_reqid m)
              end) as [o|].
    + by destruct (ems_entries (book w) !! o).
    + by destruct (bm_broker_details m) as [[paper_oid|]|].
  - intros [oid Hres].
    rewrite (resolved_event_relayed clock m w oid); [|by rewrite Hname..|done].
    by rewrite Hname.
Qed.

Lemma error_events_are_not_relayed_witness :
  translate_and_relay_brokerd_event Scenario.clk
    (Scenario.event_o2 "error" "" (Num 0))
    (initial_world Scenario.acked_book)
    = Ret tt (initial_world Scenario.acked_book).
Proof.
  apply error_events_are_not_relayed; [reflexivity|].
  exists "o2". by vm_compute.
Defined.

(** X7: an event that is not a position, carries no oid and whose reqid
    [_ems2brokerd_ids] does not know: with a ['broker_details'] that has no
    ['paper_info'] it is dropped, nothing is sent and nothing changes,
    whether it is marked external or not; without the key
    ['broker_details'] the loop ends on a [KeyError]. *)
Theorem unknown_reqid_event_is_dropped (clock : nat → Z) (m : brokerd_msg)
    (w : World) :
  bm_name m ≠ "position" →
  event_oid (book w) m = None →
  (bm_broker_details m = Some None →
   translate_and_relay_brokerd_event clock m w = Ret tt w) ∧
  (bm_broker_details m = None →
   translate_and_relay_brokerd_event clock m w
     = Raise (KeyError "broker_details") w).
Proof.
  intros Hpos Hoid.
  unfold translate_and_relay_brokerd_event, event_oid in *.
  destruct (String.eqb_spec (bm_name m) "position") as [|_]; [done|].
  unfold mbind, M_bind, get_book. rewrite Hoid.
  split; by intros ->.
Qed.

Lemma unknown_reqid_event_is_dropped_witness :
  translate_and_relay_brokerd_event Scenario.clk
    (Scenario.event_reqid_7 "status" "submitted" (Some None))
    (initial_world Scenario.live_book)
    = Ret tt (initial_world Scenario.live_book) ∧
  translate_and_relay_brokerd_event Scenario.clk
    (Scenario.event_reqid_7 "status" "submitted" None)
    (initial_world Scenario.live_book)
    = Raise (KeyError "broker_details") (initial_world Scenario.live_book).
Proof.
  split.
  - apply unknown_reqid_event_is_dropped; [discriminate|reflexivity..].
  - apply unknown_reqid_event_is_dropped; [discriminate|reflexivity..].
Defined.

Lemma bidict_inverse_get_del (b : bidict) (oid : string) (reqid : pyid) :
  bidict_inverse_get b reqid = None →
  bidict_inverse_get (bidict_del b oid) reqid = None.
Proof.
  induction b as [|[k v] b IH]; simpl; [done|].
  destruct (decide (v = reqid)); [done|]. intros H.
  destruct (String.eqb k oid); simpl; [done|].
  destruct (decide (v = reqid)); [done|]. by apply IH.
Qed.

Lemma bidict_inverse_get_snoc (b : bidict) (oid : string) (reqid : pyid) :
  bidict_inverse_get b reqid = None →
  bidict_inverse_get (b ++ [(oid, reqid)])%list reqid = Some oid.
Proof.
  induction b as [|[k v] b IH]; simpl.
  - intros _. by destruct (decide (reqid = reqid)).
  - destruct (decide (v = reqid)); [done|]. apply IH.
Qed.

(** Binding a free reqid to an oid succeeds, and the inverse lookup of the
    reqid then gives the oid. *)
Lemma bidict_set_free (b : bidict) (oid : string) (reqid : pyid) :
  reqid_free b oid reqid →
  ∃ b' : bidict,
    bidict_set b oid reqid = inr b' ∧
    bidict_inverse_get b' reqid = Some oid.
Proof.
  unfold bidict_set. intros [H|H]; rewrite H.
  - eexists. split; [done|].
    by apply bidict_inverse_get_snoc, bidict_inverse_get_del.
  - rewrite String.eqb_refl. by exists b.
Qed.

(** X8: the ack of an order whose live flow entry is not a cancel: nothing
    is sent to the client or to the broker; the entry is replaced by the
    [BrokerdOrderAck]; the reqid is bound to the oid in [_ems2brokerd_ids],
    so that a later event that carries this reqid and no oid resolves to
    the oid; [orders], the dicts and [lasts] stay as they are. *)
Theorem ack_registers_reqid (clock : nat → Z) (m : brokerd_msg) (w : World)
    (oid : string) (entry : flow_msg) (action : string) :
  bm_name m = "ack" →
  bm_oid m = Some (Some oid) →
  ems_entries (book w) !! oid = Some entry →
  flow_action entry = inr action →
  action ≠ "cancel" →
  reqid_free (ems2brokerd_ids (book w)) oid (bm_reqid m) →
  ∃ w' : World,
    translate_and_relay_brokerd_event clock m w = Ret tt w' ∧
    to_client w' = to_client w ∧
    to_brokerd w' = to_brokerd w ∧
    ems_entries (book w')
      = <[oid := FAck (mkBrokerdOrderAck (bm_reqid m) oid (bm_time_ns m))]>
          (ems_entries (book w)) ∧
    bidict_inverse_get (ems2brokerd_ids (book w')) (bm_reqid m) = Some oid ∧
    (∀ m' : brokerd_msg,
       bm_oid m' = None → bm_reqid m' = bm_reqid m →
       event_oid (book w') m' = Some oid) ∧
    orders (book w') = orders (book w) ∧
    dicts (book w') = dicts (book w) ∧
    lasts (book w') = lasts (book w).
Proof.
  intros Hname Hoid Hentry Haction Hne Hfree.
  destruct (bidict_set_free _ _ _ Hfree) as (ids' & Hset & Hinv).
  unfold translate_and_relay_brokerd_event. rewrite Hname, Hoid. simpl.
  unfold mbind, M_bind, get_book at 1. simpl. rewrite Hentry, Hset. simpl.
  unfold mbind, M_bind, modify_book. simpl. rewrite Haction. simpl.
  destruct (String.eqb_spec action "cancel") as [|_]; [done|].
  unfold BrokerdOrderAck_of. rewrite Hoid. simpl.
  eexists. split; [reflexivity|]. simpl. repeat split; try done.
  intros m' Hm' Hreq. unfold event_oid. simpl. by rewrite Hm', Hreq.
Qed.

Lemma ack_registers_reqid_witness :
  ∃ w' : World,
    translate_and_relay_brokerd_event Scenario.clk
      (Scenario.event_o2 "ack" "" (Num 0))
      (initial_world Scenario.live_book) = Ret tt w' ∧
    to_client w' = [] ∧
    event_oid (book w')
      (Scenario.event_reqid_7 "status" "submitted" (Some None)) = Some "o2".
Proof.
  destruct (ack_registers_reqid Scenario.clk
              (Scenario.event_o2 "ack" "" (Num 0))
              (initial_world Scenario.live_book) "o2"
              (FOrder (mkBrokerdOrder "sell" "o2" 0 IdNone "aapl" (Num 101)
                         (Num 10))) "sell")
    as (w' & Hrun & Hc & _ & _ & _ & Hlater & _).
  - reflexivity.
  - reflexivity.
  - by vm_compute.
  - reflexivity.
  - discriminate.
  - left. reflexivity.
  - exists w'. split; [exact Hrun|]. split; [exact Hc|].
    apply Hlater; reflexivity.
Defined.

(** X9: the ack of an order whose live flow entry is a buffered
    [BrokerdCancel]: the reqid of the ack is put into the cancel, the
    cancel goes to the broker, and it stays the entry of the oid; nothing
    is sent to the client, and the reqid is bound to the oid. *)
Theorem ack_forwards_buffered_cancel (clock : nat → Z) (m : brokerd_msg)
    (w : World) (oid : string) (cancel : BrokerdCancel) :
  bm_name m = "ack" →
  event_oid (book w) m = Some oid →
  ems_entries (book w) !! oid = Some (FCancel cancel) →
  reqid_free (ems2brokerd_ids (book w)) oid (bm_reqid m) →
  ∃ w' : World,
    translate_and_relay_brokerd_event clock m w = Ret tt w' ∧
    to_brokerd w'
      = (to_brokerd w ++
         [FCancel (mkBrokerdCancel (bc_oid cancel) (bm_reqid m)
                     (bc_time_ns cancel))])%list ∧
    to_client w' = to_client w ∧
    ems_entries (book w') !! oid
      = Some (FCancel (mkBrokerdCancel (bc_oid cancel) (bm_reqid m)
                         (bc_time_ns cancel))) ∧
    bidict_inverse_get (ems2brokerd_ids (book w')) (bm_reqid m) = Some oid.
Proof.
  intros Hname Hoid Hentry Hfree.
  destruct (bidict_set_free _ _ _ Hfree) as (ids' & Hset & Hinv).
  unfold translate_and_relay_brokerd_event, event_oid in *.
  rewrite Hname. simpl. unfold mbind, M_bind, get_book at 1. simpl.
  rewrite Hoid, Hentry, Hset. simpl.
  eexists. split; [reflexivity|]. simpl. repeat split; try done.
  apply lookup_insert_eq.
Qed.

Lemma ack_forwards_buffered_cancel_witness :
  ∃ w' : World,
    translate_and_relay_brokerd_event Scenario.clk
      (Scenario.event_o2 "ack" "" (Num 0))
      (initial_world Scenario.buffered_cancel_book) = Ret tt w' ∧
    to_brokerd w' = [FCancel (mkBrokerdCancel "o2" (IdInt 7) 5)] ∧
    to_client w' = [].
Proof.
  destruct (ack_forwards_buffered_cancel Scenario.clk
              (Scenario.event_o2 "ack" "" (Num 0))
              (initial_world Scenario.buffered_cancel_book) "o2"
              (mkBrokerdCancel "o2" IdNone 5))
    as (w' & Hrun & Hb & Hc & _).
  - reflexivity.
  - reflexivity.
  - by vm_compute.
  - left. reflexivity.
  - exists w'. split; [exact Hrun|]. split; [exact Hb|exact Hc].
Defined.

(** X10: a ['fill'] event that resolves to an oid: exactly one [Status]
    goes to the client, with [resp='broker_filled'], the event's reqid and
    the [BrokerdFill] message as relayed message; nothing goes to the
    broker and the book is not changed. *)
Theorem fill_event_relayed (clock : nat → Z) (m : brokerd_msg) (w : World)
    (oid : string) :
  bm_name m = "fill" →
  resolved_oid (book w) m = Some oid →
  translate_and_relay_brokerd_event clock m w
    = Ret tt
        (mkWorld (book w) (to_brokerd w)
           (to_client w ++
            [CStatus (mkStatus oid (Some "broker_filled")
                        (clock (clock_reads w)) None None (bm_reqid m) None
                        (RelayFill (BrokerdFill_of m)) None)])%list
           (S (clock_reads w))).
Proof.
  intros Hname Hres.
  rewrite (resolved_event_relayed clock m w oid); [|by rewrite Hname..|done].
  by rewrite Hname.
Qed.

Lemma fill_event_relayed_witness :
  ∃ st : Status,
    to_client (outcome_world
                 (translate_and_relay_brokerd_event Scenario.clk
                    (Scenario.event_o2 "fill" "" (Num 0))
                    (initial_world Scenario.acked_book))) = [CStatus st] ∧
    st_resp st = Some "broker_filled" ∧
    st_oid st = "o2".
Proof.
  rewrite (fill_event_relayed Scenario.clk
             (Scenario.event_o2 "fill" "" (Num 0))
             (initial_world Scenario.acked_book) "o2");
    [|reflexivity|by vm_compute].
  eexists. split; [reflexivity|]. split; reflexivity.
Defined.

(** X11: an event that resolves to an oid and whose name is none of
    ['position'], ['ack'], ['error'], ['status'], ['fill'] ends the loop on
    a [ValueError]; nothing was sent and nothing changed. *)
Theorem unknown_event_name_raises (clock : nat → Z) (m : brokerd_msg)
    (w : World) (oid : string) :
  str_in (bm_name m) ["position"; "ack"; "error"; "status"; "fill"] = false →
  resolved_oid (book w) m = Some oid →
  translate_and_relay_brokerd_event clock m w = Raise ValueError w.
Proof.
  unfold str_in. simpl. rewrite !orb_false_iff.
  intros (Hpos & Hack & Herr & Hst & Hfill & _) Hres.
  rewrite (resolved_event_relayed clock m w oid); [| | |done].
  - unfold relay_event. by rewrite Herr, Hst, Hfill.
  - intros H. by rewrite H in Hpos.
  - intros H. by rewrite H in Hack.
Qed.

Lemma unknown_event_name_raises_witness :
  translate_and_relay_brokerd_event Scenario.clk
    (Scenario.event_o2 "Status" "filled" (Num 0))
    (initial_world Scenario.acked_book)
    = Raise ValueError (initial_world Scenario.acked_book).
Proof.
  apply (unknown_event_name_raises _ _ _ "o2"); [reflexivity|by vm_compute].
Defined.

(** ** More of the command loop *)

(** X12: a live buy or sell whose oid has no live flow entry yet, or one
    with the same oid and a reqid: one [BrokerdOrder] with the command's
    action, symbol, price and size goes to the broker and becomes
    [_ems_entries[oid]]; nothing is sent to the client, and [orders], the
    dicts, [lasts] and the id map are not touched. *)
Theorem live_submit_goes_to_broker (clock : nat → Z) (symbol : string)
    (feed : gmap string pyfloat) (cmd : Order) (msg : option flow_msg)
    (w : World) (broker : string) (rest : list string) :
  str_in (o_action cmd) ["buy"; "sell"] = true →
  o_exec_mode cmd = "live" →
  o_brokers cmd = broker :: rest →
  (∀ live_entry, ems_entries (book w) !! o_oid cmd = Some live_entry →
                 flow_oid live_entry = o_oid cmd ∧
                 ∃ r, flow_reqid live_entry = inr r) →
  let order :=
    FOrder (mkBrokerdOrder (o_action cmd) (o_oid cmd) (clock (clock_reads w))
              (cmd_reqid (book w) (o_oid cmd)) (o_symbol cmd) (o_price cmd)
              (o_size cmd)) in
  process_client_order_cmd clock symbol feed cmd msg w
    = Ret (Some order)
        (mkWorld (set_ems_entry (o_oid cmd) order (book w))
           (to_brokerd w ++ [order])%list (to_client w)
           (S (clock_reads w))).
Proof.
  intros Hact Hmode Hbrokers Hlive order.
  assert (Hsub : str_in (o_action cmd) ["alert"; "buy"; "sell"] = true).
  { unfold str_in in *. simpl in *. rewrite Hact. apply orb_true_r. }
  unfold process_client_order_cmd.
  rewrite (submit_not_cancel _ Hsub), Hsub, Hbrokers, Hmode, Hact. simpl.
  unfold mbind, M_bind, get_book at 1. simpl.
  destruct (ems_entries (book w) !! o_oid cmd) as [live_entry|] eqn:He.
  - destruct (Hlive live_entry eq_refl) as (Hoid & r & Hr).
    rewrite Hoid, String.eqb_refl, Hr. reflexivity.
  - reflexivity.
Qed.

Lemma live_submit_goes_to_broker_witness :
  ∃ w' : World,
    process_client_order_cmd Scenario.clk "aapl" Scenario.feed_aapl
      Scenario.live_sell None (initial_world (Scenario.book_last (Num 100)))
      = Ret (Some (FOrder (mkBrokerdOrder "sell" "o2" 0 IdNone "aapl"
                             (Num 101) (Num 10)))) w' ∧
    to_client w' = [] ∧
    to_brokerd w' = [FOrder (mkBrokerdOrder "sell" "o2" 0 IdNone "aapl"
                               (Num 101) (Num 10))].
Proof.
  rewrite (live_submit_goes_to_broker Scenario.clk "aapl" Scenario.feed_aapl
             Scenario.live_sell None
             (initial_world (Scenario.book_last (Num 100))) "ib" []).
  - eexists. split; [reflexivity|]. split; reflexivity.
  - reflexivity.
  - reflexivity.
  - reflexivity.
  - intros live_entry H. by vm_compute in H.
Defined.

(** X13: the cancel of an order that has a live flow entry with a reqid
    attribute: one [BrokerdCancel] for the oid goes to the broker, with the
    reqid the command loop looked up or else the reqid of the entry (the
    one of the ack, once the order is acked); nothing is sent to the client
    and the book is not changed. *)
Theorem live_cancel_goes_to_broker (clock : nat → Z) (symbol : string)
    (feed : gmap string pyfloat) (cmd : Order) (msg : option flow_msg)
    (w : World) (live_entry : flow_msg) (r : pyid) :
  o_action cmd = "cancel" →
  ems_entries (book w) !! o_oid cmd = Some live_entry →
  flow_reqid live_entry = inr r →
  let cancel :=
    FCancel (mkBrokerdCancel (o_oid cmd)
               (id_or (cmd_reqid (book w) (o_oid cmd)) r)
               (clock (clock_reads w))) in
  process_client_order_cmd clock symbol feed cmd msg w
    = Ret (Some cancel)
        (mkWorld (book w) (to_brokerd w ++ [cancel])%list (to_client w)
           (S (clock_reads w))).
Proof.
  intros Hact Hlive Hr cancel. unfold process_client_order_cmd.
  rewrite Hact. simpl. unfold mbind, M_bind, get_book at 1. simpl.
  rewrite Hlive. unfold cancel, id_or, cmd_reqid.
  destruct (id_truthy _); [done|]. by rewrite Hr.
Qed.

Lemma live_cancel_goes_to_broker_witness :
  ∃ w' : World,
    process_client_order_cmd Scenario.clk "aapl" Scenario.feed_aapl
      Scenario.cancel_o2 None (initial_world Scenario.acked_book)
      = Ret (Some (FCancel (mkBrokerdCancel "o2" (IdInt 7) 0))) w' ∧
    to_brokerd w' = [FCancel (mkBrokerdCancel "o2" (IdInt 7) 0)] ∧
    to_client w' = [] ∧
    book w' = Scenario.acked_book.
Proof.
  rewrite (live_cancel_goes_to_broker Scenario.clk "aapl" Scenario.feed_aapl
             Scenario.cancel_o2 None (initial_world Scenario.acked_book)
             (FAck (mkBrokerdOrderAck (IdInt 7) "o2" 0)) (IdInt 7)).
  - eexists. split; [reflexivity|]. repeat split.
  - reflexivity.
  - by vm_compute.
  - reflexivity.
Defined.

(** X14: the cancel of an oid without live flow entry, after an earlier
    command has bound the local [msg], in a session whose symbol has a dict
    in [orders]: the oid is taken out of that dict, the other entries
    stay, and the client is sent [Status(resp='dark_cancelled')], whether
    the oid was in the dict or not; nothing goes to the broker; the message
    the earlier command left in [msg] becomes [_ems_entries[oid]]. *)
Theorem dark_cancel_removes_entry (clock : nat → Z) (symbol : string)
    (feed : gmap string pyfloat) (cmd : Order) (m : flow_msg) (w : World)
    (l : addr) :
  o_action cmd = "cancel" →
  ems_entries (book w) !! o_oid cmd = None →
  orders (book w) !! symbol = Some l →
  NoDup (dict_keys (dict_at (book w) l)) →
  ∃ w' : World,
    process_client_order_cmd clock symbol feed cmd (Some m) w
      = Ret (Some m) w' ∧
    to_brokerd w' = to_brokerd w ∧
    to_client w'
      = (to_client w ++
         [CStatus (mkStatus (o_oid cmd) (Some "dark_cancelled")
                     (clock (clock_reads w)) None None IdNone None
                     RelayNothing None)])%list ∧
    (o_oid cmd ∉ dict_keys (dict_at (book w') l)) ∧
    (∀ k v, k ≠ o_oid cmd → (k, v) ∈ dict_at (book w) l →
            (k, v) ∈ dict_at (book w') l) ∧
    orders (book w') = orders (book w) ∧
    ems_entries (book w') !! o_oid cmd = Some m.
Proof.
  intros Hact Hlive Hl Hnd. unfold process_client_order_cmd.
  rewrite Hact. simpl. unfold mbind, M_bind, get_book at 1. simpl.
  rewrite Hlive, Hl. run_monad.
  eexists. split; [reflexivity|]. simpl.
  split; [done|]. split; [done|].
  unfold dict_at. simpl. rewrite lookup_insert_eq. simpl.
  split; [by apply dict_del_not_in|].
  split; [|split; [done|apply lookup_insert_eq]].
  intros k v Hne Hin. apply dict_del_other; [congruence|done].
Qed.

Lemma dark_cancel_removes_entry_witness :
  ∃ w' : World,
    process_client_order_cmd Scenario.clk "aapl" Scenario.feed_aapl
      Scenario.cancel_o1
      (Some (FClientOrder Scenario.dark_buy_145))
      (initial_world Scenario.busy_book)
      = Ret (Some (FClientOrder Scenario.dark_buy_145)) w' ∧
    dict_keys (dict_at (book w') 0%nat) = ["s1"; "a1"] ∧
    ems_entries (book w') !! "o1" = Some (FClientOrder Scenario.dark_buy_145).
Proof.
  destruct (dark_cancel_removes_entry Scenario.clk "aapl" Scenario.feed_aapl
              Scenario.cancel_o1 (FClientOrder Scenario.dark_buy_145)
              (initial_world Scenario.busy_book) 0%nat)
    as (w' & Hrun & _ & _ & _ & _ & _ & Hems).
  - reflexivity.
  - by vm_compute.
  - by vm_compute.
  - apply (bool_decide_unpack _). by vm_compute.
  - exists w'. split; [exact Hrun|]. split; [|exact Hems].
    assert (H : process_client_order_cmd Scenario.clk "aapl"
                  Scenario.feed_aapl Scenario.cancel_o1
                  (Some (FClientOrder Scenario.dark_buy_145))
                  (initial_world Scenario.busy_book)
                = Ret (Some (FClientOrder Scenario.dark_buy_145)) w')
      by exact Hrun.
    vm_compute in H. injection H as <-. by vm_compute.
Defined.

(** X15: a submission that cannot be carried out leaves no trace.  With an
    empty [brokers] list it ends the loop on an [IndexError]; on the dark
    path, without a last price for its first broker and symbol, or without
    the symbol in the feed, on a [KeyError]; in each case nothing was sent
    and the book is as before.  A command whose action is none of cancel,
    alert, buy, sell is skipped. *)
Theorem failed_submission_leaves_no_trace (clock : nat → Z) (symbol : string)
    (feed : gmap string pyfloat) (cmd : Order) (msg : option flow_msg)
    (w : World) :
  (str_in (o_action cmd) ["alert"; "buy"; "sell"] = true →
   o_brokers cmd = [] →
   process_client_order_cmd clock symbol feed cmd msg w
     = Raise IndexError w) ∧
  (∀ broker rest,
     takes_dark_path cmd →
     o_brokers cmd = broker :: rest →
     lasts (book w) !! (broker, o_symbol cmd) = None ∨
     feed !! o_symbol cmd = None →
     process_client_order_cmd clock symbol feed cmd msg w
       = Raise (KeyError (o_symbol cmd)) w) ∧
  (str_in (o_action cmd) ["cancel"; "alert"; "buy"; "sell"] = false →
   process_client_order_cmd clock symbol feed cmd msg w = Ret msg w).
Proof.
  split; [|split].
  - intros Hact Hbrokers. unfold process_client_order_cmd.
    by rewrite (submit_not_cancel _ Hact), Hact, Hbrokers.
  - intros broker rest (Hact & Hlive & Hdark) Hbrokers Hmiss.
    unfold process_client_order_cmd.
    rewrite (submit_not_cancel _ Hact), Hact, Hbrokers, Hlive, Hdark.
    unfold mbind, M_bind, get_book at 1. simpl.
    destruct (lasts (book w) !! (broker, o_symbol cmd)) as [last|]; [|done].
    destruct Hmiss as [?|Hfeed]; [done|]. by rewrite Hfeed.
  - unfold str_in. simpl. intros H. unfold process_client_order_cmd.
    apply orb_false_iff in H as [Hc H]. rewrite Hc.
    unfold str_in. simpl. by rewrite H.
Qed.

Lemma failed_submission_leaves_no_trace_witness :
  let w := initial_world (Scenario.book_last (Num 100)) in
  process_client_order_cmd Scenario.clk "aapl" Scenario.feed_aapl
    Scenario.no_broker_buy None w = Raise IndexError w ∧
  process_client_order_cmd Scenario.clk "aapl" Scenario.feed_aapl
    Scenario.dark_buy_msft None w = Raise (KeyError "msft") w ∧
  process_client_order_cmd Scenario.clk "aapl" Scenario.feed_aapl
    Scenario.hold_o8 None w = Ret None w.
Proof.
  intros w. split; [|split].
  - apply failed_submission_leaves_no_trace; reflexivity.
  - apply (proj1 (proj2 (failed_submission_leaves_no_trace Scenario.clk
                           "aapl" Scenario.feed_aapl Scenario.dark_buy_msft
                           None w)) "ib" []).
    + by vm_compute.
    + reflexivity.
    + left. by vm_compute.
  - apply failed_submission_leaves_no_trace. reflexivity.
Defined.

Lemma dict_set_keys (d : execs) (k : string) (v : entry) :
  dict_keys (dict_set d k v)
    = if decide (k ∈ dict_keys d) then dict_keys d
      else (dict_keys d ++ [k])%list.
Proof.
  unfold dict_keys. induction d as [|[k0 v0] d IH].
  - done.
  - simpl dict_set. destruct (String.eqb_spec k0 k) as [->|Hne].
    + rewrite !fmap_cons. simpl.
      destruct (decide (k ∈ k :: d.*1)) as [_|H]; [done|].
      exfalso. apply H. left.
    + rewrite !fmap_cons, IH. simpl.
      destruct (decide (k ∈ d.*1)) as [Hin|Hin];
        destruct (decide (k ∈ k0 :: d.*1)) as [H|H]; try done.
      * exfalso. apply H. by right.
      * apply elem_of_cons in H as [H|H]; [congruence|done].
Qed.

Lemma dict_set_NoDup (d : execs) (k : string) (v : entry) :
  NoDup (dict_keys d) → NoDup (dict_keys (dict_set d k v)).
Proof.
  intros Hnd. rewrite dict_set_keys.
  destruct (decide (k ∈ dict_keys d)) as [|Hk]; [done|].
  apply NoDup_app. split; [done|]. split; [|apply NoDup_singleton].
  intros x Hx Hx'. apply list_elem_of_singleton in Hx'. by subst.
Qed.

Lemma dict_at_set_dict (b : DarkBook) (l : addr) (d : execs) :
  dict_at (set_dict l d b) l = d.
Proof. unfold dict_at. simpl. by rewrite lookup_insert_eq. Qed.

(** X16: a submission on the dark path for a symbol that has a dict: the
    entry goes into that dict under the oid; an oid that is in the dict
    keeps its place in the insertion order (the entry is replaced), a new
    oid goes last; the entries of the other oids are what they were, and
    the keys stay distinct. *)
Theorem dark_submission_keeps_the_other_entries (clock : nat → Z)
    (symbol : string) (feed : gmap string pyfloat) (cmd : Order)
    (msg : option flow_msg) (w : World) (broker : string)
    (rest : list string) (last min_tick : pyfloat) (l : addr) :
  takes_dark_path cmd →
  o_brokers cmd = broker :: rest →
  lasts (book w) !! (broker, o_symbol cmd) = Some last →
  feed !! o_symbol cmd = Some min_tick →
  orders (book w) !! o_symbol cmd = Some l →
  NoDup (dict_keys (dict_at (book w) l)) →
  ∃ w' : World,
    process_client_order_cmd clock symbol feed cmd msg w
      = Ret (Some (FClientOrder cmd)) w' ∧
    orders (book w') = orders (book w) ∧
    dict_keys (dict_at (book w') l)
      = (if decide (o_oid cmd ∈ dict_keys (dict_at (book w) l))
         then dict_keys (dict_at (book w) l)
         else (dict_keys (dict_at (book w) l) ++ [o_oid cmd])%list) ∧
    dict_get (dict_at (book w') l) (o_oid cmd)
      = Some (dark_entry cmd (mk_check (o_price cmd) last (o_action cmd))
                min_tick) ∧
    (∀ k, k ≠ o_oid cmd →
          dict_get (dict_at (book w') l) k = dict_get (dict_at (book w) l) k) ∧
    NoDup (dict_keys (dict_at (book w') l)) ∧
    ∀ l', l' ≠ l → dicts (book w') !! l' = dicts (book w) !! l'.
Proof.
  intros (Hact & Hlive & Hdark) Hbrokers Hlast Htick Hl Hnd.
  unfold process_client_order_cmd.
  rewrite (submit_not_cancel _ Hact), Hact, Hbrokers, Hlive, Hdark.
  unfold mbind, M_bind, get_book at 1. simpl.
  rewrite Hlast, Htick.
  unfold orders_setdefault, mbind, M_bind, get_book, modify_book, time_ns,
    send_client, mret, M_ret; simpl.
  rewrite Hl. simpl.
  eexists. split; [reflexivity|]. simpl. split; [done|].
  rewrite !dict_at_set_dict.
  split; [apply dict_set_keys|]. split; [apply dict_get_set_eq|].
  split; [intros k Hk; by apply dict_get_set_ne|].
  split; [by apply dict_set_NoDup|].
  intros l' Hl'. by rewrite lookup_insert_ne.
Qed.

Lemma dark_submission_keeps_the_other_entries_witness :
  ∃ w' : World,
    process_client_order_cmd Scenario.clk "aapl" Scenario.feed_aapl
      Scenario.sell_141 None (initial_world Scenario.busy_book)
      = Ret (Some (FClientOrder Scenario.sell_141)) w' ∧
    dict_keys (dict_at (book w') 0%nat) = ["o1"; "s1"; "a1"] ∧
    dict_get (dict_at (book w') 0%nat) "s1"
      = Some (dark_entry Scenario.sell_141 (Some (check_lt (Num 141)))
                (Num (1 # 100))) ∧
    dict_get (dict_at (book w') 0%nat) "o1"
      = Some (dark_entry Scenario.dark_buy_145 (Some (check_lt (Num 145)))
                (Num (1 # 100))).
Proof.
  destruct (dark_submission_keeps_the_other_entries Scenario.clk "aapl"
              Scenario.feed_aapl Scenario.sell_141 None
              (initial_world Scenario.busy_book) "ib" [] (Num 150)
              (Num (1 # 100)) 0%nat)
    as (w' & Hrun & _ & Hkeys & Hget & Hother & _).
  - by vm_compute.
  - reflexivity.
  - by vm_compute.
  - by vm_compute.
  - by vm_compute.
  - apply (bool_decide_unpack _). by vm_compute.
  - exists w'. split; [exact Hrun|].
    split; [etrans; [exact Hkeys|by vm_compute]|].
    split; [exact Hget|].
    etrans; [apply (Hother "o1"); discriminate|by vm_compute].
Defined.

(** ** What the loops do to the dict objects *)

Lemma dict_del_sublist (d : execs) (k : string) : sublist (dict_del d k) d.
Proof.
  induction d as [|[k0 v0] d IH]; simpl; [done|].
  destruct (String.eqb k0 k).
  - by apply sublist_cons.
  - by apply sublist_skip.
Qed.

Lemma dicts_shrink_refl (b : DarkBook) : dicts_shrink b b.
Proof. intros l d Hd. by exists d. Qed.

Lemma dicts_shrink_same (b b' : DarkBook) :
  dicts b' = dicts b → dicts_shrink b b'.
Proof. intros H l d Hd. rewrite H in Hd. by exists d. Qed.

Lemma dicts_shrink_trans (b1 b2 b3 : DarkBook) :
  dicts_shrink b1 b2 → dicts_shrink b2 b3 → dicts_shrink b1 b3.
Proof.
  intros H12 H23 l d3 Hd3.
  destruct (H23 l d3 Hd3) as (d2 & Hd2 & Hs23).
  destruct (H12 l d2 Hd2) as (d1 & Hd1 & Hs12).
  exists d1. split; [done|]. by etrans.
Qed.

Lemma dicts_shrink_bind {A B : Type} (m : M A) (k : A → M B) (w : World) :
  dicts_shrink (book w) (book (outcome_world (m w))) →
  (∀ a w1, m w = Ret a w1 →
           dicts_shrink (book w1) (book (outcome_world (k a w1)))) →
  dicts_shrink (book w) (book (outcome_world ((m ≫= k) w))).
Proof.
  unfold mbind, M_bind. destruct (m w) as [a w1|e w1]; simpl.
  - intros H1 H2. eapply dicts_shrink_trans; [exact H1|by apply H2].
  - done.
Qed.

Lemma dicts_shrink_keys_distinct (b b' : DarkBook) :
  dicts_shrink b b' → keys_distinct b → keys_distinct b'.
Proof.
  intros Hs Hk l d' Hd'. destruct (Hs l d' Hd') as (d & Hd & Hsub).
  apply (sublist_NoDup (dict_keys d') (dict_keys d)).
  - by apply (Hk l).
  - unfold dict_keys. by apply fmap_sublist.
Qed.

Lemma trigger_entry_shrinks (clock : nat → Z) (broker sym : string)
    (l : addr) (t : tick) (k : string) (e : entry) (symbol : string)
    (w : World) :
  dicts_shrink (book w)
    (book (outcome_world (trigger_entry clock broker sym l t k e symbol w))).
Proof.
  destruct (fires e t) eqn:Hf.
  - destruct (dict_get (dict_at (book w) l) k) as [v|] eqn:Hv.
    + destruct (trigger_entry_fire clock broker sym l t k e symbol w Hf)
        as (w' & -> & Hstep); [by eexists|]. simpl.
      destruct Hstep as (_ & _ & _ & Hd & _).
      intros l' d' Hd'. rewrite Hd in Hd'.
      destruct (decide (l = l')) as [<-|Hne].
      * rewrite lookup_insert_eq in Hd'. injection Hd' as <-.
        unfold dict_at in *.
        destruct (dicts (book w) !! l) as [d|] eqn:E; [|done].
        exists d. split; [done|]. apply dict_del_sublist.
      * rewrite lookup_insert_ne in Hd' by done. by exists d'.
    + apply fires_true in Hf as (pred & Hp & Htf & Hc).
      unfold trigger_entry. rewrite Hp, Htf, Hc. simpl.
      destruct (String.eqb (o_action (e_cmd e)) "alert");
        run_monad; unfold dict_at in *; simpl; rewrite Hv; run_monad;
        by apply dicts_shrink_same.
  - rewrite trigger_entry_skip by done. apply dicts_shrink_refl.
Qed.

Lemma scan_execs_shrinks (clock : nat → Z) (broker sym : string) (l : addr)
    (t : tick) (items : execs) (symbol : string) (w : World) :
  dicts_shrink (book w)
    (book (outcome_world (scan_execs clock broker sym l t items symbol w))).
Proof.
  revert symbol w. induction items as [|[k e] items IH]; intros symbol w.
  - apply dicts_shrink_refl.
  - simpl. apply dicts_shrink_bind; [apply trigger_entry_shrinks|].
    intros symbol' w1 _. apply IH.
Qed.

Lemma scan_tick_shrinks (clock : nat → Z) (broker sym : string) (l : addr)
    (t : tick) (symbol : string) (w : World) :
  dicts_shrink (book w)
    (book (outcome_world (scan_tick clock broker sym l t symbol w))).
Proof.
  unfold scan_tick.
  apply dicts_shrink_bind; [by apply dicts_shrink_same|]. intros [] w1 _.
  apply dicts_shrink_bind; [apply dicts_shrink_refl|]. intros b w2 _.
  apply dicts_shrink_bind; [apply scan_execs_shrinks|]. intros symbol' w3 _.
  apply dicts_shrink_bind; [apply dicts_shrink_refl|]. intros b' w4 _.
  destruct (dict_at b' l).
  - apply dicts_shrink_refl.
  - apply dicts_shrink_bind; [by apply dicts_shrink_same|]. intros [] w5 _.
    apply dicts_shrink_refl.
Qed.

Lemma scan_ticks_shrinks (clock : nat → Z) (broker sym : string) (l : addr)
    (ts : list tick) (symbol : string) (w : World) :
  dicts_shrink (book w)
    (book (outcome_world (scan_ticks clock broker sym l ts symbol w))).
Proof.
  revert symbol w. induction ts as [|t ts IH]; intros symbol w.
  - apply dicts_shrink_refl.
  - simpl. apply dicts_shrink_bind; [apply scan_tick_shrinks|].
    intros symbol' w1 _. apply IH.
Qed.

Lemma scan_quotes_shrinks (clock : nat → Z) (broker : string)
    (quotes : list (string * quote)) (symbol : string) (w : World) :
  dicts_shrink (book w)
    (book (outcome_world (scan_quotes clock broker quotes symbol w))).
Proof.
  revert symbol w. induction quotes as [|[sym q] quotes IH]; intros symbol w.
  - apply dicts_shrink_refl.
  - simpl. apply dicts_shrink_bind; [|intros symbol' w1 _; apply IH].
    unfold scan_quote.
    apply dicts_shrink_bind; [apply dicts_shrink_refl|]. intros b w1 _.
    destruct (orders b !! sym).
    + apply scan_ticks_shrinks.
    + apply dicts_shrink_refl.
Qed.

Lemma clear_dark_triggers_shrinks (clock : nat → Z) (broker symbol : string)
    (stream : list (list (string * quote))) (w : World) :
  dicts_shrink (book w)
    (book (outcome_world (clear_dark_triggers clock broker symbol stream w))).
Proof.
  revert symbol w. induction stream as [|quotes stream IH]; intros symbol w.
  - apply dicts_shrink_refl.
  - simpl. apply dicts_shrink_bind; [apply scan_quotes_shrinks|].
    intros symbol' w1 _. apply IH.
Qed.

(** X17: the trigger loop only ever takes entries out of the dicts: on
    every stream of quotes, and whether it returns or raises, each dict
    object of the book afterwards is what is left of the same object before
    after removing items, so every entry found in a dict afterwards was
    there before, under the same oid and unchanged; the loop adds no entry,
    changes none and creates no dict. *)
Theorem trigger_loop_only_removes (clock : nat → Z) (broker symbol : string)
    (stream : list (list (string * quote))) (w : World) :
  let w' :=
    outcome_world (clear_dark_triggers clock broker symbol stream w) in
  dicts_shrink (book w) (book w') ∧
  ∀ (l : addr) (oid : string) (e : entry),
    (oid, e) ∈ dict_at (book w') l → (oid, e) ∈ dict_at (book w) l.
Proof.
  intros w'.
  pose proof (clear_dark_triggers_shrinks clock broker symbol stream w) as Hs.
  split; [exact Hs|].
  intros l oid e Hin. unfold dict_at in *.
  destruct (dicts (book w') !! l) as [d'|] eqn:Hd'; simpl in Hin.
  - destruct (Hs l d' Hd') as (d & -> & Hsub). simpl.
    by eapply elem_of_sublist.
  - by apply elem_of_nil in Hin.
Qed.

Lemma trigger_loop_only_removes_witness :
  dicts_shrink (book (initial_world Scenario.busy_book))
    (book (outcome_world
             (clear_dark_triggers Scenario.clk "ib" "aapl"
                [[("aapl", [Scenario.last_144_9])]]
                (initial_world Scenario.busy_book)))).
Proof.
  apply (proj1 (trigger_loop_only_removes Scenario.clk "ib" "aapl"
                  [[("aapl", [Scenario.last_144_9])]]
                  (initial_world Scenario.busy_book))).
Defined.

(** The translator does not touch the dict objects. *)
Lemma translate_event_dicts (clock : nat → Z) (m : brokerd_msg) (w : World) :
  dicts (book (outcome_world (translate_and_relay_brokerd_event clock m w)))
    = dicts (book w).
Proof.
  unfold translate_and_relay_brokerd_event, relay_event, lift.
  run_monad.
  repeat (case_match; run_monad; simplify_eq; try done).
Qed.

Lemma keys_distinct_dict_at (b : DarkBook) (l : addr) :
  keys_distinct b → NoDup (dict_keys (dict_at b l)).
Proof.
  intros Hk. unfold dict_at. destruct (dicts b !! l) as [d|] eqn:E; simpl.
  - by apply (Hk l).
  - apply NoDup_nil_2.
Qed.

Lemma keys_distinct_set_dict (b : DarkBook) (l : addr) (d : execs) :
  keys_distinct b → NoDup (dict_keys d) → keys_distinct (set_dict l d b).
Proof.
  intros Hk Hd l' d' Hl'. simpl in Hl'.
  destruct (decide (l = l')) as [<-|Hne].
  - rewrite lookup_insert_eq in Hl'. by injection Hl' as <-.
  - rewrite lookup_insert_ne in Hl' by done. by apply (Hk l').
Qed.

(** The command loop keeps the keys of every dict distinct. *)
Lemma process_client_order_cmd_keys_distinct (clock : nat → Z)
    (symbol : string) (feed : gmap string pyfloat) (cmd : Order)
    (msg : option flow_msg) (w : World) :
  keys_distinct (book w) →
  keys_distinct
    (book (outcome_world
             (process_client_order_cmd clock symbol feed cmd msg w))).
Proof.
  intros Hk.
  unfold process_client_order_cmd, orders_setdefault, lift.
  run_monad.
  repeat (case_match; run_monad; simplify_eq; try done).
  - apply keys_distinct_set_dict; [done|].
    apply dict_del_NoDup. by apply keys_distinct_dict_at.
  - apply keys_distinct_set_dict; [done|].
    apply dict_set_NoDup. by apply keys_distinct_dict_at.
  - apply keys_distinct_set_dict.
    + by apply (keys_distinct_set_dict _ _ []); [|apply NoDup_nil_2].
    + apply dict_set_NoDup. apply keys_distinct_dict_at.
      by apply (keys_distinct_set_dict _ _ []); [|apply NoDup_nil_2].
Qed.

(** X18: that the keys of every dict object are distinct is an invariant
    of the book: it holds for the empty book a router creates, and one
    command of the command loop, one event of the translator and any
    stream of quotes of the trigger loop keep it, whether they return or
    raise. *)
Theorem keys_stay_distinct :
  (∀ brokername : string, keys_distinct (empty_book brokername)) ∧
  (∀ w : World,
     keys_distinct (book w) →
     (∀ (clock : nat → Z) (symbol : string) (feed : gmap string pyfloat)
        (cmd : Order) (msg : option flow_msg),
        keys_distinct
          (book (outcome_world
                   (process_client_order_cmd clock symbol feed cmd msg w)))) ∧
     (∀ (clock : nat → Z) (m : brokerd_msg),
        keys_distinct
          (book (outcome_world
                   (translate_and_relay_brokerd_event clock m w)))) ∧
     (∀ (clock : nat → Z) (broker symbol : string)
        (stream : list (list (string * quote))),
        keys_distinct
          (book (outcome_world
                   (clear_dark_triggers clock broker symbol stream w))))).
Proof.
  split.
  - intros brokername l d H. simpl in H. by rewrite lookup_empty in H.
  - intros w Hk. split; [|split].
    + intros. by apply process_client_order_cmd_keys_distinct.
    + intros clock m l d Hd. rewrite translate_event_dicts in Hd.
      by apply (Hk l).
    + intros clock broker symbol stream.
      eapply dicts_shrink_keys_distinct; [|exact Hk].
      apply clear_dark_triggers_shrinks.
Qed.

Lemma keys_stay_distinct_witness :
  let w := initial_world Scenario.busy_book in
  keys_distinct
    (book (outcome_world
             (process_client_order_cmd Scenario.clk "aapl" Scenario.feed_aapl
                Scenario.sell_141 None w))) ∧
  keys_distinct
    (book (outcome_world
             (clear_dark_triggers Scenario.clk "ib" "aapl"
                [[("aapl", [Scenario.last_144_9])]] w))).
Proof.
  intros w.
  assert (Hk : keys_distinct (book w)).
  { intros l d H. simpl in H. apply lookup_singleton_Some in H as [_ <-].
    apply (bool_decide_unpack _). by vm_compute. }
  destruct (proj2 keys_stay_distinct w Hk) as (Hcmd & _ & Hscan).
  split; [apply Hcmd|apply Hscan].
Defined.

(** ** More of the feed bus *)

Import Feed.

(** *** The steps of a task *)

Lemma step_called_free sq ds symbol tt i bus tasks :
  tasks !! i = Some Called →
  lock_holder bus = None →
  attach_feed_bus_step sq ds symbol tt i (bus, tasks)
    = (mkFeedsBus (brokername bus) (feeds bus)
         (match subscribers bus !! symbol with
          | Some _ => subscribers bus
          | None => <[symbol := []]> (subscribers bus)
          end)
         (Some i) (lock_waiters bus) (allocations bus),
       <[i := Locked (feeds bus !! symbol)]> tasks).
Proof.
  intros Hi Hfree. unfold attach_feed_bus_step.
  cbn [fst snd]. by rewrite Hi, Hfree.
Qed.

Lemma step_locked_none sq ds symbol tt i bus tasks :
  tasks !! i = Some (Locked None) →
  attach_feed_bus_step sq ds symbol tt i (bus, tasks)
    = (bus, <[i := Allocating]> tasks).
Proof.
  intros Hi. unfold attach_feed_bus_step.
  cbn [fst snd]. by rewrite Hi.
Qed.

Lemma step_locked_some sq ds symbol tt i bus tasks e :
  tasks !! i = Some (Locked (Some e)) →
  attach_feed_bus_step sq ds symbol tt i (bus, tasks)
    = ((release bus tasks).1,
       <[i := deliver symbol (release bus tasks).1]> (release bus tasks).2).
Proof.
  intros Hi. unfold attach_feed_bus_step.
  cbn [fst snd]. by rewrite Hi.
Qed.

Lemma step_allocating sq ds symbol tt i bus tasks :
  tasks !! i = Some Allocating →
  let bus' := (allocate_persistent_feed sq ds symbol bus).1 in
  attach_feed_bus_step sq ds symbol tt i (bus, tasks)
    = ((release bus' tasks).1,
       <[i := deliver symbol (release bus' tasks).1]> (release bus' tasks).2).
Proof.
  intros Hi bus'. unfold attach_feed_bus_step.
  cbn [fst snd]. rewrite Hi. fold bus'.
  assert (feeds (release bus' tasks).1 = feeds bus') as Hf.
  { unfold release. by destruct (lock_waiters bus'). }
  unfold deliver. rewrite Hf.
  by destruct (feeds bus' !! symbol).
Qed.

Lemma step_started sq ds symbol tt i bus tasks init fq :
  tasks !! i = Some (Started init fq) →
  attach_feed_bus_step sq ds symbol tt i (bus, tasks)
    = (mkFeedsBus (brokername bus) (feeds bus)
         (<[symbol :=
              (default [] (subscribers bus !! symbol) ++ [(i, tt)])%list]>
            (subscribers bus))
         (lock_holder bus) (lock_waiters bus) (allocations bus),
       <[i := Streaming init fq]> tasks).
Proof.
  intros Hi. unfold attach_feed_bus_step.
  cbn [fst snd]. by rewrite Hi.
Qed.

Lemma step_streaming sq ds symbol tt i bus tasks init fq :
  tasks !! i = Some (Streaming init fq) →
  attach_feed_bus_step sq ds symbol tt i (bus, tasks) = (bus, tasks).
Proof.
  intros Hi. unfold attach_feed_bus_step.
  cbn [fst snd]. by rewrite Hi.
Qed.

Lemma release_free bus tasks :
  lock_waiters bus = [] →
  release bus tasks
    = (mkFeedsBus (brokername bus) (feeds bus) (subscribers bus) None []
         (allocations bus), tasks).
Proof. intros H. unfold release. by rewrite H. Qed.

Lemma run_app sq ds symbol (l1 l2 : list nat) st :
  run sq ds symbol (l1 ++ l2) st = run sq ds symbol l2 (run sq ds symbol l1 st).
Proof.
  revert st. induction l1 as [|i l1 IH]; intros st; [done|]. simpl. apply IH.
Qed.

(** A task that attaches while no other one is inside [attach_feed_bus],
    and finds an entry. *)
Lemma attach_alone_cached sq ds symbol bus tasks i e :
  tasks !! i = Some Called →
  lock_holder bus = None →
  lock_waiters bus = [] →
  feeds bus !! symbol = Some e →
  run sq ds symbol [i; i; i; i] (bus, tasks)
    = (mkFeedsBus (brokername bus) (feeds bus)
         (<[symbol :=
              (default [] (subscribers bus !! symbol) ++ [(i, None)])%list]>
            (subscribers bus))
         None [] (allocations bus),
       <[i := Streaming (fe_init_msg e) (fe_first_quote e)]> tasks).
Proof.
  intros Hi Hfree Hnone He.
  assert (Hlt : (i < length tasks)%nat) by by eapply lookup_lt_Some.
  unfold run.
  rewrite step_called_free by done. rewrite He.
  erewrite step_locked_some by by apply list_lookup_insert_eq.
  rewrite release_free by done. unfold deliver. cbn [fst snd feeds].
  rewrite He.
  erewrite step_started
    by (apply list_lookup_insert_eq; by rewrite length_insert).
  erewrite step_streaming
    by (apply list_lookup_insert_eq; by rewrite !length_insert).
  cbn [brokername feeds subscribers lock_holder lock_waiters allocations].
  rewrite !list_insert_insert_eq. f_equal. f_equal.
  destruct (subscribers bus !! symbol) as [l|] eqn:Hs; [by rewrite Hs|].
  rewrite lookup_insert_eq. by rewrite insert_insert_eq.
Qed.

(** A task that attaches while no other one is inside [attach_feed_bus],
    to a lower-case symbol without an entry. *)
Lemma attach_alone_first sq ds symbol bus tasks i :
  lower symbol = symbol →
  tasks !! i = Some Called →
  lock_holder bus = None →
  lock_waiters bus = [] →
  feeds bus !! symbol = None →
  let started := sq symbol (length (allocations bus)) in
  let init :=
    mkInitMsg started.1 (sym_to_shm_key (brokername bus) symbol) (ds symbol) in
  run sq ds symbol [i; i; i; i] (bus, tasks)
    = (mkFeedsBus (brokername bus)
         (<[symbol := mkFeedEntry init started.2]> (feeds bus))
         (<[symbol :=
              (default [] (subscribers bus !! symbol) ++ [(i, None)])%list]>
            (subscribers bus))
         None [] (allocations bus ++ [symbol])%list,
       <[i := Streaming init started.2]> tasks).
Proof.
  intros Hlow Hi Hfree Hnone He started init.
  assert (Hlt : (i < length tasks)%nat) by by eapply lookup_lt_Some.
  unfold run.
  rewrite step_called_free by done. rewrite He.
  rewrite step_locked_none by by apply list_lookup_insert_eq.
  rewrite step_allocating
    by (apply list_lookup_insert_eq; by rewrite length_insert).
  rewrite release_free by done. unfold deliver, allocate_persistent_feed.
  cbn [fst snd feeds allocations lock_holder lock_waiters brokername
       subscribers].
  rewrite Hlow, lookup_insert_eq. cbn [fe_init_msg fe_first_quote].
  fold started. fold init.
  erewrite step_started
    by (apply list_lookup_insert_eq; by rewrite !length_insert).
  cbn [brokername feeds subscribers lock_holder lock_waiters allocations].
  rewrite !list_insert_insert_eq. f_equal. f_equal.
  destruct (subscribers bus !! symbol) as [l|] eqn:Hs; [by rewrite Hs|].
  rewrite lookup_insert_eq. by rewrite insert_insert_eq.
Qed.

Lemma one_after_the_other_S (n : nat) :
  one_after_the_other (S n) = (one_after_the_other n ++ [n; n; n; n])%list.
Proof.
  unfold one_after_the_other. by rewrite seq_S, flat_map_app.
Qed.

Lemma attaches_one_after_the_other sq ds b symbol (N n : nat) :
  lower symbol = symbol →
  (S n ≤ N)%nat →
  let started := sq symbol 0%nat in
  let init := mkInitMsg started.1 (sym_to_shm_key b symbol) (ds symbol) in
  run sq ds symbol (one_after_the_other (S n)) (new_bus b, replicate N Called)
    = (mkFeedsBus b {[symbol := mkFeedEntry init started.2]}
         {[symbol := (λ i, (i, None)) <$> seq 0 (S n)]} None [] [symbol],
       (replicate (S n) (Streaming init started.2)
          ++ replicate (N - S n) Called)%list).
Proof.
  intros Hlow Hn started init. induction n as [|n IH].
  - change (one_after_the_other 1) with [0; 0; 0; 0]%nat.
    destruct N as [|N]; [lia|].
    rewrite attach_alone_first; try done.
    cbn [new_bus brokername feeds subscribers allocations].
    rewrite lookup_empty. cbn [default app length].
    fold started. fold init. rewrite !insert_empty.
    by replace (S N - 1)%nat with N by lia.
  - rewrite one_after_the_other_S, run_app, IH by lia.
    assert (Hc : (replicate (S n) (Streaming init started.2)
                    ++ replicate (N - S n) Called)%list !! S n = Some Called).
    { rewrite lookup_app_r by by rewrite length_replicate.
      rewrite length_replicate, Nat.sub_diag.
      apply lookup_replicate. split; [done|lia]. }
    erewrite attach_alone_cached; [|exact Hc|done|done|apply lookup_singleton_eq].
    cbn [brokername feeds subscribers allocations fe_init_msg fe_first_quote].
    rewrite lookup_singleton_eq, insert_singleton_eq. cbn [default].
    f_equal.
    + f_equal. f_equal. by rewrite (seq_S (S n) 0), fmap_app.
    + replace (S n) with (length (replicate (S n) (Streaming init started.2)) + 0)%nat
        at 1 by (rewrite length_replicate; lia).
      rewrite insert_app_r.
      replace (N - S n)%nat with (S (N - S (S n))) by lia.
      rewrite (replicate_S_end (S n)). cbn [replicate].
      by rewrite <- app_assoc.
Qed.

(** X19: a task that attaches to a symbol that has an entry in
    [bus.feeds], while no task holds or awaits the lock: in its two steps
    it takes the lock, lets it go and is handed the init message and the
    first quote of that entry; [allocate_persistent_feed] does not run,
    [bus.feeds] is what it was, the lock is free again and no other task
    has moved. *)
Theorem attach_to_cached_feed
    (stream_quotes : string → nat → nat * nat) (delay_s : string → Z)
    (symbol : string) (bus : FeedsBus) (tasks : list task) (i : nat)
    (e : feed_entry) :
  tasks !! i = Some Called →
  lock_holder bus = None →
  lock_waiters bus = [] →
  feeds bus !! symbol = Some e →
  let st' := run stream_quotes delay_s symbol [i; i] (bus, tasks) in
  st'.2 !! i = Some (Started (fe_init_msg e) (fe_first_quote e)) ∧
  allocations st'.1 = allocations bus ∧
  feeds st'.1 = feeds bus ∧
  lock_holder st'.1 = None ∧
  lock_waiters st'.1 = [] ∧
  ∀ j, j ≠ i → st'.2 !! j = tasks !! j.
Proof.
  intros Hi Hfree Hnone He st'.
  assert (Hlt : (i < length tasks)%nat) by by eapply lookup_lt_Some.
  unfold st', run.
  rewrite step_called_free by done. rewrite He.
  erewrite step_locked_some by by apply list_lookup_insert_eq.
  rewrite release_free by done. unfold deliver. cbn [fst snd feeds].
  rewrite He. cbn [allocations lock_holder lock_waiters].
  rewrite list_lookup_insert_eq by by rewrite length_insert.
  repeat split; try done.
  intros j Hj. by rewrite !list_lookup_insert_ne.
Qed.

(** X20: a task that attaches, as the only one, to a symbol that has
    upper-case letters and no entry under its own spelling: it runs
    [allocate_persistent_feed], which stores the entry under the lower-case
    symbol, and then fails with a [KeyError] on [bus.feeds[symbol]]; the
    lock is free again, and [bus.feeds] still has no entry under the
    symbol as the task spelled it. *)
Theorem attach_symbol_with_capitals_fails
    (stream_quotes : string → nat → nat * nat) (delay_s : string → Z)
    (symbol : string) (bus : FeedsBus) (tasks : list task) (i : nat) :
  lower symbol ≠ symbol →
  tasks !! i = Some Called →
  lock_holder bus = None →
  lock_waiters bus = [] →
  feeds bus !! symbol = None →
  let st' := run stream_quotes delay_s symbol [i; i; i] (bus, tasks) in
  st'.2 !! i = Some (Failed (KeyError symbol)) ∧
  allocations st'.1 = (allocations bus ++ [symbol])%list ∧
  is_Some (feeds st'.1 !! lower symbol) ∧
  feeds st'.1 !! symbol = None ∧
  lock_holder st'.1 = None.
Proof.
  intros Hlow Hi Hfree Hnone He st'.
  assert (Hlt : (i < length tasks)%nat) by by eapply lookup_lt_Some.
  unfold st', run.
  rewrite step_called_free by done. rewrite He.
  rewrite step_locked_none by by apply list_lookup_insert_eq.
  rewrite step_allocating
    by (apply list_lookup_insert_eq; by rewrite length_insert).
  rewrite release_free by done. unfold deliver, allocate_persistent_feed.
  cbn [fst snd feeds allocations lock_holder lock_waiters].
  rewrite lookup_insert_ne by done. rewrite He.
  rewrite list_lookup_insert_eq by by rewrite !length_insert.
  repeat split; try done.
  rewrite lookup_insert_eq. by eexists.
Qed.

Lemma attach_to_cached_feed_witness :
  let st := Scenario.two_attach [0; 0; 0]%nat in
  let st' := run Scenario.stream_quotes Scenario.delay_s "aapl" [1; 1]%nat st in
  st'.2 !! 1%nat
    = Some (Started (mkInitMsg 0 "ib.aapl" 60) 0) ∧
  allocations st'.1 = ["aapl"].
Proof.
  intros st st'.
  destruct (attach_to_cached_feed Scenario.stream_quotes Scenario.delay_s
              "aapl" st.1 st.2 1%nat
              (mkFeedEntry (mkInitMsg 0 "ib.aapl" 60) 0))
    as (Htask & Halloc & _).
  - reflexivity.
  - reflexivity.
  - reflexivity.
  - by vm_compute.
  - split; [exact Htask|]. etrans; [exact Halloc|reflexivity].
Defined.

Lemma attach_symbol_with_capitals_fails_witness :
  let st' :=
    run Scenario.stream_quotes Scenario.delay_s "AAPL" [0; 0; 0]%nat
      (new_bus "ib", [Called]) in
  st'.2 !! 0%nat = Some (Failed (KeyError "AAPL")) ∧
  allocations st'.1 = ["AAPL"] ∧
  is_Some (feeds st'.1 !! "aapl").
Proof.
  intros st'.
  destruct (attach_symbol_with_capitals_fails Scenario.stream_quotes
              Scenario.delay_s "AAPL" (new_bus "ib") [Called] 0%nat)
    as (Htask & Halloc & Hfeed & _).
  - discriminate.
  - reflexivity.
  - reflexivity.
  - reflexivity.
  - reflexivity.
  - split; [exact Htask|]. split; [exact Halloc|exact Hfeed].
Defined.

(** X21: tasks that attach to a lower-case symbol one after the other,
    each one running to the end of [attach_feed_bus] before the next one
    starts, on a new bus: [allocate_persistent_feed] runs once, every task
    is handed the init message and the first quote of that run, the
    subscribers of the symbol are the tasks in their order, and the lock
    is free at the end. *)
Theorem attaches_one_after_the_other_share_one_feed
    (stream_quotes : string → nat → nat * nat) (delay_s : string → Z)
    (brokername symbol : string) (n : nat) :
  lower symbol = symbol →
  (0 < n)%nat →
  let st :=
    run stream_quotes delay_s symbol (one_after_the_other n)
      (new_bus brokername, replicate n Called) in
  let started := stream_quotes symbol 0%nat in
  let init :=
    mkInitMsg started.1 (sym_to_shm_key brokername symbol) (delay_s symbol) in
  allocations st.1 = [symbol] ∧
  st.2 = replicate n (Streaming init started.2) ∧
  subscribers st.1 !! symbol = Some ((λ i, (i, None)) <$> seq 0 n) ∧
  lock_holder st.1 = None.
Proof.
  intros Hlow Hn st started init. destruct n as [|n]; [lia|].
  unfold st. rewrite attaches_one_after_the_other by (done || lia).
  cbn [fst snd allocations subscribers lock_holder].
  rewrite Nat.sub_diag, lookup_singleton_eq.
  change (replicate 0 Called) with (@nil task). by rewrite app_nil_r.
Qed.

Lemma attaches_one_after_the_other_share_one_feed_witness :
  let st :=
    run Scenario.stream_quotes Scenario.delay_s "aapl"
      [0; 0; 0; 0; 1; 1; 1; 1; 2; 2; 2; 2]%nat
      (new_bus "ib", [Called; Called; Called]) in
  allocations st.1 = ["aapl"] ∧
  subscribers st.1 !! "aapl"
    = Some [(0%nat, None); (1%nat, None); (2%nat, None)].
Proof.
  intros st.
  destruct (attaches_one_after_the_other_share_one_feed
              Scenario.stream_quotes Scenario.delay_s "ib" "aapl" 3)
    as (Halloc & _ & Hsubs & _).
  - reflexivity.
  - lia.
  - split; [exact Halloc|exact Hsubs].
Defined.

(** *** The lock *)

Lemma lock_inv_update (bus bus' : FeedsBus) (tasks : list task) (i : nat)
    (t t' : task) :
  lock_inv (bus, tasks) →
  lock_holder bus' = lock_holder bus →
  lock_waiters bus' = lock_waiters bus →
  tasks !! i = Some t →
  in_lock_block t' = in_lock_block t →
  is_waiting t' = is_waiting t →
  lock_inv (bus', <[i := t']> tasks).
Proof.
  intros (H1 & H2 & H3 & H4 & H5) Hh Hw Hi Hb Hq.
  assert (Hlt : (i < length tasks)%nat) by by eapply lookup_lt_Some.
  unfold lock_inv. cbn [fst snd] in *. rewrite Hh, Hw.
  split; [|split; [|split; [|split]]]; try done.
  - intros j u Hj Hu. destruct (decide (j = i)) as [->|Hne].
    + rewrite list_lookup_insert_eq in Hj by done. simplify_eq.
      apply (H1 i t); [done|congruence].
    + rewrite list_lookup_insert_ne in Hj by done. by apply (H1 j u).
  - intros j Hj. destruct (H2 j Hj) as (u & Hu & Hbu).
    destruct (decide (j = i)) as [->|Hne].
    + exists t'. rewrite list_lookup_insert_eq by done. split; [done|].
      simplify_eq; congruence.
    + exists u. by rewrite list_lookup_insert_ne.
  - intros j. rewrite H3. destruct (decide (j = i)) as [->|Hne].
    + rewrite list_lookup_insert_eq by done. rewrite Hi.
      split; intros (u & Hu & Hwu); simplify_eq; eexists;
        (split; [done|congruence]).
    + by rewrite list_lookup_insert_ne.
Qed.

Lemma release_inv (bus : FeedsBus) (tasks : list task) (i : nat) (d : task) :
  lock_inv (bus, tasks) →
  lock_holder bus = Some i →
  in_lock_block d = false →
  is_waiting d = false →
  lock_inv ((release bus tasks).1, <[i := d]> (release bus tasks).2).
Proof.
  intros (H1 & H2 & H3 & H4 & H5) Hh Hb Hq. cbn [fst snd] in *.
  destruct (H2 i Hh) as (ti & Hi & Hbi).
  assert (Hlt : (i < length tasks)%nat) by by eapply lookup_lt_Some.
  assert (Hother : ∀ j u, tasks !! j = Some u → in_lock_block u = true → j = i).
  { intros j u Hj Hu. specialize (H1 j u Hj Hu). congruence. }
  unfold release. destruct (lock_waiters bus) as [|t ws] eqn:Hws.
  - unfold lock_inv. cbn [fst snd lock_holder lock_waiters].
    split; [|split; [|split; [|split]]]; try done.
    + intros j u Hj Hu. destruct (decide (j = i)) as [->|Hne].
      * rewrite list_lookup_insert_eq in Hj by done. congruence.
      * rewrite list_lookup_insert_ne in Hj by done.
        by destruct (Hne (Hother j u Hj Hu)).
    + intros j. split; [by intros ?%elem_of_nil|].
      intros (u & Hj & Hu). destruct (decide (j = i)) as [->|Hne].
      * rewrite list_lookup_insert_eq in Hj by done. congruence.
      * rewrite list_lookup_insert_ne in Hj by done.
        apply H3. eauto.
  - destruct (proj1 (H3 t) ltac:(left)) as (tt & Ht & Hwt).
    destruct tt as [|e| | | | |]; try discriminate.
    rewrite Ht.
    assert (Hti : t ≠ i) by (intros ->; rewrite Hi in Ht; by simplify_eq).
    assert (Htlt : (t < length tasks)%nat) by by eapply lookup_lt_Some.
    apply NoDup_cons in H4 as [Htws Hnd].
    unfold lock_inv. cbn [fst snd lock_holder lock_waiters].
    split; [|split; [|split; [|split]]]; try done.
    + intros j u Hj Hu. destruct (decide (j = i)) as [->|Hne].
      * rewrite list_lookup_insert_eq in Hj by by rewrite length_insert.
        congruence.
      * rewrite list_lookup_insert_ne in Hj by done.
        destruct (decide (j = t)) as [->|Hnt]; [done|].
        rewrite list_lookup_insert_ne in Hj by done.
        by destruct (Hne (Hother j u Hj Hu)).
    + intros j [= <-]. exists (Locked e).
      rewrite list_lookup_insert_ne by done.
      by rewrite list_lookup_insert_eq.
    + intros j. split.
      * intros Hj. assert (j ≠ t) by (by intros ->).
        destruct (proj1 (H3 j) ltac:(by right)) as (u & Hju & Hwu).
        assert (j ≠ i).
        { intros ->. rewrite Hi in Hju. simplify_eq.
          by destruct u. }
        exists u. by rewrite !list_lookup_insert_ne.
      * intros (u & Hj & Hu). destruct (decide (j = i)) as [->|Hne].
        { rewrite list_lookup_insert_eq in Hj by by rewrite length_insert.
          congruence. }
        rewrite list_lookup_insert_ne in Hj by done.
        destruct (decide (j = t)) as [->|Hnt].
        { rewrite list_lookup_insert_eq in Hj by done. by simplify_eq. }
        rewrite list_lookup_insert_ne in Hj by done.
        assert (j ∈ t :: ws) as [->|?]%elem_of_cons by (apply H3; eauto);
          done.
Qed.

Lemma lock_inv_ext (bus bus' : FeedsBus) (tasks : list task) :
  lock_holder bus' = lock_holder bus →
  lock_waiters bus' = lock_waiters bus →
  lock_inv (bus, tasks) → lock_inv (bus', tasks).
Proof.
  unfold lock_inv. cbn [fst snd]. by intros -> ->.
Qed.

Lemma deliver_outside (symbol : string) (bus : FeedsBus) :
  in_lock_block (deliver symbol bus) = false ∧
  is_waiting (deliver symbol bus) = false.
Proof. unfold deliver. by destruct (feeds bus !! symbol). Qed.

Lemma attach_feed_bus_step_inv
    (stream_quotes : string → nat → nat * nat) (delay_s : string → Z)
    (symbol : string) (tick_throttle : option Q) (i : nat)
    (st : FeedsBus * list task) :
  lock_inv st →
  lock_inv (attach_feed_bus_step stream_quotes delay_s symbol tick_throttle i st).
Proof.
  destruct st as [bus tasks]. intros Hinv.
  unfold attach_feed_bus_step. cbn [fst snd].
  destruct (tasks !! i) as [[|e|[e|]| |init fq|init fq|x]|] eqn:Hi; try done.
  - (* the call *)
    pose proof Hinv as (H1 & H2 & H3 & H4 & H5). cbn [fst snd] in *.
    assert (Hlt : (i < length tasks)%nat) by by eapply lookup_lt_Some.
    destruct (lock_holder bus) as [h|] eqn:Hh.
    + unfold lock_inv. cbn [fst snd lock_holder lock_waiters].
      split; [|split; [|split; [|split]]]; try done.
      * intros j u Hj Hu. destruct (decide (j = i)) as [->|Hne].
        { rewrite list_lookup_insert_eq in Hj by done. by simplify_eq. }
        rewrite list_lookup_insert_ne in Hj by done. by apply (H1 j u).
      * intros j Hj. destruct (H2 j Hj) as (u & Hu & Hbu).
        assert (j ≠ i) by (intros ->; rewrite Hi in Hu; by simplify_eq).
        exists u. by rewrite list_lookup_insert_ne.
      * intros j. rewrite elem_of_app, list_elem_of_singleton, H3.
        destruct (decide (j = i)) as [->|Hne].
        { rewrite list_lookup_insert_eq by done. split; [|by right].
          intros _. by eexists. }
        rewrite list_lookup_insert_ne by done.
        split; [by intros [?|?]|by left].
      * apply NoDup_app. split; [done|]. split; [|apply NoDup_singleton].
        intros j Hj ->%list_elem_of_singleton.
        apply H3 in Hj as (u & Hu & Hwu). rewrite Hi in Hu. by simplify_eq.
    + specialize (H5 eq_refl).
      unfold lock_inv. cbn [fst snd lock_holder lock_waiters].
      split; [|split; [|split; [|split]]]; try done.
      * intros j u Hj Hu. destruct (decide (j = i)) as [->|Hne]; [done|].
        rewrite list_lookup_insert_ne in Hj by done.
        by specialize (H1 j u Hj Hu).
      * intros j [= <-]. exists (Locked (feeds bus !! symbol)).
        by rewrite list_lookup_insert_eq.
      * intros j. rewrite H3. destruct (decide (j = i)) as [->|Hne].
        { rewrite list_lookup_insert_eq by done. rewrite Hi.
          split; intros (u & Hu & Hwu); by simplify_eq. }
        by rewrite list_lookup_insert_ne.
  - (* in the block, with an entry *)
    apply release_inv; [done| |apply deliver_outside..].
    by apply (proj1 Hinv i (Locked (Some e))).
  - (* in the block, without an entry *)
    by apply (lock_inv_update bus bus tasks i (Locked None)).
  - (* the allocation is over *)
    assert (Hh : lock_holder bus = Some i)
      by by apply (proj1 Hinv i Allocating).
    assert (Hinv' : lock_inv
      ((allocate_persistent_feed stream_quotes delay_s symbol bus).1, tasks))
      by by apply (lock_inv_ext bus).
    destruct (feeds _ !! symbol).
    + apply release_inv; [done|done|apply deliver_outside..].
    + by apply release_inv.
  - (* after [ctx.started] *)
    by apply (lock_inv_update bus _ tasks i (Started init fq)).
Qed.

Lemma run_inv
    (stream_quotes : string → nat → nat * nat) (delay_s : string → Z)
    (symbol : string) (schedule : list nat) (st : FeedsBus * list task) :
  lock_inv st → lock_inv (run stream_quotes delay_s symbol schedule st).
Proof.
  revert st. induction schedule as [|i schedule IH]; intros st H; [done|].
  simpl. apply IH. by apply attach_feed_bus_step_inv.
Qed.

Lemma lock_inv_new (brokername : string) (n : nat) :
  lock_inv (new_bus brokername, replicate n Called).
Proof.
  unfold lock_inv. cbn [fst snd new_bus lock_holder lock_waiters].
  split; [|split; [|split; [|split]]]; try done.
  - intros i t [-> _]%lookup_replicate. done.
  - intros i. split; [by intros ?%elem_of_nil|].
    intros (t & [-> _]%lookup_replicate & ?). done.
  - constructor.
Qed.

(** X22: on every schedule of tasks that attach to a symbol on a new
    bus, at most one task at a time is inside the block of
    [bus.task_lock], where [allocate_persistent_feed] runs; the queue of
    the lock holds the tasks that wait for it, and each of them once. *)
Theorem lock_admits_one_task
    (stream_quotes : string → nat → nat * nat) (delay_s : string → Z)
    (brokername symbol : string) (n : nat) (schedule : list nat) :
  let st :=
    run stream_quotes delay_s symbol schedule
      (new_bus brokername, replicate n Called) in
  (∀ i j ti tj,
     st.2 !! i = Some ti → st.2 !! j = Some tj →
     in_lock_block ti = true → in_lock_block tj = true → i = j) ∧
  (∀ i, i ∈ lock_waiters st.1 ↔
     ∃ t, st.2 !! i = Some t ∧ is_waiting t = true) ∧
  NoDup (lock_waiters st.1).
Proof.
  intros st.
  destruct (run_inv stream_quotes delay_s symbol schedule _
              (lock_inv_new brokername n)) as (H1 & H2 & H3 & H4 & H5).
  fold st in H1, H2, H3, H4, H5.
  split; [|by split].
  intros i j ti tj Hi Hj Hti Htj.
  pose proof (H1 i ti Hi Hti). pose proof (H1 j tj Hj Htj). congruence.
Qed.

Lemma lock_admits_one_task_witness :
  NoDup
    (lock_waiters
       (run Scenario.stream_quotes Scenario.delay_s "aapl" [0; 1; 0]%nat
          (new_bus "ib", replicate 2 Called)).1).
Proof.
  apply (lock_admits_one_task Scenario.stream_quotes Scenario.delay_s "ib"
           "aapl" 2 [0; 1; 0]%nat).
Defined.

(** X23: [sym_to_shm_key] tells the broker and the symbol apart as long
    as broker names have no dot: two such brokers get the same key only
    for the same broker and the same symbol. *)
Theorem shm_key_tells_broker_and_symbol (b1 b2 s1 s2 : string) :
  no_dot b1 = true → no_dot b2 = true →
  sym_to_shm_key b1 s1 = sym_to_shm_key b2 s2 →
  b1 = b2 ∧ s1 = s2.
Proof.
  unfold sym_to_shm_key. revert b2.
  induction b1 as [|c1 b1 IH]; intros [|c2 b2] H1 H2 Heq; simpl in *.
  - by simplify_eq.
  - injection Heq as <- _. by rewrite Ascii.eqb_refl in H2.
  - injection Heq as -> _. by rewrite Ascii.eqb_refl in H1.
  - injection Heq as -> Heq.
    apply andb_prop in H1 as [_ H1]. apply andb_prop in H2 as [_ H2].
    destruct (IH b2 H1 H2 Heq) as [-> ->]. done.
Qed.

Lemma shm_key_tells_broker_and_symbol_witness :
  "ib" = "ib" ∧ "aapl" = "aapl".
Proof.
  apply (shm_key_tells_broker_and_symbol "ib" "ib" "aapl" "aapl");
    reflexivity.
Defined.

(** X24: once the bus is set up, [get_feed_bus] never replaces it: a
    later call leaves [_bus] as it is, and returns that bus exactly when
    it comes without a nursery and with the broker name of the bus; every
    other call ends in an [AssertionError]. *)
Theorem feed_bus_is_set_up_once (brokername_ : string) (nursery : bool)
    (bus : FeedsBus) :
  let r := get_feed_bus brokername_ nursery (Some bus) in
  r.2 = Some bus ∧
  (r.1 = inr bus ∨ r.1 = inl AssertionError) ∧
  (r.1 = inr bus ↔ nursery = false ∧ brokername_ = brokername bus).
Proof.
  unfold get_feed_bus. destruct nursery; cbn [fst snd].
  - split; [done|]. split; [by right|]. split; [done|]. by intros [? _].
  - destruct (String.eqb_spec (brokername bus) brokername_) as [<-|Hne];
      cbn [fst snd].
    + split; [done|]. split; [by left|]. done.
    + split; [done|]. split; [by right|]. split; [done|].
      intros [_ ->]. done.
Qed.

(** ** More of the Kraken reader *)

Import Kraken.

Lemma handle_channel_state (st st' : reader) (chan_id : ws_item)
    (payload_array : list ws_item) (chan_name : string) (pair_ : ws_item)
    (out : list yielded) :
  handle_channel st chan_id payload_array chan_name pair_ = Continue st' out →
  st' = st ∧
  (length out ≤ 1)%nat ∧
  ∀ st2, handle_channel st2 chan_id payload_array chan_name pair_
           = Continue st2 out.
Proof.
  unfold handle_channel. intros H.
  repeat case_match; simplify_eq; repeat split; simpl; lia.
Qed.

Lemma handle_msg_state (st st' : reader) (m : ws_msg) (out : list yielded) :
  handle_msg st m = Continue st' out →
  st' = st ∧
  (length out ≤ 1)%nat ∧
  ∀ st2, handle_msg st2 m = Continue st2 out.
Proof.
  unfold handle_msg. intros H.
  destruct m as [event err|items].
  - repeat case_match; simplify_eq; repeat split; simpl; lia.
  - destruct (unpack items) as [[[[chan_id payload] [q|chan_name|f]] pair_]|];
      simplify_eq.
    + by apply handle_channel_state in H.
    + repeat split; simpl; lia.
Qed.

(** X25: a message the reader went on after is handled once more when the
    next call of [recv()] times out, as long as that is not the third
    timeout: [msg] still holds it, so what it made the reader yield is
    yielded a second time. *)
Theorem timeout_handles_last_message_again (st st' : reader) (m : ws_msg)
    (out : list yielded) :
  recv_msg_step st (Received m) = Continue st' out →
  (too_slow_count st < 2)%nat →
  (length out ≤ 1)%nat ∧
  recv_msg_step st' TimedOut
    = Continue (mkReader (S (too_slow_count st)) (Some m)) out.
Proof.
  unfold recv_msg_step. cbn [msg]. intros H Hn.
  apply handle_msg_state in H as (-> & Hlen & Hany). split; [done|].
  cbn [too_slow_count msg].
  destruct (Nat.ltb_spec 2 (S (too_slow_count st))) as [?|_]; [lia|].
  cbn [msg]. apply Hany.
Qed.

Lemma timeout_handles_last_message_again_witness :
  recv_msg_step (mkReader 0 (Some Scenario.spread_msg)) TimedOut
    = Continue (mkReader 1 (Some Scenario.spread_msg))
        [YL1 "XBTUSD" 101 1 102 2].
Proof.
  apply (timeout_handles_last_message_again (mkReader 0 None)
           (mkReader 0 (Some Scenario.spread_msg)) Scenario.spread_msg
           [YL1 "XBTUSD" 101 1 102 2]).
  - reflexivity.
  - simpl. lia.
Defined.


(** ** The writer flags *)

(** X26: the flag of [activate_writer] does not tell whether a writer is
    active.  In the Kraken adapter a task that enters while another one
    is inside is told that the writer exists, and after any exit, also
    that of a task that was not the writer, the next task to enter is
    made the writer.  In the IB adapter, where the entry asserts that the
    flag is not set, a failed entry clears the flag: without an exit in
    between, an entry succeeds exactly when the one before it failed. *)
Theorem writer_flag_is_cleared_by_any_exit (key : string)
    (writers : gmap string bool) :
  (Kraken.activate_writer_enter key
     (Kraken.activate_writer_enter key writers).2).1 = true ∧
  (Kraken.activate_writer_enter key
     (Kraken.activate_writer_exit key writers)).1 = false ∧
  ((Ib.activate_writer_enter key
      (Ib.activate_writer_enter key writers).2).1 = None ↔
   (Ib.activate_writer_enter key writers).1 = Some AssertionError).
Proof.
  unfold Kraken.activate_writer_enter, Kraken.activate_writer_exit,
    Ib.activate_writer_enter.
  split; [|split].
  - cbn [fst snd]. destruct (default false (writers !! key)) eqn:Hw.
    + cbn [negb]. by rewrite Hw.
    + cbn [negb]. by rewrite lookup_insert_eq.
  - cbn [fst]. by rewrite lookup_delete_eq.
  - destruct (default false (writers !! key)) eqn:Hw; cbn [fst snd].
    + by rewrite lookup_delete_eq.
    + by rewrite lookup_insert_eq.
Qed.

(** ** The trade events of the IB adapter *)

Lemma on_event_well_labelled (now_ns : Z) (ev : Ib.event)
    (out : list Ib.yielded) (y : Ib.yielded) :
  Ib.on_event now_ns ev = inr out → y ∈ out → well_labelled y.
Proof.
  unfold Ib.on_event. intros H Hy.
  destruct ev as [id status filled why remaining
                 |id execId et ft side shares price
                 |id err
                 |pos]; cbn [Ib.event_msg] in H.
  - cbn [Ib.msg_reqid] in H. destruct (Z.ltb_spec id (-1)); simplify_eq;
      apply list_elem_of_singleton in Hy as ->;
      (split; [done|]); (split; [not_a_key|]); (split; [not_a_key|]).
    + right. split; [done|]. split; [simpl; set_solver|]. split; [done|].
      by exists id.
    + left. split; [done|]. split; [not_a_key|]. by exists id.
  - destruct (Ib.action_map side) as [e|action]; [done|].
    cbn [Ib.msg_reqid] in H. destruct (Z.ltb_spec id (-1)); simplify_eq;
      apply list_elem_of_singleton in Hy as ->;
      (split; [done|]); (split; [not_a_key|]); (split; [not_a_key|]).
    + right. split; [done|]. split; [simpl; set_solver|]. split; [done|].
      by exists id.
    + left. split; [done|]. split; [not_a_key|]. by exists id.
  - simplify_eq. by apply elem_of_nil in Hy.
  - destruct (Ib.pack_position pos) as [e|p]; [done|].
    cbn [Ib.msg_reqid] in H. simpl in H. simplify_eq.
    apply list_elem_of_singleton in Hy as ->.
    split; [done|]. split; [not_a_key|]. split; [not_a_key|].
    left. split; [done|]. split; [not_a_key|]. by exists 0%Z.
Qed.

Lemma on_events_well_labelled (clock : nat → Z) (events : list Ib.event)
    (reads : nat) (y : Ib.yielded) :
  y ∈ (Ib.on_events clock reads events).1 → well_labelled y.
Proof.
  revert reads. induction events as [|ev events IH]; intros reads; simpl.
  - by intros ?%elem_of_nil.
  - destruct (Ib.on_event (clock reads) ev) as [e|out] eqn:Hev; simpl.
    + by intros ?%elem_of_nil.
    + intros [Hy|Hy]%elem_of_app.
      * by eapply on_event_well_labelled.
      * by eapply IH.
Qed.

Lemma deliver_positions_well_labelled (positions : list Ib.Position)
    (y : Ib.yielded) :
  y ∈ (Ib.deliver_positions positions).1 → well_labelled y.
Proof.
  induction positions as [|pos positions IH]; simpl.
  - by intros ?%elem_of_nil.
  - destruct (Ib.pack_position pos) as [e|p]; simpl.
    + by intros ?%elem_of_nil.
    + intros [->|Hy]%elem_of_cons; [|by apply IH].
      split; [done|]. split; [not_a_key|]. split; [not_a_key|].
      left. split; [done|]. split; [not_a_key|]. by exists 0%Z.
Qed.

(** X27: every dict [stream_trades] yields is one of two kinds.  On
    ['local_trades'] it has no ['external'] key and its request id, or 0
    when it has none, is an integer from -1 up; on ['remote_trades'] it
    is no position, has the ['external'] key, and its request id is the
    string ['tws-'] followed by the negated id below -1 that the event
    came with.  No dict is an error event, and none has an ['oid'] or a
    ['broker_details'] key. *)
Theorem stream_trades_topics (clock : nat → Z)
    (positions : list Ib.Position) (events : list Ib.event)
    (y : Ib.yielded) :
  y ∈ (Ib.stream_trades clock positions events).1 → well_labelled y.
Proof.
  unfold Ib.stream_trades.
  pose proof (deliver_positions_well_labelled positions y) as Hpos.
  destruct (Ib.deliver_positions positions) as [out [e|]]; simpl in *;
    [done|].
  intros [Hy|Hy]%elem_of_app; [by apply Hpos|].
  by eapply on_events_well_labelled.
Qed.

Lemma stream_trades_topics_witness :
  well_labelled
    (Ib.mkYielded "remote_trades" "fill"
       (Ib.MsgFill (IdStr "tws-7") "e1" 1600000000 1600000001 5 "buy" 10 145
          true)).
Proof.
  apply (stream_trades_topics (λ _, 5%Z) [] [Scenario.tws_fill]).
  apply list_elem_of_singleton. reflexivity.
Defined.

Lemma on_events_without_errors (clock : nat → Z) (events : list Ib.event)
    (reads : nat) :
  Ib.on_events clock reads (List.filter (λ ev, negb (is_error ev)) events)
    = Ib.on_events clock reads events.
Proof.
  revert reads. induction events as [|ev events IH]; intros reads; [done|].
  destruct ev; simpl; try (case_match; [done|by rewrite IH]).
  rewrite IH. by destruct (Ib.on_events clock reads events).
Qed.

(** X28: the error events of the stream make no difference to what
    [stream_trades] yields, nor to the exception that ends it: the run on
    the stream is the run on the stream without them. *)
Theorem error_events_make_no_difference (clock : nat → Z)
    (positions : list Ib.Position) (events : list Ib.event) :
  Ib.stream_trades clock positions
      (List.filter (λ ev, negb (is_error ev)) events)
    = Ib.stream_trades clock positions events.
Proof.
  unfold Ib.stream_trades. by rewrite on_events_without_errors.
Qed.

(** ** The contract cache of the IB adapter *)

Lemma upper_length (s : string) : String.length (Ib.upper s) = String.length s.
Proof. induction s as [|c s IH]; simpl; [done|]. by rewrite IH. Qed.

Lemma rsplit_dot_length (s sym exch : string) :
  Ib.rsplit_dot s = Some (sym, exch) →
  String.length s = (String.length sym + 1 + String.length exch)%nat.
Proof.
  revert sym exch. induction s as [|c s IH]; intros sym exch; simpl; [done|].
  destruct (Ib.rsplit_dot s) as [[sym' exch']|].
  - intros [= <- <-]. simpl. rewrite (IH sym' exch') by done. lia.
  - destruct (Ascii.eqb c "."); [|done]. intros [= <- <-]. simpl. lia.
Qed.

Lemma split_slash_length (s base quote : string) :
  Ib.split_slash s = [base; quote] →
  String.length s = (String.length base + 1 + String.length quote)%nat.
Proof.
  assert (Hgen : ∀ s,
    (String.length s + 1
       = foldr (λ p n, String.length p + 1 + n) 0 (Ib.split_slash s))%nat).
  { clear. induction s as [|c s IH]; simpl; [done|].
    destruct (Ascii.eqb c "/"); simpl; [lia|].
    destruct (Ib.split_slash s) as [|p ps]; simpl in *; lia. }
  intros H. specialize (Hgen s). rewrite H in Hgen. simpl in Hgen. lia.
Qed.

Lemma futes_exchange_is_not_forex (exch : string) :
  Ib.in_tuple exch ["GLOBEX"; "NYMEX"; "CME"; "CMECRYPTO"] = true →
  Kraken.contains exch "FOREX" = false.
Proof.
  unfold Ib.in_tuple. cbn [existsb]. rewrite !orb_true_iff.
  rewrite !String.eqb_eq. intros [->|[->|[->|[->|?]]]]; done.
Qed.

(** X29: [find_contract] on a symbol whose part after the last dot, in
    upper case, is no part of the word FOREX: the contract it returns is
    cached under the symbol as it was given, and [submit_limit] for that
    symbol places its order on that contract, with the order id asked
    for, or 0, and the action in upper case. *)
Theorem find_contract_caches_under_symbol `{Ib.IbInsync}
    (symbol sym exch : string) (cache cache' : gmap string Ib.Contract)
    (c : Ib.Contract) (price : pyfloat) (action : string) (size : Z)
    (brid : option Z) :
  Ib.rsplit_dot (Ib.upper symbol) = Some (sym, exch) →
  Kraken.contains exch "FOREX" = false →
  Ib.find_contract symbol cache = (inr c, cache') →
  cache' = <[symbol := c]> cache ∧
  Ib.submit_limit symbol price action size brid cache'
    = inr (Ib.placeOrder c
             (Ib.mkIbOrder (default 0%Z brid) (Ib.upper action) price size)).
Proof.
  intros Hsplit Hfx Hfind.
  assert (Hkey : ∃ con, Ib.unqualified symbol = inr (con, symbol) ∧
                        ∃ l, Ib.qualifyContractsAsync con = c :: l ∧
                             cache' = <[symbol := c]> cache).
  { unfold Ib.find_contract in Hfind.
    destruct (Ib.unqualified symbol) as [e|[con key]] eqn:Hun; [done|].
    destruct (Ib.qualifyContractsAsync con) as [|c' l] eqn:Hq; [done|].
    injection Hfind as -> <-.
    assert (key = symbol) as ->; [|by eauto].
    unfold Ib.unqualified in Hun. rewrite Hsplit, Hfx in Hun.
    repeat case_match; by simplify_eq. }
  destruct Hkey as (con & Hun & l & Hq & ->). split; [done|].
  unfold Ib.submit_limit. by rewrite lookup_insert_eq.
Qed.

(** X30: [find_contract] on a symbol whose part after the last dot, in
    upper case, is a part of the word FOREX: the branch for forex pairs
    assigns the base currency to [symbol], and the contract is cached
    under the base currency.  [submit_limit] for the symbol as it was
    given, when the cache had nothing under it, fails on the cache it
    leaves, with the message that is no f-string. *)
Theorem forex_contract_is_cached_under_base `{Ib.IbInsync}
    (symbol sym exch : string) (cache cache' : gmap string Ib.Contract)
    (c : Ib.Contract) :
  Ib.rsplit_dot (Ib.upper symbol) = Some (sym, exch) →
  Kraken.contains exch "FOREX" = true →
  Ib.find_contract symbol cache = (inr c, cache') →
  cache !! symbol = None →
  (∃ base quote,
     Ib.split_slash sym = [base; quote] ∧ cache' = <[base := c]> cache) ∧
  ∀ price action size brid,
    Ib.submit_limit symbol price action size brid cache'
      = inl (Ib.RuntimeError "Can not order {symbol}, no live feed?").
Proof.
  intros Hsplit Hfx Hfind Hnone.
  assert (Hkey : ∃ base quote,
            Ib.split_slash sym = [base; quote] ∧ cache' = <[base := c]> cache).
  { unfold Ib.find_contract in Hfind.
    destruct (Ib.unqualified symbol) as [e|[con key]] eqn:Hun; [done|].
    destruct (Ib.qualifyContractsAsync con) as [|c' l] eqn:Hq; [done|].
    injection Hfind as -> <-.
    unfold Ib.unqualified in Hun. rewrite Hsplit in Hun.
    destruct (Ib.in_tuple exch _) eqn:Hfut.
    { apply futes_exchange_is_not_forex in Hfut. congruence. }
    rewrite Hfx in Hun.
    destruct (Ib.split_slash sym) as [|base [|quote [|]]]; simplify_eq.
    by exists key, quote. }
  split; [done|]. destruct Hkey as (base & quote & Hparts & ->).
  intros price action size brid. unfold Ib.submit_limit.
  assert (base ≠ symbol) as Hne.
  { intros ->. apply split_slash_length in Hparts.
    apply rsplit_dot_length in Hsplit. rewrite upper_length in Hsplit. lia. }
  by rewrite lookup_insert_ne, Hnone.
Qed.

Lemma find_contract_caches_under_symbol_witness :
  Ib.submit_limit (H := Scenario.ib_insync) "tsla.nasdaq" (Num 700) "buy" 10
      None
      (<["tsla.nasdaq" := Scenario.Stock "TSLA" "NASDAQ" "" "USD"]> ∅)
    = inr 1%Z.
Proof.
  destruct (find_contract_caches_under_symbol (H := Scenario.ib_insync)
              "tsla.nasdaq" "TSLA" "NASDAQ" ∅
              (<["tsla.nasdaq" := Scenario.Stock "TSLA" "NASDAQ" "" "USD"]> ∅)
              (Scenario.Stock "TSLA" "NASDAQ" "" "USD") (Num 700) "buy" 10
              None) as [_ Hsubmit].
  - reflexivity.
  - reflexivity.
  - reflexivity.
  - etrans; [exact Hsubmit|reflexivity].
Defined.

Lemma forex_contract_is_cached_under_base_witness :
  Ib.submit_limit (H := Scenario.ib_insync) "eur/usd.forex" (Num 1) "buy" 10
      None (<["EUR" := Scenario.Forex "EUR" "USD"]> ∅)
    = inl (Ib.RuntimeError "Can not order {symbol}, no live feed?").
Proof.
  destruct (forex_contract_is_cached_under_base (H := Scenario.ib_insync)
              "eur/usd.forex" "EUR/USD" "FOREX" ∅
              (<["EUR" := Scenario.Forex "EUR" "USD"]> ∅)
              (Scenario.Forex "EUR" "USD")) as [_ Hsubmit].
  - reflexivity.
  - reflexivity.
  - reflexivity.
  - reflexivity.
  - apply Hsubmit.
Defined.
